(** * Kratu account-health report and the campaign alert script

    A shallow embedding of the two AdWords scripts of this repository:

    - [src/kratu.js]: the Kratu report (run state machine, batch loop,
      signal normalisation and scoring, settings);
    - the campaign alert script (the second source file).

    Conventions of the embedding.

    - JavaScript numbers are exact rationals ([Qc], canonical fractions, so
      that equal numbers are equal terms) extended with [NaN] and the two
      infinities.  Rounding to binary64 and the sign of zero are not
      modelled.
    - JavaScript values are the small universe [val]; the coercions the
      code relies on ([ToNumber], truthiness, loose equality with a string)
      are written out.
    - The spreadsheet, the report sheets, the outbox and the clock are
      explicit state; a thrown exception is the [Throw] result and keeps
      everything already written to the spreadsheet.
    - Text columns of the spreadsheet are read as strings and the numeric
      columns of the Signals tab (weight, min, max) as numbers; an empty
      cell reads as the empty string.  [Logger.log] is left out; of the
      formatting of the report, the formats that [writeDataRow] computes
      are embedded ([formatDataRow]), their effect on the sheet is not.
    - The clock is read as one value per invocation ([now]), a range of
      zero rows reads as the empty array, and [Array.prototype.sort] is a
      stable insertion sort with the comparison function of the code.
    - Numeric strings are decimal literals with an optional exponent, and
      [Infinity], between ASCII white space; hexadecimal literals are
      outside the fragment. *)

From Stdlib Require Import Bool List String Ascii ZArith QArith Qcanon Lia Arith.
From Stdlib Require Import DecimalString.
From Stdlib Require Import Permutation Sorted Lqa Qround.
Import ListNotations.

Set Implicit Arguments.

(** ** JavaScript numbers *)

Module JS.

Local Open Scope Qc_scope.

Inductive num : Type :=
| Fin (q : Qc)
| NaN
| PInf
| NInf.

Definition ofZ (z : Z) : num := Fin (Q2Qc (inject_Z z)).
Definition ofNat (n : nat) : num := ofZ (Z.of_nat n).

Definition Qc_eqb (x y : Qc) : bool :=
  match x ?= y with Eq => true | _ => false end.
Definition Qc_ltb (x y : Qc) : bool :=
  match x ?= y with Lt => true | _ => false end.
Definition Qc_leb (x y : Qc) : bool :=
  match x ?= y with Gt => false | _ => true end.

(** [x < y], false as soon as one side is [NaN]. *)
Definition lt (x y : num) : bool :=
  match x, y with
  | NaN, _ | _, NaN => false
  | Fin a, Fin b => Qc_ltb a b
  | NInf, NInf => false
  | NInf, _ => true
  | _, PInf => match x with PInf => false | _ => true end
  | _, _ => false
  end.

(** [x == y] on numbers. *)
Definition eqb (x y : num) : bool :=
  match x, y with
  | Fin a, Fin b => Qc_eqb a b
  | PInf, PInf | NInf, NInf => true
  | _, _ => false
  end.

Definition le (x y : num) : bool := lt x y || eqb x y.
Definition gt (x y : num) : bool := lt y x.
Definition ge (x y : num) : bool := le y x.

Definition neg (x : num) : num :=
  match x with
  | Fin a => Fin (- a)
  | NaN => NaN
  | PInf => NInf
  | NInf => PInf
  end.

Definition add (x y : num) : num :=
  match x, y with
  | NaN, _ | _, NaN => NaN
  | Fin a, Fin b => Fin (a + b)
  | PInf, NInf | NInf, PInf => NaN
  | PInf, _ | _, PInf => PInf
  | NInf, _ | _, NInf => NInf
  end.

Definition sub (x y : num) : num := add x (neg y).

(** The sign of a number that is not [NaN]: [Lt] negative, [Eq] zero. *)
Definition sign (x : num) : comparison :=
  match x with
  | Fin a => a ?= 0
  | PInf => Gt
  | NInf => Lt
  | NaN => Eq
  end.

Definition signed_inf (s1 s2 : comparison) : num :=
  match s1, s2 with
  | Eq, _ | _, Eq => NaN
  | Gt, Gt | Lt, Lt => PInf
  | _, _ => NInf
  end.

Definition mul (x y : num) : num :=
  match x, y with
  | NaN, _ | _, NaN => NaN
  | Fin a, Fin b => Fin (a * b)
  | _, _ => signed_inf (sign x) (sign y)
  end.

(** Division: a finite number over zero is an infinity of its sign and
    [0 / 0] is [NaN]; nothing throws. *)
Definition div (x y : num) : num :=
  match x, y with
  | NaN, _ | _, NaN => NaN
  | Fin a, Fin b =>
      if Qc_eqb b 0 then signed_inf (a ?= 0) Gt else Fin (a / b)
  | Fin _, _ => Fin 0
  | _, Fin b => signed_inf (sign x) (match b ?= 0 with Lt => Lt | _ => Gt end)
  | _, _ => NaN
  end.

(** [parseInt] of a number of ordinary magnitude: the fraction is cut off. *)
Definition parseInt (x : num) : num :=
  match x with
  | Fin a => ofZ (Z.quot (Qnum a) (Z.pos (Qden a)))
  | _ => NaN
  end.

End JS.

(** ** Strings as numbers, and JavaScript values *)

Module Value.

Import JS.
Local Open Scope string_scope.

Definition isWhiteSpace (c : ascii) : bool :=
  let n := nat_of_ascii c in
  ((9 <=? n) && (n <=? 13) || (n =? 32))%nat.

Definition digitOf (c : ascii) : option Z :=
  let n := nat_of_ascii c in
  if ((48 <=? n) && (n <=? 57))%nat then Some (Z.of_nat (n - 48)) else None.

Fixpoint skipWhiteSpace (s : string) : string :=
  match s with
  | String c s' => if isWhiteSpace c then skipWhiteSpace s' else s
  | EmptyString => s
  end.

(** [DecimalDigits]: the value read so far, how many digits were read, and
    the rest of the text. *)
Fixpoint decimalDigits (s : string) (acc : Z) (count : nat) : Z * nat * string :=
  match s with
  | String c s' =>
      match digitOf c with
      | Some d => decimalDigits s' (10 * acc + d)%Z (S count)
      | None => (acc, count, s)
      end
  | EmptyString => (acc, count, s)
  end.

Definition signOf (s : string) : bool * string :=
  match s with
  | String "-" s' => (true, s')
  | String "+" s' => (false, s')
  | _ => (false, s)
  end.

(** [ExponentPart]; a malformed exponent is not part of the literal. *)
Definition exponentPart (s : string) : Z * string :=
  match s with
  | String c s' =>
      if (Ascii.eqb c "e" || Ascii.eqb c "E")%bool then
        let (negative, s1) := signOf s' in
        match decimalDigits s1 0 0 with
        | (_, O, _) => (0%Z, s)
        | (e, _, rest) => ((if negative then - e else e)%Z, rest)
        end
      else (0%Z, s)
  | EmptyString => (0%Z, s)
  end.

Definition pow10 (e : Z) : Qc :=
  match e with
  | Z0 => Q2Qc 1
  | Zpos p => Q2Qc (inject_Z (10 ^ Zpos p))
  | Zneg p => Q2Qc (1 # (10 ^ p))
  end.

Definition decimalValue (mantissa : Z) (fractionDigits : nat) (e : Z) : Qc :=
  (Q2Qc (inject_Z mantissa) * pow10 (e - Z.of_nat fractionDigits))%Qc.

(** The longest prefix that is a [StrDecimalLiteral], with what follows. *)
Definition strDecimalLiteral (s : string) : option (num * string) :=
  let (negative, s0) := signOf s in
  let signed (x : num) := if negative then neg x else x in
  if prefix "Infinity" s0 then
    Some (signed PInf, substring 8 (length s0 - 8) s0)
  else
    let '(intPart, intCount, s1) := decimalDigits s0 0 0 in
    let '(mantissa, fracCount, s2) :=
      match s1 with
      | String "." s1' =>
          let '(m, k, r) := decimalDigits s1' intPart 0 in
          match intCount, k with
          | O, O => (intPart, O, s1)
          | _, _ => (m, k, r)
          end
      | _ => (intPart, O, s1)
      end in
    match intCount, fracCount with
    | O, O => None
    | _, _ =>
        let (e, rest) := exponentPart s2 in
        Some (signed (Fin (decimalValue mantissa fracCount e)), rest)
    end.

(** [parseFloat]: leading white space is skipped, trailing text ignored. *)
Definition parseFloat (s : string) : num :=
  match strDecimalLiteral (skipWhiteSpace s) with
  | Some (x, _) => x
  | None => NaN
  end.

(** [Number(s)] for decimal text: the whole trimmed text has to be one
    literal, and the empty text is [0].  Hexadecimal, octal and binary
    literals are outside this fragment. *)
Definition stringToNumber (s : string) : num :=
  match skipWhiteSpace s with
  | EmptyString => ofZ 0
  | s0 =>
      match strDecimalLiteral s0 with
      | Some (x, rest) =>
          match skipWhiteSpace rest with
          | EmptyString => x
          | _ => NaN
          end
      | None => NaN
      end
  end.

Fixpoint contains (c : ascii) (s : string) : bool :=
  match s with
  | String c' s' => Ascii.eqb c c' || contains c s'
  | EmptyString => false
  end.

Inductive val : Type :=
| VUndef
| VNull
| VBool (b : bool)
| VNum (n : num)
| VStr (s : string).

Definition toNumber (v : val) : num :=
  match v with
  | VUndef => NaN
  | VNull => ofZ 0
  | VBool b => ofZ (if b then 1 else 0)
  | VNum n => n
  | VStr s => stringToNumber s
  end.

(** [ToBoolean]. *)
Definition truthy (v : val) : bool :=
  match v with
  | VUndef | VNull => false
  | VBool b => b
  | VNum (Fin q) => negb (Qc_eqb q (Q2Qc 0))
  | VNum NaN => false
  | VNum _ => true
  | VStr s => negb (s =? EmptyString)
  end.

(** [v == s] for a string [s]. *)
Definition looseEqString (v : val) (s : string) : bool :=
  match v with
  | VUndef | VNull => false
  | VStr t => t =? s
  | _ => JS.eqb (toNumber v) (stringToNumber s)
  end.

(** [x > y]: two strings are compared as texts, by their code units (the
    bytes of the embedding, which agree with them on ASCII text); every
    other pair is compared as numbers. *)
Definition gtValue (x y : val) : bool :=
  match x, y with
  | VStr s, VStr t => String.ltb t s
  | _, _ => JS.gt (toNumber x) (toNumber y)
  end.

End Value.

(** ** The Kratu report: data *)

Module Kratu.

Import JS Value.
Local Open Scope string_scope.

(** A JavaScript object used as a map from property names. *)
Definition object (A : Type) : Type := list (string * A).

Fixpoint get {A : Type} (o : object A) (k : string) : option A :=
  match o with
  | [] => None
  | (k', a) :: o' => if k' =? k then Some a else get o' k
  end.

Fixpoint set {A : Type} (o : object A) (k : string) (a : A) : object A :=
  match o with
  | [] => [(k, a)]
  | (k', a') :: o' => if k' =? k then (k, a) :: o' else (k', a') :: set o' k a
  end.

Definition getOr (o : object val) (k : string) : val :=
  match get o k with Some v => v | None => VUndef end.

(** One row of the Signals tab, and the definition object built from it. *)
Record signalDefinition : Type := {
  name : string;
  displayName : string;
  includeInReport : string;
  type : string;
  direction : string;
  format : string;
  weight : Qc;
  min : Qc;
  max : Qc
}.

(** One row of the Settings tab: the three cells and the background colour
    of the third. *)
Record settingsRow : Type := {
  keyCell : string;
  typeCell : string;
  valueCell : val;
  background : string
}.

Module Setting.
Record t : Type := { key : string; type : string; value : val }.
End Setting.

Module Signal.
Record t : Type := {
  definition : signalDefinition;
  value : val;
  displayValue : val;
  normalizedValue : option val;
  signalScore : option num
}.
End Signal.

Record accountInfo : Type := {
  account : string;
  rawSignals : object val;
  signals : object Signal.t;
  scoreSum : num;
  scoreWeights : num;
  score : num
}.

(** The Report tab of a run spreadsheet: the header row and the appended
    data rows. *)
Record reportSheet : Type := {
  headerRow : option (list val);
  dataRows : list (list val)
}.

Record email : Type := {
  recipient : val;
  subject : string;
  body : string
}.

(** The spreadsheet and the outbox: what survives an invocation.  Rows are
    the data rows below the header row of each tab. *)
Record world : Type := {
  signalsTab : list signalDefinition;
  settingsTab : list settingsRow;
  accountsTab : list (string * val);
  historyTab : list (val * val * string);
  protectedTabs : list string;
  runSheets : object reportSheet;
  outbox : list email
}.

(** The variables of the three module closures: fresh at every invocation. *)
Record memory : Type := {
  accountInfos : list accountInfo;
  currentRunSheet : option string;
  processedAccounts : nat;
  signalDefinitions : list signalDefinition;
  sumWeights : num;
  settings : list Setting.t
}.

Record state : Type := { mem : memory; disk : world }.

(** What the platform answers during one invocation. *)
Record env : Type := {
  now : Z;
  mccAccounts : list string;
  mccAccountsWithLabel : val -> list string;
  accountReport : string -> list string -> val -> list (string -> string);
  copyUrl : string
}.

Definition freshMemory : memory :=
  {| accountInfos := []; currentRunSheet := None; processedAccounts := 0;
     signalDefinitions := []; sumWeights := NaN; settings := [] |}.

(** *** Field updates *)

Definition withAccountInfos (x : list accountInfo) (m : memory) : memory :=
  {| accountInfos := x; currentRunSheet := currentRunSheet m;
     processedAccounts := processedAccounts m;
     signalDefinitions := signalDefinitions m; sumWeights := sumWeights m;
     settings := settings m |}.
Definition withCurrentRunSheet (x : option string) (m : memory) : memory :=
  {| accountInfos := accountInfos m; currentRunSheet := x;
     processedAccounts := processedAccounts m;
     signalDefinitions := signalDefinitions m; sumWeights := sumWeights m;
     settings := settings m |}.
Definition withProcessedAccounts (x : nat) (m : memory) : memory :=
  {| accountInfos := accountInfos m; currentRunSheet := currentRunSheet m;
     processedAccounts := x;
     signalDefinitions := signalDefinitions m; sumWeights := sumWeights m;
     settings := settings m |}.
Definition withSignalDefinitions (x : list signalDefinition) (m : memory) : memory :=
  {| accountInfos := accountInfos m; currentRunSheet := currentRunSheet m;
     processedAccounts := processedAccounts m;
     signalDefinitions := x; sumWeights := sumWeights m;
     settings := settings m |}.
Definition withSumWeights (x : num) (m : memory) : memory :=
  {| accountInfos := accountInfos m; currentRunSheet := currentRunSheet m;
     processedAccounts := processedAccounts m;
     signalDefinitions := signalDefinitions m; sumWeights := x;
     settings := settings m |}.
Definition withSettings (x : list Setting.t) (m : memory) : memory :=
  {| accountInfos := accountInfos m; currentRunSheet := currentRunSheet m;
     processedAccounts := processedAccounts m;
     signalDefinitions := signalDefinitions m; sumWeights := sumWeights m;
     settings := x |}.

Definition withAccountsTab (x : list (string * val)) (w : world) : world :=
  {| signalsTab := signalsTab w; settingsTab := settingsTab w;
     accountsTab := x; historyTab := historyTab w;
     protectedTabs := protectedTabs w; runSheets := runSheets w;
     outbox := outbox w |}.
Definition withHistoryTab (x : list (val * val * string)) (w : world) : world :=
  {| signalsTab := signalsTab w; settingsTab := settingsTab w;
     accountsTab := accountsTab w; historyTab := x;
     protectedTabs := protectedTabs w; runSheets := runSheets w;
     outbox := outbox w |}.
Definition withProtectedTabs (x : list string) (w : world) : world :=
  {| signalsTab := signalsTab w; settingsTab := settingsTab w;
     accountsTab := accountsTab w; historyTab := historyTab w;
     protectedTabs := x; runSheets := runSheets w;
     outbox := outbox w |}.
Definition withRunSheets (x : object reportSheet) (w : world) : world :=
  {| signalsTab := signalsTab w; settingsTab := settingsTab w;
     accountsTab := accountsTab w; historyTab := historyTab w;
     protectedTabs := protectedTabs w; runSheets := x;
     outbox := outbox w |}.
Definition withOutbox (x : list email) (w : world) : world :=
  {| signalsTab := signalsTab w; settingsTab := settingsTab w;
     accountsTab := accountsTab w; historyTab := historyTab w;
     protectedTabs := protectedTabs w; runSheets := runSheets w;
     outbox := x |}.

(** *** The monad of an invocation: state, and exceptions that keep it *)

Inductive result (A : Type) : Type :=
| Ok (a : A)
| Throw (message : string).
Arguments Throw {A} message.

Definition M (A : Type) : Type := state -> result A * state.

Definition ret {A : Type} (a : A) : M A := fun s => (Ok a, s).
Definition throw {A : Type} (message : string) : M A := fun s => (Throw message, s).
Definition bind {A B : Type} (m : M A) (f : A -> M B) : M B :=
  fun s =>
    match m s with
    | (Ok a, s') => f a s'
    | (Throw message, s') => (Throw message, s')
    end.

Definition readMem {A : Type} (f : memory -> A) : M A := fun s => (Ok (f (mem s)), s).
Definition readDisk {A : Type} (f : world -> A) : M A := fun s => (Ok (f (disk s)), s).
Definition updMem (f : memory -> memory) : M unit :=
  fun s => (Ok tt, {| mem := f (mem s); disk := disk s |}).
Definition updDisk (f : world -> world) : M unit :=
  fun s => (Ok tt, {| mem := mem s; disk := f (disk s) |}).

Declare Scope js_scope.
Delimit Scope js_scope with js.
Notation "x <- m ;; k" := (bind m (fun x => k))
  (at level 100, m at next level, right associativity) : js_scope.
Notation "m ;;; k" := (bind m (fun _ => k))
  (at level 100, right associativity) : js_scope.

(** [for (...) body] over the elements of an array. *)
Fixpoint forEach {A : Type} (xs : list A) (body : A -> M unit) : M unit :=
  match xs with
  | [] => ret tt
  | x :: xs' => bind (body x) (fun _ => forEach xs' body)
  end.

(** ** The Kratu report: operations *)

Local Open Scope js_scope.

Definition getTimestamp (E : env) : num := ofZ (now E).

Definition dayDifference (time1 time2 : val) : num :=
  parseInt (div (sub (toNumber time2) (toNumber time1))
                (ofZ (24 * 3600 * 1000))).

(** *** settingsManager *)

Definition settingOfRow (r : settingsRow) : Setting.t :=
  {| Setting.key := keyCell r;
     Setting.type := typeCell r;
     Setting.value := if typeCell r =? "Color"
                      then VStr (background r) else valueCell r |}.

Fixpoint readSettingsRows (rows : list settingsRow) (acc : list Setting.t)
  : list Setting.t :=
  match rows with
  | [] => acc
  | r :: rows' =>
      let setting := settingOfRow r in
      if negb (truthy (VStr (Setting.key setting)))
         || negb (truthy (Setting.value setting))
      then readSettingsRows rows' acc
      else readSettingsRows rows' (acc ++ [setting])%list
  end.

Definition readSettings : M unit :=
  settingsRange <- readDisk settingsTab ;;
  updMem (fun m => withSettings (readSettingsRows settingsRange (settings m)) m).

Fixpoint findSetting (key : string) (l : list Setting.t) : option val :=
  match l with
  | [] => None
  | setting :: l' =>
      if (Setting.key setting =? key) && truthy (Setting.value setting)
      then Some (Setting.value setting)
      else findSetting key l'
  end.

Definition getSetting (key : string) (mandatory : bool) : M val :=
  l <- readMem settings ;;
  match findSetting key l with
  | Some v => ret v
  | None =>
      if mandatory then throw ("Setting '" ++ key ++ "' is not set!")
      else ret VNull
  end.

(** *** spreadsheetManager *)

Fixpoint removeFirst (tab : string) (l : list string) : list string :=
  match l with
  | [] => []
  | t :: l' => if t =? tab then l' else t :: removeFirst tab l'
  end.

Definition setSheetProtection (tab : string) : M unit :=
  updDisk (fun w => withProtectedTabs (tab :: protectedTabs w) w).

Definition setProtection : M unit :=
  setSheetProtection "Signals" ;;;
  setSheetProtection "Settings" ;;;
  setSheetProtection "Template".

Definition removeSheetProtection (tab : string) : M unit :=
  updDisk (fun w => withProtectedTabs (removeFirst tab (protectedTabs w)) w).

Definition removeProtection : M unit :=
  removeSheetProtection "Signals" ;;;
  removeSheetProtection "Settings" ;;;
  removeSheetProtection "Template".

Fixpoint calculateSumWeightsFrom (defs : list signalDefinition) (sum : num) : num :=
  match defs with
  | [] => sum
  | signalDefinition :: defs' =>
      if (type signalDefinition =? "Number")
         && (includeInReport signalDefinition =? "Yes")
      then calculateSumWeightsFrom defs' (add sum (Fin (weight signalDefinition)))
      else calculateSumWeightsFrom defs' sum
  end.

Definition calculateSumWeights : M unit :=
  defs <- readMem signalDefinitions ;;
  updMem (withSumWeights (calculateSumWeightsFrom defs (ofZ 0))).

Definition readSignalDefinitions : M unit :=
  values <- readDisk signalsTab ;;
  updMem (withSignalDefinitions
            (filter (fun row => negb (name row =? EmptyString)) values)) ;;;
  calculateSumWeights.

Definition getSignalDefinitions : M (list signalDefinition) := readMem signalDefinitions.
Definition getSumWeights : M num := readMem sumWeights.

Definition addRun (E : env) : M string :=
  updDisk (fun w =>
    withRunSheets ((copyUrl E, {| headerRow := None; dataRows := [] |})
                   :: runSheets w) w) ;;;
  updDisk (fun w =>
    withHistoryTab (historyTab w
                    ++ [(VNum (getTimestamp E), VStr EmptyString, copyUrl E)])%list w) ;;;
  ret (copyUrl E).

Definition hasUnfinishedRun : M bool :=
  history <- readDisk historyTab ;;
  match rev history with
  | [] => ret false
  | (_, lastRunEndDate, _) :: _ =>
      if truthy lastRunEndDate then ret false else ret true
  end.

Fixpoint setLastEnd (history : list (val * val * string)) (v : val)
  : list (val * val * string) :=
  match history with
  | [] => []
  | [(start, _, url)] => [(start, v, url)]
  | row :: history' => row :: setLastEnd history' v
  end.

Definition markRunAsProcessed (E : env) : M unit :=
  updDisk (fun w =>
    withHistoryTab (setLastEnd (historyTab w) (VNum (getTimestamp E))) w).

Definition getLastReportStartTimestamp : M val :=
  history <- readDisk historyTab ;;
  match rev history with
  | [] => ret VNull
  | (start, _, _) :: _ => ret start
  end.

Definition getCurrentRunSheet : M string :=
  cached <- readMem currentRunSheet ;;
  match cached with
  | Some sheet => ret sheet
  | None =>
      history <- readDisk historyTab ;;
      match rev history with
      | [] => throw "Invalid argument: url"
      | (_, _, url) :: _ =>
          sheets <- readDisk runSheets ;;
          match get sheets url with
          | None => throw "Invalid argument: url"
          | Some _ =>
              updMem (withCurrentRunSheet (Some url)) ;;;
              ret url
          end
      end
  end.

Definition addAccount (cid : string) : M unit :=
  updDisk (fun w => withAccountsTab (accountsTab w ++ [(cid, VStr EmptyString)])%list w).

Definition markRows (E : env) (cid : string) (rows : list (string * val))
  : list (string * val) :=
  map (fun row => if cid =? fst row
                  then (fst row, VNum (getTimestamp E)) else row) rows.

Definition countRows (cid : string) (rows : list (string * val)) : nat :=
  List.length (filter (fun row => cid =? fst row) rows).

Definition markAccountAsProcessed (E : env) (cid : string) : M unit :=
  values <- readDisk accountsTab ;;
  updDisk (withAccountsTab (markRows E cid values)) ;;;
  updMem (fun m => withProcessedAccounts
                     (processedAccounts m + countRows cid values) m).

Definition clearAllAccountInfo : M unit :=
  updDisk (withAccountsTab []).

Fixpoint getUnprocessedAccountsFrom (rows : list (string * val))
  (accounts : list string) : M (list string) :=
  match rows with
  | [] => ret accounts
  | (cid, processed) :: rows' =>
      if negb (looseEqString processed EmptyString)
      then getUnprocessedAccountsFrom rows' accounts
      else
        limit <- getSetting "NumAccountsProcess" true ;;
        if ge (ofNat (List.length accounts)) (toNumber limit)
        then getUnprocessedAccountsFrom rows' accounts
        else getUnprocessedAccountsFrom rows' (accounts ++ [cid])%list
  end.

Definition getUnprocessedAccounts : M (list string) :=
  rows <- readDisk accountsTab ;;
  getUnprocessedAccountsFrom rows [].

(** [MccApp.accounts().withIds(ids).get()]: the managed accounts whose id
    is listed, in the order of the platform. *)
Definition withIds (E : env) (ids : list string) : list string :=
  filter (fun a => existsb (String.eqb a) ids) (mccAccounts E).

Definition getUnprocessedAccountIterator (E : env) : M (list string) :=
  accounts <- getUnprocessedAccounts ;;
  ret (withIds E accounts).

Definition allAccountsProcessed : M bool :=
  rows <- readDisk accountsTab ;;
  ret (forallb (fun row => truthy (snd row)) rows).

Definition updateSheet (url : string) (f : reportSheet -> reportSheet) : M unit :=
  updDisk (fun w =>
    match get (runSheets w) url with
    | Some sheet => withRunSheets (set (runSheets w) url (f sheet)) w
    | None => w
    end).

Definition writeHeaderRow : M unit :=
  sheet <- getCurrentRunSheet ;;
  defs <- readMem signalDefinitions ;;
  let row := ([VStr EmptyString]
              ++ map (fun d => VStr (displayName d))
                     (filter (fun d => includeInReport d =? "Yes") defs)
              ++ [VStr "Score"])%list in
  updateSheet sheet (fun r =>
    {| headerRow := Some row; dataRows := dataRows r |}).

Fixpoint displayValues (defs : list signalDefinition) (info : accountInfo)
  : M (list val) :=
  match defs with
  | [] => ret []
  | signalDefinition :: defs' =>
      if includeInReport signalDefinition =? "Yes" then
        match get (signals info) (name signalDefinition) with
        | None => throw "TypeError: Cannot read property displayValue"
        | Some signal =>
            row <- displayValues defs' info ;;
            ret (Signal.displayValue signal :: row)
        end
      else displayValues defs' info
  end.

Definition writeDataRow (info : accountInfo) : M unit :=
  sheet <- getCurrentRunSheet ;;
  defs <- readMem signalDefinitions ;;
  values <- displayValues defs info ;;
  let row := ([VStr EmptyString] ++ values ++ [VNum (score info)])%list in
  updateSheet sheet (fun r =>
    {| headerRow := headerRow r; dataRows := (dataRows r ++ [row])%list |}).

(** *** signalManager *)

Definition normalize (signalDefinition : signalDefinition) (value : val) : val :=
  let min := Fin (min signalDefinition) in
  let max := Fin (max signalDefinition) in
  if direction signalDefinition =? "High" then
    if ge (toNumber value) max then VNum (ofZ 1)
    else if le (toNumber value) min then VNum (ofZ 0)
    else VNum (div (sub (toNumber value) min) (sub max min))
  else if direction signalDefinition =? "Low" then
    if ge (toNumber value) max then VNum (ofZ 0)
    else if le (toNumber value) min then VNum (ofZ 1)
    else VNum (sub (ofZ 1) (div (sub (toNumber value) min) (sub max min)))
  else value.

(** The loop of [processSignals]: the [signals] object and [sumScore]. *)
Fixpoint processSignalsFrom (defs : list signalDefinition) (raw : object val)
  (signals : object Signal.t) (sumScore : num) : object Signal.t * num :=
  match defs with
  | [] => (signals, sumScore)
  | signalDefinition :: defs' =>
      if includeInReport signalDefinition =? "Yes" then
        let value := getOr raw (name signalDefinition) in
        if type signalDefinition =? "Number" then
          let normalizedValue := normalize signalDefinition value in
          let signalScore :=
            mul (toNumber normalizedValue) (Fin (weight signalDefinition)) in
          processSignalsFrom defs' raw
            (set signals (name signalDefinition)
               {| Signal.definition := signalDefinition;
                  Signal.value := value;
                  Signal.displayValue := value;
                  Signal.normalizedValue := Some normalizedValue;
                  Signal.signalScore := Some signalScore |})
            (add sumScore signalScore)
        else
          processSignalsFrom defs' raw
            (set signals (name signalDefinition)
               {| Signal.definition := signalDefinition;
                  Signal.value := value;
                  Signal.displayValue := value;
                  Signal.normalizedValue := None;
                  Signal.signalScore := None |})
            sumScore
      else processSignalsFrom defs' raw signals sumScore
  end.

Definition processSignals (defs : list signalDefinition) (sumWeights : num)
  (account : string) (raw : object val) : accountInfo :=
  let (signals, sumScore) := processSignalsFrom defs raw [] (ofZ 0) in
  {| account := account;
     rawSignals := raw;
     signals := signals;
     scoreSum := sumScore;
     scoreWeights := sumWeights;
     score := div sumScore sumWeights |}.

(** One cell of a report row as it is stored in [rawSignals]. *)
Definition rawSignalOf (value : string) : val :=
  if contains "%" value then VNum (div (parseFloat value) (ofZ 100))
  else VStr value.

Fixpoint readRow (defs : list signalDefinition) (row : string -> string)
  (rawSignals : object val) : object val :=
  match defs with
  | [] => rawSignals
  | signalDefinition :: defs' =>
      readRow defs' row
        (set rawSignals (name signalDefinition)
             (rawSignalOf (row (name signalDefinition))))
  end.

Definition calculateRawSignals (E : env) (account : string) : M (object val) :=
  defs <- getSignalDefinitions ;;
  let signalFields := map name defs in
  period <- getSetting "ReportPeriod" true ;;
  let rows := accountReport E account signalFields period in
  ret (fold_left (fun rawSignals row => readRow defs row rawSignals) rows []).

Definition signalManager_processAccount (E : env) (account : string) : M unit :=
  rawSignals <- calculateRawSignals E account ;;
  defs <- getSignalDefinitions ;;
  sumWeights <- getSumWeights ;;
  let accountInfo := processSignals defs sumWeights account rawSignals in
  updMem (fun m => withAccountInfos (accountInfos m ++ [accountInfo])%list m).

(** [Array.prototype.sort] with the comparator [b.score - a.score], as a
    stable insertion sort. *)
Fixpoint insertByScore (a : accountInfo) (l : list accountInfo) : list accountInfo :=
  match l with
  | [] => [a]
  | b :: l' =>
      if gt (sub (score b) (score a)) (ofZ 0)
      then b :: insertByScore a l'
      else a :: b :: l'
  end.

Definition sortByScore (l : list accountInfo) : list accountInfo :=
  fold_right insertByScore [] l.

Definition getAccountInfos : M (list accountInfo) :=
  updMem (fun m => withAccountInfos (sortByScore (accountInfos m)) m) ;;;
  readMem accountInfos.

(** *** The entry point and its procedures *)

Definition processAccount (E : env) (account : string) : M unit :=
  signalManager_processAccount E account ;;;
  markAccountAsProcessed E account.

Definition writeAccountDataToSpreadsheet : M unit :=
  infos <- getAccountInfos ;;
  writeHeaderRow ;;;
  forEach infos writeDataRow.

Definition sendEmail : M unit :=
  recipientEmail <- getSetting "RecipientEmail" false ;;
  if truthy recipientEmail then
    sheet <- getCurrentRunSheet ;;
    updDisk (fun w =>
      withOutbox (outbox w ++ [{| recipient := recipientEmail;
                                  subject := "Kratu Report is ready";
                                  body := sheet |}])%list w)
  else ret tt.

(** The [while] loop of [continueUnfinishedReport]; [processed++] is
    evaluated whenever the iterator has a next account. *)
Fixpoint batchLoop (E : env) (iterator : list string) (processed : nat) : M nat :=
  match iterator with
  | [] => ret processed
  | account :: iterator' =>
      limit <- getSetting "NumAccountsProcess" true ;;
      if lt (ofNat processed) (toNumber limit) then
        processAccount E account ;;;
        batchLoop E iterator' (S processed)
      else ret (S processed)
  end.

(** Returns the value of [processed] that the function logs last. *)
Definition continueUnfinishedReport (E : env) : M nat :=
  getCurrentRunSheet ;;;
  iterator <- getUnprocessedAccountIterator E ;;
  processed <- batchLoop E iterator 0 ;;
  writeAccountDataToSpreadsheet ;;;
  complete <- (if (0 <? processed)%nat then allAccountsProcessed else ret false) ;;
  (if complete then
     removeProtection ;;;
     markRunAsProcessed E ;;;
     sendEmail
   else ret tt) ;;;
  ret processed.

Definition startNewReport (E : env) : M unit :=
  setProtection ;;;
  clearAllAccountInfo ;;;
  accountLabel <- getSetting "AccountLabel" false ;;
  let accounts := if truthy accountLabel
                  then mccAccountsWithLabel E accountLabel
                  else mccAccounts E in
  forEach accounts addAccount ;;;
  addRun E ;;;
  ret tt.

Definition init : M unit :=
  readSignalDefinitions ;;;
  readSettings.

Definition main (E : env) : M unit :=
  init ;;;
  unfinished <- hasUnfinishedRun ;;
  if unfinished then
    continueUnfinishedReport E ;;;
    ret tt
  else
    reportFrequency <- getSetting "ReportFrequency" true ;;
    lastReportStart <- getLastReportStartTimestamp ;;
    if negb (truthy lastReportStart)
       || ge (dayDifference lastReportStart (VNum (getTimestamp E)))
             (toNumber reportFrequency)
    then startNewReport E
    else ret tt.

(** One invocation of the script on the stored spreadsheet. *)
Definition invoke (E : env) (w : world) : result unit * state :=
  main E {| mem := freshMemory; disk := w |}.

(** *** The colours and formats of a data row *)

(** The array [colors]: the font colour and the background colour. *)
Definition getColors (settingFontColor settingBackgroundColor : string)
  : M (val * val) :=
  fontColor <- getSetting settingFontColor false ;;
  backgroundColor <- getSetting settingBackgroundColor false ;;
  ret (fontColor, backgroundColor).

Definition getStringColors (stringValue : val) : M (val * val) :=
  getColors "StringFgColor" "StringBgColor".

Definition getNumberColors (numericValue : val) : M (val * val) :=
  level1MinValue <- getSetting "Level1MinValue" false ;;
  level2MinValue <- getSetting "Level2MinValue" false ;;
  level3MinValue <- getSetting "Level3MinValue" false ;;
  level4MinValue <- getSetting "Level4MinValue" false ;;
  level5MinValue <- getSetting "Level5MinValue" false ;;
  if truthy level5MinValue && gtValue numericValue level5MinValue then
    getColors "Level5FgColor" "Level5BgColor"
  else if truthy level4MinValue && gtValue numericValue level4MinValue then
    getColors "Level4FgColor" "Level4BgColor"
  else if truthy level3MinValue && gtValue numericValue level3MinValue then
    getColors "Level3FgColor" "Level3BgColor"
  else if truthy level2MinValue && gtValue numericValue level2MinValue then
    getColors "Level2FgColor" "Level2BgColor"
  else if truthy level1MinValue && gtValue numericValue level1MinValue then
    getColors "Level1FgColor" "Level1BgColor"
  else ret (VNull, VNull).

(** A JavaScript array that may have holes; [a[i] = x] extends it. *)
Definition array (A : Type) : Type := list (option A).

Fixpoint assign {A : Type} (a : array A) (i : nat) (x : A) : array A :=
  match i, a with
  | O, [] => [Some x]
  | O, _ :: a' => Some x :: a'
  | S i', [] => None :: assign [] i' x
  | S i', y :: a' => y :: assign a' i' x
  end.

(** The rows [numberFormats[0]], [fontColors[0]] and [backgroundColors[0]]
    that [writeDataRow] hands to the range of the data cells. *)
Record rowFormats : Type := {
  numberFormats : array string;
  fontColors : array val;
  backgroundColors : array val
}.

(** The second loop of [writeDataRow], from the column [colIndex] on. *)
Fixpoint formatCells (defs : list signalDefinition) (info : accountInfo)
  (colIndex : nat) (formats : rowFormats) : M (nat * rowFormats) :=
  match defs with
  | [] => ret (colIndex, formats)
  | signalDefinition :: defs' =>
      if includeInReport signalDefinition =? "Yes" then
        match get (signals info) (name signalDefinition) with
        | None => throw "TypeError: Cannot read property value"
        | Some signal =>
            let value := Signal.value signal in
            let normalizedValue :=
              match Signal.normalizedValue signal with
              | Some v => v
              | None => VUndef
              end in
            colors <- (if type signalDefinition =? "Number"
                       then getNumberColors normalizedValue
                       else if type signalDefinition =? "String"
                            then getStringColors value
                            else ret (VNum (ofZ 2), VUndef)) ;;
            formatCells defs' info (S colIndex)
              {| numberFormats :=
                   if type signalDefinition =? "Number"
                   then assign (numberFormats formats) colIndex
                               (format signalDefinition)
                   else numberFormats formats;
                 fontColors := assign (fontColors formats) colIndex (fst colors);
                 backgroundColors :=
                   assign (backgroundColors formats) colIndex (snd colors) |}
        end
      else formatCells defs' info colIndex formats
  end.

(** The formatting part of [writeDataRow]: the formats of the signal cells,
    then those of the score in the last column. *)
Definition formatDataRow (info : accountInfo) : M rowFormats :=
  defs <- readMem signalDefinitions ;;
  cells <- formatCells defs info 0
             {| numberFormats := []; fontColors := []; backgroundColors := [] |} ;;
  let (colIndex, formats) := cells in
  scoreColors <- getNumberColors (VNum (score info)) ;;
  ret {| numberFormats := assign (numberFormats formats) colIndex "0.00%";
         fontColors := assign (fontColors formats) colIndex (fst scoreColors);
         backgroundColors :=
           assign (backgroundColors formats) colIndex (snd scoreColors) |}.

End Kratu.

(** ** The campaign alert script

    The listing of the second source file delimits its string literals with
    typographic quotation marks; they are read as the string delimiters they
    stand for. *)

Module CampaignAlert.

Local Open Scope string_scope.

Record stats : Type := { getImpressions : Z }.

Record campaign : Type := {
  getName : string;
  isEnabled : bool;
  getStatsFor : string -> stats
}.

(** The arguments of one [MailApp.sendEmail] call. *)
Record email : Type := {
  recipient : string;
  subject : string;
  body : string;
  htmlBody : string
}.

Definition accountName : string := "nome da conta".
Definition yourEmail : string := "seu email".
Definition emailBodyStart : string :=
  "Ontem estas campanhas não tiveram impressões:<br>".

Definition numberToString (n : nat) : string :=
  DecimalString.NilEmpty.string_of_uint (Nat.to_uint n).

(** The [while] loop over the campaign iterator. *)
Fixpoint scanCampaigns (campaignsIterator : list campaign)
  (emailBody : string) (noImpCamp : nat) : string * nat :=
  match campaignsIterator with
  | [] => (emailBody, noImpCamp)
  | campaign :: rest =>
      let stats := getStatsFor campaign "YESTERDAY" in
      if (getImpressions stats =? 0)%Z && isEnabled campaign
      then scanCampaigns rest (emailBody ++ getName campaign ++ "<br>")
                         (S noImpCamp)
      else scanCampaigns rest emailBody noImpCamp
  end.

(** [main] on the campaigns of the account; the result is the list of
    e-mails handed to [MailApp]. *)
Definition main (campaigns : list campaign) : list email :=
  let (emailBody, noImpCamp) := scanCampaigns campaigns emailBodyStart 0 in
  if (0 <? noImpCamp)%nat then
    [ {| recipient := yourEmail;
         subject := "Alerta: " ++ accountName ++ " – "
                    ++ numberToString noImpCamp
                    ++ " Campanhas sem impressões";
         body := EmptyString;
         htmlBody := emailBody |} ]
  else [].

(** *** Notions used in the statements *)




End CampaignAlert.

(** * Notions used in the statements

    Abbreviations of the statements below: what an operation computes or
    leaves as it is, the states of a run, and small example spreadsheets. *)

Import JS Value Kratu.
Local Open Scope string_scope.
Local Open Scope list_scope.
Local Open Scope js_scope.

(** ** Scoring *)

(** The value of [normalize] for direction High on a finite number, as a
    function of it. *)
Definition ramp (d : signalDefinition) (q : Qc) : Qc :=
  (if Qc_leb (max d) q then 1
   else if Qc_leb q (min d) then 0
   else (q - min d) / (max d - min d))%Qc.

(** The definitions that count for the score. *)
Definition included (d : signalDefinition) : bool :=
  (includeInReport d =? "Yes") && (type d =? "Number").

(** What one definition adds to [sumScore] and to [sumWeights]. *)
Definition contribution (raw : object val) (d : signalDefinition) : num :=
  if included d
  then mul (toNumber (normalize d (getOr raw (name d)))) (Fin (weight d))
  else ofZ 0.

Definition weightShare (d : signalDefinition) : num :=
  if included d then Fin (weight d) else ofZ 0.

Definition sumList (l : list num) : num := fold_left add l (ofZ 0).

(** ** Settings *)

Definition matches (key : string) (setting : Setting.t) : bool :=
  (Setting.key setting =? key) && truthy (Setting.value setting).

(** The rows of the Settings tab that [readSettings] stores. *)
Definition kept (r : settingsRow) : bool :=
  truthy (VStr (keyCell r)) && truthy (Setting.value (settingOfRow r)).

(** The message of the exception for a missing mandatory setting. *)
Definition notSet (key : string) : string :=
  ("Setting '" ++ key ++ "' is not set!")%string.

(** No row of the Settings tab gives the batch size a truthy value. *)
Definition batchSizeUnset (w : world) : Prop :=
  forall row, In row (settingsTab w) -> keyCell row = "NumAccountsProcess" ->
              truthy (Setting.value (settingOfRow row)) = false.

(** ** The state of an invocation *)

(** The signal definitions that [readSignalDefinitions] keeps. *)
Definition catalogue (w : world) : list signalDefinition :=
  filter (fun row => negb (name row =? EmptyString)) (signalsTab w).

(** The state that [init] ends in. *)
Definition initState (s : state) : state :=
  {| mem :=
       withSettings
         (readSettingsRows (settingsTab (disk s)) (settings (mem s)))
         (withSumWeights
            (calculateSumWeightsFrom (catalogue (disk s)) (ofZ 0))
            (withSignalDefinitions (catalogue (disk s)) (mem s)));
     disk := disk s |}.

(** The state of an invocation on the spreadsheet [w] after [init]. *)
Definition started (w : world) : state :=
  initState {| mem := freshMemory; disk := w |}.

(** The run sheet that [getCurrentRunSheet] returns, if any. *)
Definition currentSheetUrl (s : state) : option string :=
  match currentRunSheet (mem s) with
  | Some sheet => Some sheet
  | None =>
      match rev (historyTab (disk s)) with
      | [] => None
      | (_, _, url) :: _ =>
          match get (runSheets (disk s)) url with
          | Some _ => Some url
          | None => None
          end
      end
  end.

Definition cached (url : string) (s : state) : state :=
  {| mem := withCurrentRunSheet (Some url) (mem s); disk := disk s |}.

(** The report sheet of the last run of the history, if it can be opened. *)
Definition openSheet (w : world) : option (string * reportSheet) :=
  match rev (historyTab w) with
  | [] => None
  | (_, _, url) :: _ =>
      match get (runSheets w) url with
      | Some sheet => Some (url, sheet)
      | None => None
      end
  end.

(** ** The parts of a batch *)

(** [continueUnfinishedReport] up to the last write to the report, and what
    follows it. *)
Definition scoreBatch (E : env) : M nat :=
  getCurrentRunSheet ;;;
  iterator <- getUnprocessedAccountIterator E ;;
  processed <- batchLoop E iterator 0 ;;
  writeAccountDataToSpreadsheet ;;;
  ret processed.

Definition finishRun (E : env) (processed : nat) : M nat :=
  complete <- (if (0 <? processed)%nat then allAccountsProcessed else ret false) ;;
  (if complete then
     removeProtection ;;;
     markRunAsProcessed E ;;;
     sendEmail
   else ret tt) ;;;
  ret processed.

(** The batch once the run sheet is open, and once the accounts are
    selected. *)
Definition scoreOpenBatch (E : env) : M nat :=
  iterator <- getUnprocessedAccountIterator E ;;
  processed <- batchLoop E iterator 0 ;;
  writeAccountDataToSpreadsheet ;;;
  ret processed.

Definition scoreSelected (E : env) (ids : list string) : M nat :=
  processed <- batchLoop E (withIds E ids) 0 ;;
  writeAccountDataToSpreadsheet ;;;
  ret processed.

(** A row of the Accounts tab that [getUnprocessedAccounts] takes for
    unprocessed: its timestamp cell [== ''], and the accounts it selects
    under a given limit. *)
Definition unprocessedRow (row : string * val) : bool :=
  looseEqString (snd row) EmptyString.

Fixpoint selectFrom (limit : num) (rows : list (string * val))
  (accounts : list string) : list string :=
  match rows with
  | [] => accounts
  | row :: rows' =>
      if negb (unprocessedRow row) then selectFrom limit rows' accounts
      else if ge (ofNat (List.length accounts)) limit
           then selectFrom limit rows' accounts
           else selectFrom limit rows' (accounts ++ [fst row])
  end.

(** What [getUnprocessedAccounts] selects in a state, nothing when it
    throws. *)
Definition selection (s : state) : list string :=
  match fst (getUnprocessedAccounts s) with
  | Ok ids => ids
  | Throw _ => []
  end.

(** The state after [signalManager.processAccount], after
    [markAccountAsProcessed], and after both. *)
Definition rawSignalsOf (E : env) (a : string) (period : val) (s : state)
  : object val :=
  fold_left (fun rawSignals row => readRow (signalDefinitions (mem s)) row rawSignals)
            (accountReport E a (map name (signalDefinitions (mem s))) period) [].

Definition scoredState (E : env) (a : string) (period : val) (s : state) : state :=
  {| mem := withAccountInfos
              (accountInfos (mem s)
               ++ [processSignals (signalDefinitions (mem s)) (sumWeights (mem s))
                                  a (rawSignalsOf E a period s)])
              (mem s);
     disk := disk s |}.

Definition markedState (E : env) (cid : string) (s : state) : state :=
  {| mem := withProcessedAccounts
              (processedAccounts (mem s)
               + countRows cid (accountsTab (disk s)))%nat (mem s);
     disk := withAccountsTab (markRows E cid (accountsTab (disk s))) (disk s) |}.

Definition processedState (E : env) (a : string) (period : val) (s : state) : state :=
  markedState E a (scoredState E a period s).

(** The loop of the batch once both settings are known. *)
Fixpoint batchRun (E : env) (limit period : val) (iterator : list string)
  (processed : nat) (s : state) : nat * state :=
  match iterator with
  | [] => (processed, s)
  | a :: iterator' =>
      if lt (ofNat processed) (toNumber limit)
      then batchRun E limit period iterator' (S processed)
                    (processedState E a period s)
      else (S processed, s)
  end.

(** The accounts scored so far in an invocation. *)
Definition scored (s : state) : list string := map account (accountInfos (mem s)).

(** Every row of the account holds a truthy timestamp; every row of the
    account holds the timestamp of this invocation. *)
Definition marked (c : string) (w : world) : Prop :=
  forall row, In row (accountsTab w) -> fst row = c -> truthy (snd row) = true.

Definition markedNow (E : env) (c : string) (w : world) : Prop :=
  forall row, In row (accountsTab w) -> fst row = c ->
              snd row = VNum (getTimestamp E).

(** The Accounts tab after the accounts of [l] were marked one by one. *)
Definition markAll (E : env) (l : list string) (rows : list (string * val))
  : list (string * val) :=
  fold_left (fun rows a => markRows E a rows) l rows.

(** The accounts scored by the later batches of a run, one batch per
    environment. *)
Fixpoint laterScored (Es : list env) (w : world) : list string :=
  match Es with
  | [] => []
  | E :: Es' =>
      scored (snd (continueUnfinishedReport E (started w)))
      ++ laterScored Es' (disk (snd (continueUnfinishedReport E (started w))))
  end.

(** The header row that [writeHeaderRow] writes, and the spreadsheet in which
    only that row was written. *)
Definition headerOf (defs : list signalDefinition) : list val :=
  [VStr EmptyString]
  ++ map (fun d => VStr (displayName d))
         (filter (fun d => includeInReport d =? "Yes") defs)
  ++ [VStr "Score"].

Definition reportHeader (w : world) : list val := headerOf (catalogue w).

Definition withHeader (w : world) (url : string) (sheet : reportSheet) : world :=
  withRunSheets
    (set (runSheets w) url
         {| headerRow := Some (reportHeader w); dataRows := dataRows sheet |}) w.

(** ** The end of a run *)

(** The e-mail that [sendEmail] sends, if a recipient is set. *)
Definition notification (s : state) (url : string) : list email :=
  match findSetting "RecipientEmail" (settings (mem s)) with
  | Some recipientEmail =>
      if truthy recipientEmail
      then [ {| recipient := recipientEmail;
                subject := "Kratu Report is ready";
                body := url |} ]
      else []
  | None => []
  end.

(** What [allAccountsProcessed] answers. *)
Definition allMarked (w : world) : bool :=
  forallb (fun row => truthy (snd row)) (accountsTab w).

Definition unprotected (tabs : list string) : list string :=
  removeFirst "Template" (removeFirst "Settings" (removeFirst "Signals" tabs)).

(** The three effects of the completion of a run, between the state before
    the batch and the state after it; and their absence. *)
Definition finalized (E : env) (url : string) (s s' : state) : Prop :=
  protectedTabs (disk s') = unprotected (protectedTabs (disk s)) /\
  historyTab (disk s') = setLastEnd (historyTab (disk s)) (VNum (getTimestamp E)) /\
  outbox (disk s') = outbox (disk s) ++ notification s url.

Definition notFinalized (s s' : state) : Prop :=
  protectedTabs (disk s') = protectedTabs (disk s) /\
  historyTab (disk s') = historyTab (disk s) /\
  outbox (disk s') = outbox (disk s).

(** The state after [removeProtection] and [markRunAsProcessed]. *)
Definition closedState (E : env) (s : state) : state :=
  {| mem := mem s;
     disk := withHistoryTab
               (setLastEnd (historyTab (disk s)) (VNum (getTimestamp E)))
               (withProtectedTabs (unprotected (protectedTabs (disk s))) (disk s)) |}.

(** ** The run history *)

(** What [hasUnfinishedRun] answers. *)
Definition hasOpenRun (w : world) : bool :=
  match rev (historyTab w) with
  | [] => false
  | (_, lastRunEndDate, _) :: _ => negb (truthy lastRunEndDate)
  end.

(** What [getLastReportStartTimestamp] answers. *)
Definition lastStart (w : world) : val :=
  match rev (historyTab w) with
  | [] => VNull
  | (start, _, _) :: _ => start
  end.

(** A new run is due: there was none, or the frequency has elapsed. *)
Definition runDue (E : env) (w : world) (reportFrequency : val) : bool :=
  negb (truthy (lastStart w))
  || ge (dayDifference (lastStart w) (VNum (getTimestamp E)))
        (toNumber reportFrequency).

(** The part of [startNewReport] before the run is added, and the record
    that [addRun] appends. *)
Definition enumerateAccounts (E : env) : M unit :=
  setProtection ;;;
  clearAllAccountInfo ;;;
  accountLabel <- getSetting "AccountLabel" false ;;
  forEach (if truthy accountLabel
           then mccAccountsWithLabel E accountLabel
           else mccAccounts E) addAccount.

Definition newRun (E : env) : val * val * string :=
  (VNum (getTimestamp E), VStr EmptyString, copyUrl E).

(** The record is open: its end cell is not truthy. *)
Definition isOpen (row : val * val * string) : bool := negb (truthy (snd (fst row))).

Definition openRuns (w : world) : nat := List.length (filter isOpen (historyTab w)).

(** Every record but the last is closed. *)
Definition closedBeforeLast (w : world) : Prop :=
  forallb (fun row => negb (isOpen row)) (removelast (historyTab w)) = true.

Definition startAndUrl (row : val * val * string) : val * string :=
  (fst (fst row), snd row).

(** No run was started between [w] and [w']: the same accounts, the same
    records, the same report sheets. *)
Definition noNewRun (w w' : world) : Prop :=
  map fst (accountsTab w') = map fst (accountsTab w) /\
  map startAndUrl (historyTab w') = map startAndUrl (historyTab w) /\
  map fst (runSheets w') = map fst (runSheets w).

(** The spreadsheet after one invocation per environment. *)
Fixpoint invocations (Es : list env) (w : world) : world :=
  match Es with
  | [] => w
  | E :: Es' => invocations Es' (disk (snd (invoke E w)))
  end.

(** ** Frames *)

(** [respects R m]: running [m] relates every state to the state it ends
    in, whether it returns or throws. *)
Definition respects {A : Type} (R : state -> state -> Prop) (m : M A) : Prop :=
  forall s, R s (snd (m s)).

(** A frame: a relation between states that holds across no step and across
    two steps in a row. *)
Class Frame (R : state -> state -> Prop) : Prop := {
  frame_refl : forall s, R s s;
  frame_trans : forall s1 s2 s3, R s1 s2 -> R s2 s3 -> R s1 s3
}.

Definition unchanged (s s' : state) : Prop := s' = s.

(** The component [f] of the state is kept. *)
Definition keeps {B : Type} (f : state -> B) (s s' : state) : Prop := f s' = f s.

(** The cached run sheet is never forgotten. *)
Definition cacheKept (s s' : state) : Prop :=
  forall url, currentRunSheet (mem s) = Some url ->
              currentRunSheet (mem s') = Some url.

(** ** Example data *)

Definition qc (a : Z) (b : positive) : Qc := Q2Qc (a # b).

(** The signal CTR of the specification, a passthrough signal with a weight,
    and a signal without weight. *)
Definition ctrDefinition : signalDefinition :=
  {| name := "Ctr"; displayName := "CTR"; includeInReport := "Yes";
     type := "Number"; direction := "High"; format := "0.00%";
     weight := qc 2 1; min := qc 1 100; max := qc 10 100 |}.


Definition unweighted : signalDefinition :=
  {| name := "Clicks"; displayName := "Clicks"; includeInReport := "Yes";
     type := "Number"; direction := "High"; format := "0";
     weight := qc 0 1; min := qc 0 1; max := qc 100 1 |}.

Definition ctrInfo : accountInfo :=
  processSignals [ctrDefinition] (Fin (qc 2 1)) "1"
                 (readRow [ctrDefinition] (fun _ => "5%") []).

Definition settingRow (k : string) (v : val) : settingsRow :=
  {| keyCell := k; typeCell := "Number"; valueCell := v;
     background := "#ffffff" |}.

Definition exampleSettings : list settingsRow :=
  [ settingRow "NumAccountsProcess" (VNum (ofZ 2));
    settingRow "ReportFrequency" (VNum (ofZ 1));
    settingRow "ReportPeriod" (VStr "LAST_WEEK");
    settingRow "RecipientEmail" (VStr "owner@example.com") ].

(** A platform with three accounts whose report has one row, 5% in every
    field. *)
Definition exampleEnv : env :=
  {| now := 1700000000000;
     mccAccounts := ["1"; "2"; "3"];
     mccAccountsWithLabel := fun _ => [];
     accountReport := fun _ _ _ => [fun _ => "5%"];
     copyUrl := "run-1" |}.

(** A spreadsheet whose last run is open, with the given catalogue, settings
    and account rows. *)
Definition openRunWorld (catalogue : list signalDefinition)
  (settingRows : list settingsRow) (accounts : list (string * val)) : world :=
  {| signalsTab := catalogue;
     settingsTab := settingRows;
     accountsTab := accounts;
     historyTab := [(VNum (ofZ 1600000000000), VStr EmptyString, "run-0")];
     protectedTabs := ["Template"; "Settings"; "Signals"];
     runSheets := [("run-0", {| headerRow := None; dataRows := [] |})];
     outbox := [] |}.

(** Open runs: no account processed yet; the first of three processed; the
    first of two processed; the only one processed. *)
Definition staleOpenWorld : world :=
  openRunWorld [ctrDefinition] exampleSettings
               [("1", VStr EmptyString); ("2", VStr EmptyString);
                ("3", VStr EmptyString)].

Definition resumedWorld : world :=
  openRunWorld [ctrDefinition] exampleSettings
               [("1", VNum (ofZ 1650000000000)); ("2", VStr EmptyString);
                ("3", VStr EmptyString)].


Definition idleWorld : world :=
  openRunWorld [ctrDefinition] exampleSettings [("1", VNum (ofZ 1650000000000))].

(** An open run whose only signal has the weight 0; an open run with a batch
    size of 0; no run yet and a report frequency of 0. *)
Definition zeroWeightWorld : world :=
  openRunWorld [unweighted] exampleSettings [("1", VStr EmptyString)].

Definition zeroBatchWorld : world :=
  openRunWorld [ctrDefinition]
               [ settingRow "NumAccountsProcess" (VNum (ofZ 0));
                 settingRow "ReportPeriod" (VStr "LAST_WEEK") ]
               [("1", VStr EmptyString)].

Definition zeroFrequencyWorld : world :=
  {| signalsTab := [ctrDefinition];
     settingsTab := [ settingRow "NumAccountsProcess" (VNum (ofZ 2));
                      settingRow "ReportFrequency" (VNum (ofZ 0)) ];
     accountsTab := [];
     historyTab := [];
     protectedTabs := [];
     runSheets := [];
     outbox := [] |}.

(** * Further notions

    Abbreviations and example data of the last part of the development. *)

(** What [normalize] returns for a directed signal on a finite number,
    whatever the range is. *)
Definition clamp (d : signalDefinition) (q : Qc) : Qc :=
  if direction d =? "High" then ramp d q else (1 - ramp d q)%Qc.

Definition directed (d : signalDefinition) : Prop :=
  direction d = "High" \/ direction d = "Low".

(** A Low signal of the report, the cost between 0 and 100; and a signal
    whose range is a single point. *)
Definition costDefinition : signalDefinition :=
  {| name := "Cost"; displayName := "Cost"; includeInReport := "Yes";
     type := "Number"; direction := "Low"; format := "0.00";
     weight := qc 1 1; min := qc 0 1; max := qc 100 1 |}.

Definition pointDefinition : signalDefinition :=
  {| name := "Clicks"; displayName := "Clicks"; includeInReport := "Yes";
     type := "Number"; direction := "High"; format := "0";
     weight := qc 1 1; min := qc 10 1; max := qc 10 1 |}.

(** Every definition that counts for the score is directed, has a weight
    that is not negative and a raw value that is a finite number. *)
Definition wellScored (raw : object val) (defs : list signalDefinition) : Prop :=
  forall d, In d defs -> included d = true ->
    directed d /\ (0 <= weight d)%Qc
    /\ exists q, toNumber (getOr raw (name d)) = Fin q.

(** The definitions that get a column of the report, and the data row of an
    account with the raw signals [raw] and the score [score]. *)
Definition shown (d : signalDefinition) : bool := includeInReport d =? "Yes".

Definition dataRow (defs : list signalDefinition) (raw : object val)
  (score : num) : list val :=
  [VStr EmptyString]
  ++ map (fun d => getOr raw (name d)) (filter shown defs)
  ++ [VNum score].

(** Every signal of the object holds the raw value of its name. *)
Definition holdsRaw (raw : object val) (signals : object Signal.t) : Prop :=
  forall k signal, get signals k = Some signal ->
    Signal.value signal = getOr raw k /\ Signal.displayValue signal = getOr raw k.





(** The name is one of the catalogue. *)
Definition named (defs : list signalDefinition) (k : string) : bool :=
  existsb (String.eqb k) (map name defs).

(** What [getSetting key false] returns; the two colours of a pair of
    settings; a value lies above the threshold of a setting that is set. *)
Definition optional (key : string) (s : state) : val :=
  match findSetting key (settings (mem s)) with
  | Some v => v
  | None => VNull
  end.

Definition colors (fg bg : string) (s : state) : val * val :=
  (optional fg s, optional bg s).

Definition reaches (numericValue : val) (key : string) (s : state) : bool :=
  truthy (optional key s) && gtValue numericValue (optional key s).

(** What [getNumberColors] returns. *)
Definition numberColors (s : state) (numericValue : val) : val * val :=
  if reaches numericValue "Level5MinValue" s then colors "Level5FgColor" "Level5BgColor" s
  else if reaches numericValue "Level4MinValue" s then colors "Level4FgColor" "Level4BgColor" s
  else if reaches numericValue "Level3MinValue" s then colors "Level3FgColor" "Level3BgColor" s
  else if reaches numericValue "Level2MinValue" s then colors "Level2FgColor" "Level2BgColor" s
  else if reaches numericValue "Level1MinValue" s then colors "Level1FgColor" "Level1BgColor" s
  else (VNull, VNull).

(** The five thresholds are the numbers [l1] to [l5]. *)
Definition thresholds (s : state) (l1 l2 l3 l4 l5 : Qc) : Prop :=
  findSetting "Level1MinValue" (settings (mem s)) = Some (VNum (Fin l1)) /\
  findSetting "Level2MinValue" (settings (mem s)) = Some (VNum (Fin l2)) /\
  findSetting "Level3MinValue" (settings (mem s)) = Some (VNum (Fin l3)) /\
  findSetting "Level4MinValue" (settings (mem s)) = Some (VNum (Fin l4)) /\
  findSetting "Level5MinValue" (settings (mem s)) = Some (VNum (Fin l5)).

(** No threshold is set. *)
Definition noThreshold (s : state) : Prop :=
  findSetting "Level1MinValue" (settings (mem s)) = None /\
  findSetting "Level2MinValue" (settings (mem s)) = None /\
  findSetting "Level3MinValue" (settings (mem s)) = None /\
  findSetting "Level4MinValue" (settings (mem s)) = None /\
  findSetting "Level5MinValue" (settings (mem s)) = None.

(** The colours and the number format of the cell of a shown signal. *)
Definition cellColors (s : state) (info : accountInfo) (d : signalDefinition)
  : val * val :=
  match get (signals info) (name d) with
  | Some signal =>
      if type d =? "Number" then
        numberColors s (match Signal.normalizedValue signal with
                        | Some v => v
                        | None => VUndef
                        end)
      else if type d =? "String" then colors "StringFgColor" "StringBgColor" s
      else (VNum (ofZ 2), VUndef)
  | None => (VUndef, VUndef)
  end.

Definition cellFormat (d : signalDefinition) : option string :=
  if type d =? "Number" then Some (format d) else None.

(** An array up to the index [n], its holes written out. *)
Definition pad {A : Type} (a : array A) (n : nat) : array A :=
  a ++ repeat None (n - List.length a).

(** Settings with the thresholds 0.2, 0.4, 0.6, 0.8 and 0.9 and colours for
    the second level. *)
Definition heatSettings : list Setting.t :=
  [ {| Setting.key := "Level1MinValue"; Setting.type := "Number";
       Setting.value := VNum (Fin (qc 2 10)) |};
    {| Setting.key := "Level2MinValue"; Setting.type := "Number";
       Setting.value := VNum (Fin (qc 4 10)) |};
    {| Setting.key := "Level3MinValue"; Setting.type := "Number";
       Setting.value := VNum (Fin (qc 6 10)) |};
    {| Setting.key := "Level4MinValue"; Setting.type := "Number";
       Setting.value := VNum (Fin (qc 8 10)) |};
    {| Setting.key := "Level5MinValue"; Setting.type := "Number";
       Setting.value := VNum (Fin (qc 9 10)) |};
    {| Setting.key := "Level2FgColor"; Setting.type := "Color";
       Setting.value := VStr "#000000" |};
    {| Setting.key := "Level2BgColor"; Setting.type := "Color";
       Setting.value := VStr "#ffcc00" |} ].

Definition heatState : state :=
  {| mem := withSettings heatSettings freshMemory; disk := idleWorld |}.

(** The integer part of a rational, towards zero; the milliseconds of a
    day; the greatest time value of a [Date]. *)
Definition truncate (q : Q) : Z := Z.quot (Qnum q) (Z.pos (Qden q)).

Definition msPerDay : Z := 24 * 3600 * 1000.

Definition maxTime : Z := 8640000000000000.

(** A time value of a [Date]; two of them whose quotient by the length of
    a day is written without an exponent when it is converted to a string,
    as [parseInt] does before it reads it: the same time, or at least
    87 ms apart. *)
Definition timeValue (t : Z) : Prop := (Z.abs t <= maxTime)%Z.

Definition plainQuotient (t1 t2 : Z) : Prop :=
  t1 = t2 \/ (87 <= Z.abs (t2 - t1))%Z.

(** The accounts that [startNewReport] lists, and the spreadsheet that it
    leaves. *)
Definition listedAccounts (E : env) (s : state) : list string :=
  if truthy (optional "AccountLabel" s)
  then mccAccountsWithLabel E (optional "AccountLabel" s)
  else mccAccounts E.

Definition newRunWorld (E : env) (w : world) (accounts : list string) : world :=
  {| signalsTab := signalsTab w;
     settingsTab := settingsTab w;
     accountsTab := map (fun cid => (cid, VStr EmptyString)) accounts;
     historyTab := historyTab w ++ [newRun E];
     protectedTabs := "Template" :: "Settings" :: "Signals" :: protectedTabs w;
     runSheets := (copyUrl E, {| headerRow := None; dataRows := [] |}) :: runSheets w;
     outbox := outbox w |}.


(** The spreadsheet without the report sheets. *)
Definition ledger (w : world)
  : list signalDefinition * list settingsRow * list (string * val)
    * list (val * val * string) * list string * list email :=
  (signalsTab w, settingsTab w, accountsTab w, historyTab w, protectedTabs w,
   outbox w).

(** The account was scored against the catalogue [defs]; the row that
    [writeDataRow] appends for it. *)
Definition scoredWith (defs : list signalDefinition) (info : accountInfo) : Prop :=
  exists sw a raw, info = processSignals defs sw a raw.

Definition rowOf (defs : list signalDefinition) (info : accountInfo) : list val :=
  dataRow defs (rawSignals info) (score info).

(** The report of a run in a state. *)
Definition reportAt (url : string) (s : state) : option reportSheet :=
  get (runSheets (disk s)) url.

(** The account as [processAccount] scores it in the state [s], and the
    state after the accounts of [iterator] were processed one by one. *)
Definition infoOf (E : env) (period : val) (s : state) (a : string) : accountInfo :=
  processSignals (signalDefinitions (mem s)) (sumWeights (mem s)) a
                 (rawSignalsOf E a period s).

Definition processAll (E : env) (period : val) (iterator : list string)
  (s : state) : state :=
  fold_left (fun s a => processedState E a period s) iterator s.

(** The accounts that a batch processes: the selected ones that the manager
    account lists. *)
Definition batchOf (E : env) (s : state) : list string :=
  withIds E (selection s).

(** An open run whose batch size is a word. *)
Definition wordBatchWorld : world :=
  openRunWorld [ctrDefinition]
               [ settingRow "NumAccountsProcess" (VStr "ten");
                 settingRow "ReportPeriod" (VStr "LAST_WEEK") ]
               [("1", VStr EmptyString)].

(** An invocation that has opened the report of the run and scored the first
    account. *)
Definition scoredOnce : state :=
  cached "run-0"
    (scoredState exampleEnv "1" (VStr "LAST_WEEK") (started staleOpenWorld)).

(** A row of the Settings tab for a colour: the cell has no text, its
    background is the value. *)
Definition colourRow (k : string) (colour : string) : settingsRow :=
  {| keyCell := k; typeCell := "Color"; valueCell := VStr EmptyString;
     background := colour |}.

(** A signal that is shown as a text. *)
Definition nameDefinition : signalDefinition :=
  {| name := "AccountDescriptiveName"; displayName := "Account";
     includeInReport := "Yes"; type := "String"; direction := "None";
     format := EmptyString; weight := qc 5 1; min := qc 0 1; max := qc 0 1 |}.

(** The accounts that are left in a run: the customer ids of the rows with
    an empty timestamp cell, in the order of the Accounts tab; and the
    accounts that the invocations of a list scored, one after the other. *)
Definition remaining (w : world) : list string :=
  map fst (filter unprocessedRow (accountsTab w)).

Fixpoint runScored (Es : list env) (w : world) : list string :=
  match Es with
  | [] => []
  | E :: Es' => scored (snd (invoke E w)) ++ runScored Es' (disk (snd (invoke E w)))
  end.

(** The name is none of the list. *)
Definition outside (l : list string) (c : string) : bool :=
  negb (existsb (String.eqb c) l).

(** A spreadsheet on which the batches of a run can work, with the batch
    size [limit], the period [period] and the report [url] of the run: the
    run is open, its report can be opened, no account has two rows, and the
    timestamp cells hold a text or a number. *)
Definition ready (limit period : val) (url : string) (w : world) : Prop :=
  hasOpenRun w = true /\
  (exists sheet, openSheet w = Some (url, sheet)) /\
  findSetting "NumAccountsProcess" (settings (mem (started w))) = Some limit /\
  findSetting "ReportPeriod" (settings (mem (started w))) = Some period /\
  NoDup (map fst (accountsTab w)) /\
  (forall row, In row (accountsTab w) -> unprocessedRow row = false ->
               truthy (snd row) = true).

(** A platform whose manager account lists each account once, among them
    the accounts [left], and whose clock does not read 0. *)
Definition fit (left : list string) (E : env) : Prop :=
  NoDup (mccAccounts E) /\ now E <> 0%Z /\
  (forall c, In c left -> In c (mccAccounts E)).

(** * Verification *)

(** ** Numbers *)

Module NumFacts.

Import JS.
Local Open Scope Qc_scope.

Lemma Qc_ltb_lt (x y : Qc) : Qc_ltb x y = true <-> x < y.
Proof.
  unfold Qc_ltb. rewrite Qclt_alt.
  destruct (x ?= y); split; congruence.
Qed.

Lemma Qc_eqb_eq (x y : Qc) : Qc_eqb x y = true <-> x = y.
Proof.
  unfold Qc_eqb. rewrite Qceq_alt.
  destruct (x ?= y); split; congruence.
Qed.

Lemma Qc_eqb_refl (x : Qc) : Qc_eqb x x = true.
Proof. now apply Qc_eqb_eq. Qed.

Lemma Qc_leb_le (x y : Qc) : Qc_leb x y = true <-> x <= y.
Proof.
  unfold Qc_leb. rewrite Qcle_alt. destruct (x ?= y); split; congruence.
Qed.

Lemma Qc_leb_gt (x y : Qc) : Qc_leb x y = false <-> y < x.
Proof.
  split; intros H.
  - apply Qcnot_le_lt. intros Hle. apply Qc_leb_le in Hle. congruence.
  - destruct (Qc_leb x y) eqn:E; [|reflexivity].
    apply Qc_leb_le in E. now apply Qclt_not_le in H.
Qed.

Lemma le_Fin (x y : Qc) : le (Fin x) (Fin y) = true <-> x <= y.
Proof.
  unfold le; simpl. rewrite orb_true_iff, Qc_ltb_lt, Qc_eqb_eq. split.
  - intros [H | ->]; [now apply Qclt_le_weak | apply Qcle_refl].
  - intros H. destruct (Qcle_lt_or_eq _ _ H); auto.
Qed.

Lemma le_Fin_false (x y : Qc) : le (Fin x) (Fin y) = false <-> y < x.
Proof.
  split.
  - intros H. apply Qcnot_le_lt. intros Hle. apply le_Fin in Hle. congruence.
  - intros H. destruct (le (Fin x) (Fin y)) eqn:E; [|reflexivity].
    apply le_Fin in E. now apply Qclt_not_le in H.
Qed.

Lemma ge_Fin (x y : Qc) : ge (Fin x) (Fin y) = true <-> y <= x.
Proof. unfold ge. apply le_Fin. Qed.

Lemma ge_Fin_false (x y : Qc) : ge (Fin x) (Fin y) = false <-> x < y.
Proof. unfold ge. apply le_Fin_false. Qed.

Lemma lt_minus_pos (x y : Qc) : x < y -> 0 < y - x.
Proof. intros H. now apply Qclt_minus_iff in H. Qed.

Lemma pos_neq_0 (z : Qc) : 0 < z -> z <> 0.
Proof. intros H E. rewrite E in H. now apply (Qclt_not_eq _ _ H). Qed.

Lemma div_mul_cancel (a b : Qc) : b <> 0 -> (a / b) * b = a.
Proof. intros H. rewrite Qcmult_comm. now apply Qcmult_div_r. Qed.


Lemma Qcdiv_unit_interval (a b : Qc) :
  0 < b -> 0 <= a -> a <= b -> 0 <= a / b <= 1.
Proof.
  intros Hb H0 H1. split.
  - apply (Qcmult_lt_0_le_reg_r _ _ b Hb).
    rewrite div_mul_cancel by now apply pos_neq_0.
    now rewrite Qcmult_0_l.
  - apply (Qcmult_lt_0_le_reg_r _ _ b Hb).
    rewrite div_mul_cancel by now apply pos_neq_0.
    now rewrite Qcmult_1_l.
Qed.

Lemma div_Fin (a b : Qc) : b <> 0 -> div (Fin a) (Fin b) = Fin (a / b).
Proof.
  intros H. simpl. destruct (Qc_eqb b 0) eqn:E; [|reflexivity].
  apply Qc_eqb_eq in E. contradiction.
Qed.

Lemma sub_Fin (a b : Qc) : sub (Fin a) (Fin b) = Fin (a - b).
Proof. reflexivity. Qed.

Lemma add_comm (x y : num) : add x y = add y x.
Proof.
  destruct x, y; simpl; try reflexivity. now rewrite Qcplus_comm.
Qed.

Lemma add_assoc (x y z : num) : add x (add y z) = add (add x y) z.
Proof.
  destruct x, y, z; simpl; try reflexivity. now rewrite Qcplus_assoc.
Qed.

Lemma add_0_r (x : num) : add x (ofZ 0) = x.
Proof.
  destruct x; simpl; try reflexivity.
  change (Q2Qc (inject_Z 0)) with 0. now rewrite Qcplus_0_r.
Qed.


End NumFacts.

(** ** Normalisation of a signal *)

Import JS Value Kratu NumFacts.
Local Open Scope string_scope.
Local Open Scope list_scope.

Section NormalizeHigh.

Local Open Scope Qc_scope.

Variable d : signalDefinition.
Hypothesis direction_High : direction d = "High".
Hypothesis range : min d < max d.





Lemma ramp_unit_interval (q : Qc) : 0 <= ramp d q <= 1.
Proof.
  unfold ramp. destruct (Qc_leb (max d) q) eqn:Ehi.
  - split; [discriminate | apply Qcle_refl].
  - destruct (Qc_leb q (min d)) eqn:Elo.
    + split; [apply Qcle_refl | discriminate].
    + apply Qc_leb_gt in Ehi, Elo. apply Qcdiv_unit_interval.
      * apply lt_minus_pos, range.
      * apply Qclt_le_weak, lt_minus_pos, Elo.
      * apply Qcplus_le_compat; [now apply Qclt_le_weak | apply Qcle_refl].
Qed.



End NormalizeHigh.


(** ** Scoring of an account *)

(** Equality of computed data up to the canonical form of the fractions
    inside. *)
Ltac qc_eq :=
  lazymatch goal with
  | |- @eq Qc _ _ => apply Qc_is_canon; vm_compute; reflexivity
  | |- @eq num (Fin _) (Fin _) => apply (f_equal Fin); qc_eq
  | |- @eq val (VNum _) (VNum _) => apply (f_equal VNum); qc_eq
  | |- @eq (option _) (Some _) (Some _) => apply (f_equal Some); qc_eq
  | |- @eq (result _) (Ok _) (Ok _) => apply (f_equal (@Ok _)); qc_eq
  | |- @eq (list _) (_ :: _) (_ :: _) => apply f_equal2; qc_eq
  | |- @eq (_ * _) (_, _) (_, _) => apply f_equal2; qc_eq
  | |- _ => reflexivity
  end.
Ltac fin_eq := vm_compute; qc_eq.

Lemma fold_add_from (l : list num) (a : num) :
  fold_left add l a = add a (sumList l).
Proof.
  unfold sumList. revert a. induction l as [|x l IH]; intros a; cbn [fold_left].
  - now rewrite add_0_r.
  - rewrite IH, (IH (add (ofZ 0) x)), add_assoc.
    f_equal. now rewrite (add_comm (ofZ 0) x), add_0_r.
Qed.

Lemma sumList_cons (x : num) (l : list num) : sumList (x :: l) = add x (sumList l).
Proof.
  unfold sumList at 1. cbn [fold_left]. rewrite fold_add_from.
  now rewrite (add_comm (ofZ 0) x), add_0_r.
Qed.

Lemma sumList_insert (l1 l2 : list num) (x : num) :
  sumList (l1 ++ x :: l2) = add (sumList (l1 ++ l2)) x.
Proof.
  induction l1 as [|y l1 IH]; simpl.
  - rewrite sumList_cons. apply add_comm.
  - now rewrite !sumList_cons, IH, add_assoc.
Qed.

Lemma processSignalsFrom_sum (defs : list signalDefinition) (raw : object val)
  (sg : object Signal.t) (sum : num) :
  snd (processSignalsFrom defs raw sg sum)
  = fold_left add (map (contribution raw) defs) sum.
Proof.
  revert sg sum. induction defs as [|d defs IH]; intros sg sum; [reflexivity|].
  simpl. unfold contribution at 2, included.
  destruct (includeInReport d =? "Yes"); simpl.
  - destruct (type d =? "Number"); rewrite IH; [reflexivity|].
    now rewrite add_0_r.
  - now rewrite IH, add_0_r.
Qed.

Lemma scoreSum_processSignals defs sw a raw :
  scoreSum (processSignals defs sw a raw) = sumList (map (contribution raw) defs).
Proof.
  unfold processSignals.
  pose proof (processSignalsFrom_sum defs raw [] (ofZ 0)) as H.
  destruct (processSignalsFrom defs raw [] (ofZ 0)); simpl in *. exact H.
Qed.

Lemma score_processSignals defs sw a raw :
  score (processSignals defs sw a raw)
  = div (scoreSum (processSignals defs sw a raw)) sw
  /\ scoreWeights (processSignals defs sw a raw) = sw.
Proof.
  unfold processSignals.
  destruct (processSignalsFrom defs raw [] (ofZ 0)); simpl. now split.
Qed.

Lemma calculateSumWeightsFrom_sum (defs : list signalDefinition) (sum : num) :
  calculateSumWeightsFrom defs sum = fold_left add (map weightShare defs) sum.
Proof.
  revert sum. induction defs as [|d defs IH]; intros sum; [reflexivity|].
  simpl. unfold weightShare at 2, included.
  rewrite (andb_comm (type d =? "Number")).
  destruct ((includeInReport d =? "Yes") && (type d =? "Number"));
    rewrite IH; [reflexivity | now rewrite add_0_r].
Qed.


Section DirectionNone.

Variable d : signalDefinition.
Hypothesis is_included : includeInReport d = "Yes".
Hypothesis is_Number : type d = "Number".
Hypothesis direction_None : direction d = "None".



End DirectionNone.



(** ** The percent example *)

Lemma rawSignalOf_percent (value : string) :
  contains "%" value = true ->
  rawSignalOf value = VNum (div (parseFloat value) (ofZ 100)).
Proof. intros H. unfold rawSignalOf. now rewrite H. Qed.

(** C7. A raw value with a percent marker is stored divided by 100; for the
    signal CTR (High, min 0.01, max 0.10, weight 2) the raw value 5% is
    stored as 0.05, normalised to 4/9 and contributes 8/9, also when it is
    read from the report of an account. *)
Theorem percent_value_is_divided_by_100 :
  (forall value, contains "%" value = true ->
     rawSignalOf value = VNum (div (parseFloat value) (ofZ 100))) /\
  rawSignalOf "5%" = VNum (Fin (qc 5 100)) /\
  normalize ctrDefinition (rawSignalOf "5%") = VNum (Fin (qc 4 9)) /\
  option_map Signal.value (get (signals ctrInfo) "Ctr")
  = Some (VNum (Fin (qc 5 100))) /\
  option_map Signal.normalizedValue (get (signals ctrInfo) "Ctr")
  = Some (Some (VNum (Fin (qc 4 9)))) /\
  option_map Signal.signalScore (get (signals ctrInfo) "Ctr")
  = Some (Some (Fin (qc 8 9))) /\
  scoreSum ctrInfo = Fin (qc 8 9) /\
  fst (calculateRawSignals exampleEnv "1"
         (started (openRunWorld [ctrDefinition] exampleSettings [])))
  = Ok [("Ctr", VNum (Fin (qc 5 100)))].
Proof.
  split; [exact rawSignalOf_percent|].
  repeat split; fin_eq.
Qed.

Lemma percent_value_is_divided_by_100_witness :
  rawSignalOf "12.5%" = VNum (div (parseFloat "12.5%") (ofZ 100)).
Proof.
  apply (proj1 percent_value_is_divided_by_100). reflexivity.
Defined.

(** ** A catalogue whose weights sum to zero *)

Lemma div_by_zero_not_finite (x : num) (q : Qc) : div x (ofZ 0) <> Fin q.
Proof.
  destruct x as [a| | |]; try discriminate.
  unfold ofZ, div. rewrite Qc_eqb_refl.
  destruct (a ?= Q2Qc 0)%Qc; discriminate.
Qed.

Lemma readSignalDefinitions_run (s : state) :
  readSignalDefinitions s
  = (Ok tt,
     {| mem := withSumWeights
                 (calculateSumWeightsFrom
                    (filter (fun row => negb (name row =? EmptyString))
                            (signalsTab (disk s))) (ofZ 0))
                 (withSignalDefinitions
                    (filter (fun row => negb (name row =? EmptyString))
                            (signalsTab (disk s))) (mem s));
        disk := disk s |}).
Proof. reflexivity. Qed.

(** C2, as the code has it. When the weights of the included Number
    definitions sum to zero, loading the catalogue raises nothing and stores
    0 as sumWeights; every account is then scored with scoreWeights = 0 and
    its score is the quotient scoreSum / 0, which is NaN or an infinity. *)
Theorem zero_weights_are_not_rejected (s : state) :
  calculateSumWeightsFrom
    (filter (fun row => negb (name row =? EmptyString)) (signalsTab (disk s)))
    (ofZ 0) = ofZ 0 ->
  (exists s', readSignalDefinitions s = (Ok tt, s')
              /\ sumWeights (mem s') = ofZ 0
              /\ disk s' = disk s) /\
  (forall defs a raw,
     scoreWeights (processSignals defs (ofZ 0) a raw) = ofZ 0 /\
     score (processSignals defs (ofZ 0) a raw)
     = div (scoreSum (processSignals defs (ofZ 0) a raw)) (ofZ 0) /\
     forall q, score (processSignals defs (ofZ 0) a raw) <> Fin q).
Proof.
  intros H. split.
  - eexists. rewrite readSignalDefinitions_run. split; [reflexivity|].
    split; [exact H | reflexivity].
  - intros defs a raw.
    destruct (score_processSignals defs (ofZ 0) a raw) as [Hs Hw].
    split; [exact Hw|]. split; [exact Hs|].
    intros q. rewrite Hs. apply div_by_zero_not_finite.
Qed.

Lemma zero_weights_are_not_rejected_witness :
  exists s', readSignalDefinitions {| mem := freshMemory; disk := zeroWeightWorld |}
             = (Ok tt, s')
             /\ sumWeights (mem s') = ofZ 0
             /\ disk s' = zeroWeightWorld.
Proof.
  apply (@zero_weights_are_not_rejected
           {| mem := freshMemory; disk := zeroWeightWorld |}).
  fin_eq.
Defined.

(** C2 fails as stated: with a single included Number signal of weight 0 the
    catalogue is loaded without error, the invocation scores the account
    with scoreWeights = 0 and writes the score NaN to the report. *)
Lemma zero_weights_scored_with_NaN :
  calculateSumWeightsFrom (signalsTab zeroWeightWorld) (ofZ 0) = ofZ 0 /\
  fst (readSignalDefinitions {| mem := freshMemory; disk := zeroWeightWorld |})
  = Ok tt /\
  fst (invoke exampleEnv zeroWeightWorld) = Ok tt /\
  map (fun info => (account info, score info))
      (accountInfos (mem (snd (invoke exampleEnv zeroWeightWorld))))
  = [("1", NaN)] /\
  map (fun info => scoreWeights info)
      (accountInfos (mem (snd (invoke exampleEnv zeroWeightWorld))))
  = [ofZ 0] /\
  option_map (fun sheet => map (fun row => last row VUndef) (dataRows sheet))
             (get (runSheets (disk (snd (invoke exampleEnv zeroWeightWorld))))
                  "run-0")
  = Some [VNum NaN].
Proof.
  repeat split; fin_eq.
Qed.

(** ** Settings *)

Lemma readSettingsRows_cons (r : settingsRow) (rows : list settingsRow)
  (acc : list Setting.t) :
  readSettingsRows (r :: rows) acc
  = if kept r then readSettingsRows rows (acc ++ [settingOfRow r])
    else readSettingsRows rows acc.
Proof.
  change (readSettingsRows (r :: rows) acc)
    with (if negb (truthy (VStr (keyCell r)))
             || negb (truthy (Setting.value (settingOfRow r)))
          then readSettingsRows rows acc
          else readSettingsRows rows (acc ++ [settingOfRow r])).
  rewrite <- negb_andb. fold (kept r). now destruct (kept r).
Qed.

Lemma readSettingsRows_kept (rows : list settingsRow) (acc : list Setting.t) :
  readSettingsRows rows acc = acc ++ map settingOfRow (filter kept rows).
Proof.
  revert acc. induction rows as [|r rows IH]; intros acc.
  - simpl. now rewrite app_nil_r.
  - rewrite readSettingsRows_cons. cbn [filter].
    destruct (kept r); rewrite IH; [|reflexivity].
    cbn [map]. now rewrite <- app_assoc.
Qed.

Lemma findSetting_find (key : string) (l : list Setting.t) :
  findSetting key l = option_map Setting.value (find (matches key) l).
Proof.
  induction l as [|st l IH]; [reflexivity|].
  simpl. fold (matches key st). now destruct (matches key st).
Qed.

Lemma findSetting_all_falsy (key : string) (rows : list settingsRow) :
  (forall r, In r rows -> keyCell r = key ->
             truthy (Setting.value (settingOfRow r)) = false) ->
  findSetting key (map settingOfRow (filter kept rows)) = None.
Proof.
  induction rows as [|r rows IH]; intros H; [reflexivity|].
  simpl. destruct (kept r) eqn:K.
  - simpl. destruct (keyCell r =? key) eqn:E.
    + apply String.eqb_eq in E. unfold kept in K.
      rewrite (H r (or_introl eq_refl) E), andb_false_r in K. discriminate.
    + simpl. apply IH. intros r' Hin. apply H. now right.
  - apply IH. intros r' Hin. apply H. now right.
Qed.

Lemma init_run (s : state) : init s = (Ok tt, initState s).
Proof. reflexivity. Qed.

Lemma hasUnfinishedRun_run (s : state) :
  hasUnfinishedRun s = (Ok (hasOpenRun (disk s)), s).
Proof.
  unfold hasUnfinishedRun, hasOpenRun, bind, readDisk.
  destruct (rev (historyTab (disk s))) as [|[[? e] ?] ?]; [reflexivity|].
  now destruct (truthy e).
Qed.

Lemma getSetting_run (key : string) (mandatory : bool) (s : state) :
  getSetting key mandatory s
  = match findSetting key (settings (mem s)) with
    | Some v => (Ok v, s)
    | None => if mandatory then (Throw (notSet key), s) else (Ok VNull, s)
    end.
Proof.
  unfold getSetting, bind, readMem.
  destruct (findSetting key (settings (mem s))); [reflexivity|].
  now destruct mandatory.
Qed.

(** C9. A setting whose value is falsy is dropped by [readSettings], so the
    stored settings are those of the tab without it; [getSetting] returns
    the value of the first stored setting with the key and a truthy value,
    [null] when there is none and the setting is optional, and throws when
    it is mandatory; an invocation with no open run whose ReportFrequency
    rows all hold a falsy value (such as 0) is aborted by that exception. *)
Theorem falsy_setting_is_absent :
  (forall s,
     readSettings s
     = (Ok tt,
        {| mem := withSettings
                    (settings (mem s)
                     ++ map settingOfRow (filter kept (settingsTab (disk s))))
                    (mem s);
           disk := disk s |})) /\
  (forall rows1 r rows2 acc,
     truthy (Setting.value (settingOfRow r)) = false ->
     readSettingsRows (rows1 ++ r :: rows2) acc
     = readSettingsRows (rows1 ++ rows2) acc) /\
  (forall key mandatory s,
     getSetting key mandatory s
     = match find (matches key) (settings (mem s)) with
       | Some setting => (Ok (Setting.value setting), s)
       | None => if mandatory then (Throw (notSet key), s) else (Ok VNull, s)
       end) /\
  (forall key w,
     (forall r, In r (settingsTab w) -> keyCell r = key ->
                truthy (Setting.value (settingOfRow r)) = false) ->
     fst (bind init (fun _ => getSetting key true)
               {| mem := freshMemory; disk := w |})
     = Throw (notSet key)) /\
  (forall E w,
     hasOpenRun w = false ->
     (forall r, In r (settingsTab w) -> keyCell r = "ReportFrequency" ->
                truthy (Setting.value (settingOfRow r)) = false) ->
     invoke E w = (Throw (notSet "ReportFrequency"),
                   initState {| mem := freshMemory; disk := w |})).
Proof.
  split; [|split; [|split; [|split]]].
  - intros s. unfold readSettings, bind, readDisk, updMem.
    now rewrite readSettingsRows_kept.
  - intros rows1 r rows2 acc H. rewrite !readSettingsRows_kept, !filter_app.
    simpl. unfold kept at 2. now rewrite H, andb_false_r.
  - intros key mandatory s. rewrite getSetting_run, findSetting_find.
    now destruct (find (matches key) (settings (mem s))).
  - intros key w H. unfold bind. rewrite init_run, getSetting_run.
    simpl. rewrite readSettingsRows_kept. simpl.
    now rewrite (@findSetting_all_falsy _ _ H).
  - intros E w Hopen H. unfold invoke, main, bind.
    rewrite init_run, hasUnfinishedRun_run.
    change (disk (initState {| mem := freshMemory; disk := w |})) with w.
    rewrite Hopen, getSetting_run. simpl. rewrite readSettingsRows_kept. simpl.
    now rewrite (@findSetting_all_falsy _ _ H).
Qed.

Lemma falsy_setting_is_absent_witness :
  fst (invoke exampleEnv zeroFrequencyWorld)
  = Throw "Setting 'ReportFrequency' is not set!".
Proof.
  destruct falsy_setting_is_absent as (_ & _ & _ & _ & H).
  rewrite (H exampleEnv zeroFrequencyWorld); [reflexivity | reflexivity |].
  intros r [<- | [<- | []]]; [discriminate | reflexivity].
Defined.

(** ** The campaign alert *)

Module AlertFacts.

Import CampaignAlert.
Local Open Scope nat_scope.






End AlertFacts.

(** ** Frames: what an operation leaves as it is *)

Local Open Scope js_scope.

#[local] Instance unchanged_Frame : Frame unchanged.
Proof. split; unfold unchanged; intros; congruence. Qed.

Section FrameRules.

Variable R : state -> state -> Prop.
Context {FR : Frame R}.

Lemma respects_ret {A : Type} (a : A) : respects R (ret a).
Proof. intros s. apply frame_refl. Qed.

Lemma respects_throw {A : Type} (message : string) :
  respects R (@throw A message).
Proof. intros s. apply frame_refl. Qed.

Lemma respects_bind {A B : Type} (m : M A) (k : A -> M B) :
  respects R m -> (forall a, respects R (k a)) -> respects R (bind m k).
Proof.
  intros Hm Hk s. unfold bind. specialize (Hm s).
  destruct (m s) as [[a|message] s1]; simpl in *; [|exact Hm].
  eapply frame_trans; [exact Hm | apply Hk].
Qed.

Lemma respects_pure {A : Type} (m : M A) : respects unchanged m -> respects R m.
Proof. intros H s. rewrite (H s). apply frame_refl. Qed.

Lemma respects_forEach {A : Type} (xs : list A) (body : A -> M unit) :
  (forall x, respects R (body x)) -> respects R (forEach xs body).
Proof.
  intros H. induction xs as [|x xs IH]; simpl.
  - apply respects_ret.
  - apply respects_bind; auto.
Qed.

End FrameRules.

(** Applies a frame rule and finds the [Frame] instance it needs. *)
Ltac rule l := apply l; try exact _.

(** A frame proof follows the control structure of the operation; [leaf]
    settles what is left: state updates and calls of other operations. *)
Ltac frame_with leaf :=
  repeat lazymatch goal with
    | |- respects _ (bind _ _) => rule respects_bind; [|intros ?]
    | |- respects _ (ret _) => rule respects_ret
    | |- respects _ (throw _) => rule respects_throw
    | |- respects _ (forEach _ _) => rule respects_forEach; intros ?
    | |- respects _ (readMem _) => intros ?; apply frame_refl
    | |- respects _ (readDisk _) => intros ?; apply frame_refl
    | |- respects _ (if ?b then _ else _) => destruct b
    | |- respects _ (match ?x with _ => _ end) => destruct x
    | |- respects _ (updMem _) => intros ?; leaf
    | |- respects _ (updDisk _) => intros ?; leaf
    | |- respects _ (let _ := _ in _) => cbv zeta
    | |- _ => leaf
    end.

(** *** Operations that only read *)

Lemma getSetting_pure key mandatory : respects unchanged (getSetting key mandatory).
Proof. intros s. rewrite getSetting_run. now destruct findSetting, mandatory. Qed.

Lemma hasUnfinishedRun_pure : respects unchanged hasUnfinishedRun.
Proof. intros s. now rewrite hasUnfinishedRun_run. Qed.

Lemma getLastReportStartTimestamp_pure : respects unchanged getLastReportStartTimestamp.
Proof. unfold getLastReportStartTimestamp. frame_with fail. Qed.

Lemma allAccountsProcessed_pure : respects unchanged allAccountsProcessed.
Proof. unfold allAccountsProcessed. frame_with fail. Qed.

Lemma getUnprocessedAccountsFrom_pure rows accounts :
  respects unchanged (getUnprocessedAccountsFrom rows accounts).
Proof.
  revert accounts. induction rows as [|[cid processed] rows IH]; intros accounts.
  - rule respects_ret.
  - cbn [getUnprocessedAccountsFrom].
    destruct (negb (looseEqString processed EmptyString)); [apply IH|].
    rule respects_bind; [apply getSetting_pure|]. intros limit.
    destruct (ge _ _); apply IH.
Qed.

Lemma getUnprocessedAccountIterator_pure E :
  respects unchanged (getUnprocessedAccountIterator E).
Proof.
  unfold getUnprocessedAccountIterator, getUnprocessedAccounts.
  frame_with ltac:(apply getUnprocessedAccountsFrom_pure).
Qed.

Lemma calculateRawSignals_pure E a : respects unchanged (calculateRawSignals E a).
Proof.
  unfold calculateRawSignals, getSignalDefinitions.
  frame_with ltac:(apply getSetting_pure).
Qed.

Lemma displayValues_pure defs info : respects unchanged (displayValues defs info).
Proof.
  induction defs as [|d defs IH]; cbn [displayValues].
  - rule respects_ret.
  - frame_with ltac:(exact IH).
Qed.

Create HintDb pure_ops.
#[local] Hint Resolve getSetting_pure hasUnfinishedRun_pure
  getLastReportStartTimestamp_pure allAccountsProcessed_pure
  getUnprocessedAccountsFrom_pure getUnprocessedAccountIterator_pure
  calculateRawSignals_pure displayValues_pure : pure_ops.

Create HintDb ops.
#[local] Hint Unfold setProtection setSheetProtection removeProtection
  removeSheetProtection calculateSumWeights readSignalDefinitions
  getSignalDefinitions getSumWeights addRun markRunAsProcessed
  addAccount clearAllAccountInfo
  updateSheet writeHeaderRow writeDataRow signalManager_processAccount
  getAccountInfos processAccount writeAccountDataToSpreadsheet sendEmail
  readSettings init : ops.

Lemma getCurrentRunSheet_run s :
  getCurrentRunSheet s
  = match currentSheetUrl s with
    | Some url => (Ok url, cached url s)
    | None => (Throw "Invalid argument: url", s)
    end.
Proof.
  unfold getCurrentRunSheet, currentSheetUrl, cached, bind, readMem, readDisk.
  destruct s as [m d]. destruct m as [i c p sd sw st].
  cbv -[rev get historyTab runSheets].
  destruct c as [sheet|]; [reflexivity|].
  destruct (rev (historyTab d)) as [|[[? ?] url] ?]; [reflexivity|].
  destruct (get (runSheets d) url); reflexivity.
Qed.

(** *** Frames that keep a component of the state *)

#[local] Instance keeps_Frame {B : Type} (f : state -> B) : Frame (keeps f).
Proof. split; unfold keeps; intros; congruence. Qed.

Lemma getCurrentRunSheet_keeps {B : Type} (f : state -> B) :
  (forall url s, f (cached url s) = f s) ->
  respects (keeps f) getCurrentRunSheet.
Proof.
  intros H s. rewrite getCurrentRunSheet_run. unfold keeps.
  destruct (currentSheetUrl s); [apply H | reflexivity].
Qed.

Lemma map_fst_markRows E cid rows : map fst (markRows E cid rows) = map fst rows.
Proof.
  unfold markRows. rewrite map_map. apply map_ext.
  intros row. now destruct (cid =? fst row).
Qed.

Lemma map_startAndUrl_setLastEnd history v :
  map startAndUrl (setLastEnd history v) = map startAndUrl history.
Proof.
  induction history as [|[[a b] c] history IH]; [reflexivity|].
  destruct history as [|row history]; [reflexivity|].
  change (setLastEnd ((a, b, c) :: row :: history) v)
    with ((a, b, c) :: setLastEnd (row :: history) v).
  cbn [map]. now rewrite IH.
Qed.

Lemma map_fst_set {A : Type} (o : object A) k (a a' : A) :
  get o k = Some a' -> map fst (set o k a) = map fst o.
Proof.
  induction o as [|[k' x] o IH]; simpl; [discriminate|].
  destruct (k' =? k) eqn:E; simpl.
  - intros _. apply String.eqb_eq in E. now subst.
  - intros H. now rewrite IH.
Qed.

Create Rewrite HintDb frames.
#[local] Hint Rewrite map_fst_markRows map_startAndUrl_setLastEnd : frames.

(** The leaf of a frame proof for [keeps f]: a pure operation, an operation
    to unfold, or a state update that does not touch [f]. *)
Ltac keeps_leaf :=
  first [ rule respects_pure; solve [auto with pure_ops]
        | apply getCurrentRunSheet_keeps; intros; reflexivity
        | progress autounfold with ops
        | unfold keeps; cbn;
          repeat match goal with
                 | |- context [match ?x with _ => _ end] => destruct x eqn:?
                 end;
          cbn; autorewrite with frames; solve [eauto using map_fst_set] ].

Ltac frame := frame_with keeps_leaf.

Lemma continueUnfinishedReport_split E s :
  continueUnfinishedReport E s = bind (scoreBatch E) (finishRun E) s.
Proof.
  unfold continueUnfinishedReport, scoreBatch, finishRun, bind.
  destruct (getCurrentRunSheet s) as [[?|?] s1]; [|reflexivity].
  destruct (getUnprocessedAccountIterator E s1) as [[it|?] s2]; [|reflexivity].
  destruct (batchLoop E it 0 s2) as [[p|?] s3]; [|reflexivity].
  destruct (writeAccountDataToSpreadsheet s3) as [[?|?] s4]; reflexivity.
Qed.

Lemma markAccountAsProcessed_run E cid s :
  markAccountAsProcessed E cid s = (Ok tt, markedState E cid s).
Proof. reflexivity. Qed.

Section BatchFrames.

Variable E : env.
Variable B : Type.
Variable f : state -> B.

(** [f] does not look at the scored accounts, nor at the timestamps and
    the counter of the marked rows. *)
Hypothesis f_infos : forall x s,
  f {| mem := withAccountInfos x (mem s); disk := disk s |} = f s.
Hypothesis f_marked : forall cid s, f (markedState E cid s) = f s.

Lemma processAccount_keeps a : respects (keeps f) (processAccount E a).
Proof.
  unfold processAccount, signalManager_processAccount,
    getSignalDefinitions, getSumWeights.
  frame_with ltac:(first [ rule respects_pure; solve [auto with pure_ops]
                         | unfold keeps; cbn; apply f_infos
                         | intros ?; rewrite markAccountAsProcessed_run;
                           apply f_marked ]).
Qed.

Lemma batchLoop_keeps iterator processed :
  respects (keeps f) (batchLoop E iterator processed).
Proof.
  revert processed. induction iterator as [|a iterator IH]; intros processed.
  - rule respects_ret.
  - cbn [batchLoop].
    frame_with ltac:(first [ rule respects_pure; solve [auto with pure_ops]
                           | apply processAccount_keeps | apply IH ]).
Qed.

End BatchFrames.

Ltac batch_frame :=
  frame_with ltac:(first [ apply batchLoop_keeps; intros; unfold markedState; cbn;
                           autorewrite with frames; reflexivity
                         | keeps_leaf ]).

Lemma scoreBatch_keeps_history E :
  respects (keeps (fun s => historyTab (disk s))) (scoreBatch E).
Proof. unfold scoreBatch. batch_frame. Qed.




Lemma scoreBatch_keeps_cids E :
  respects (keeps (fun s => map fst (accountsTab (disk s)))) (scoreBatch E).
Proof. unfold scoreBatch. batch_frame. Qed.

(** ** What the operations of a batch compute *)

Lemma getUnprocessedAccountsFrom_run rows accounts s :
  getUnprocessedAccountsFrom rows accounts s
  = match findSetting "NumAccountsProcess" (settings (mem s)) with
    | Some limit => (Ok (selectFrom (toNumber limit) rows accounts), s)
    | None =>
        if existsb unprocessedRow rows
        then (Throw (notSet "NumAccountsProcess"), s)
        else (Ok accounts, s)
    end.
Proof.
  revert accounts. induction rows as [|[cid processed] rows IH]; intros accounts.
  - simpl. now destruct findSetting.
  - cbn [getUnprocessedAccountsFrom selectFrom existsb].
    unfold unprocessedRow at 1 2. cbn [snd fst].
    destruct (looseEqString processed EmptyString); cbn [negb orb].
    + unfold bind. rewrite getSetting_run.
      destruct (findSetting "NumAccountsProcess" (settings (mem s))) as [limit|] eqn:F;
        [|reflexivity].
      destruct (ge _ _); rewrite IH, ?F; reflexivity.
    + apply IH.
Qed.

Lemma selectFrom_full limit rows accounts :
  ge (ofNat (List.length accounts)) limit = true ->
  selectFrom limit rows accounts = accounts.
Proof.
  intros H. induction rows as [|row rows IH]; [reflexivity|].
  cbn [selectFrom]. rewrite H. now destruct (negb (unprocessedRow row)).
Qed.

(** The selection is a prefix of the unprocessed rows, in the order of the
    Accounts tab. *)
Lemma selectFrom_prefix limit rows accounts :
  exists k, selectFrom limit rows accounts
            = accounts ++ firstn k (map fst (filter unprocessedRow rows)).
Proof.
  revert accounts. induction rows as [|row rows IH]; intros accounts.
  - exists 0%nat. simpl. now rewrite app_nil_r.
  - cbn [selectFrom filter]. destruct (unprocessedRow row); cbn [negb].
    + destruct (ge (ofNat (List.length accounts)) limit) eqn:G.
      * exists 0%nat. rewrite selectFrom_full by exact G. simpl. now rewrite app_nil_r.
      * destruct (IH (accounts ++ [fst row])) as [k Hk].
        exists (S k). rewrite Hk. cbn [map firstn]. now rewrite <- app_assoc.
    + apply IH.
Qed.

Lemma selectFrom_none limit rows accounts :
  existsb unprocessedRow rows = false -> selectFrom limit rows accounts = accounts.
Proof.
  revert accounts. induction rows as [|row rows IH]; intros accounts H; [reflexivity|].
  cbn [existsb] in H. apply orb_false_iff in H. destruct H as [H1 H2].
  cbn [selectFrom]. rewrite H1. cbn [negb]. now apply IH.
Qed.

Lemma withIds_nil E : withIds E [] = [].
Proof.
  unfold withIds. induction (mccAccounts E) as [|a l IH]; [reflexivity|].
  simpl. exact IH.
Qed.

Lemma withIds_In E ids a : In a (withIds E ids) -> In a ids.
Proof.
  unfold withIds. intros H. apply filter_In in H. destruct H as [_ H].
  apply existsb_exists in H. destruct H as (x & Hx & Heq).
  apply String.eqb_eq in Heq. now subst.
Qed.

(** *** Scoring and marking one account *)

Lemma processAccount_run E a s :
  processAccount E a s
  = match findSetting "ReportPeriod" (settings (mem s)) with
    | Some period => (Ok tt, processedState E a period s)
    | None => (Throw (notSet "ReportPeriod"), s)
    end.
Proof.
  unfold processAccount, signalManager_processAccount, calculateRawSignals, bind.
  unfold getSignalDefinitions, getSumWeights, readMem. cbn [fst snd].
  rewrite getSetting_run.
  destruct (findSetting "ReportPeriod" (settings (mem s))); reflexivity.
Qed.

Lemma batchLoop_run E iterator processed s :
  batchLoop E iterator processed s
  = match iterator with
    | [] => (Ok processed, s)
    | _ :: _ =>
        match findSetting "NumAccountsProcess" (settings (mem s)) with
        | None => (Throw (notSet "NumAccountsProcess"), s)
        | Some limit =>
            if lt (ofNat processed) (toNumber limit) then
              match findSetting "ReportPeriod" (settings (mem s)) with
              | None => (Throw (notSet "ReportPeriod"), s)
              | Some period =>
                  (Ok (fst (batchRun E limit period iterator processed s)),
                   snd (batchRun E limit period iterator processed s))
              end
            else (Ok (S processed), s)
        end
    end.
Proof.
  revert processed s. induction iterator as [|a iterator IH]; intros processed s;
    [reflexivity|].
  cbn [batchLoop batchRun]. unfold bind at 1. rewrite getSetting_run.
  destruct (findSetting "NumAccountsProcess" (settings (mem s))) as [limit|] eqn:L;
    [|reflexivity].
  destruct (lt (ofNat processed) (toNumber limit)) eqn:C; [|reflexivity].
  unfold bind. rewrite processAccount_run.
  destruct (findSetting "ReportPeriod" (settings (mem s))) as [period|] eqn:P;
    [|reflexivity].
  rewrite IH. destruct iterator as [|b iterator]; [reflexivity|].
  change (settings (mem (processedState E a period s))) with (settings (mem s)).
  rewrite L, P. cbn [batchRun].
  now destruct (lt (ofNat (S processed)) (toNumber limit)).
Qed.

(** ** The end of a run *)

#[local] Instance cacheKept_Frame : Frame cacheKept.
Proof. split; unfold cacheKept; intros; auto. Qed.

Lemma respects_weaken {A : Type} (R1 R2 : state -> state -> Prop) (m : M A) :
  (forall s s', R1 s s' -> R2 s s') -> respects R1 m -> respects R2 m.
Proof. intros H H1 s. apply H, H1. Qed.

Lemma keeps_cacheKept {A : Type} (m : M A) :
  respects (keeps (fun s => currentRunSheet (mem s))) m -> respects cacheKept m.
Proof.
  apply respects_weaken. unfold keeps, cacheKept. intros s s' H url Hs.
  now rewrite H.
Qed.

Lemma getCurrentRunSheet_cacheKept : respects cacheKept getCurrentRunSheet.
Proof.
  intros s url H. rewrite getCurrentRunSheet_run. unfold currentSheetUrl.
  now rewrite H.
Qed.

Lemma writeAccountDataToSpreadsheet_cacheKept :
  respects cacheKept writeAccountDataToSpreadsheet.
Proof.
  unfold writeAccountDataToSpreadsheet, writeHeaderRow, writeDataRow, getAccountInfos.
  frame_with ltac:(first [ apply getCurrentRunSheet_cacheKept
                         | rule respects_pure; solve [auto with pure_ops]
                         | apply keeps_cacheKept; unfold updateSheet; frame ]).
Qed.

Lemma scoreBatch_run E s :
  scoreBatch E s
  = match currentSheetUrl s with
    | Some url => scoreOpenBatch E (cached url s)
    | None => (Throw "Invalid argument: url", s)
    end.
Proof.
  unfold scoreBatch. unfold bind at 1. rewrite getCurrentRunSheet_run.
  now destruct (currentSheetUrl s).
Qed.

Lemma scoreBatch_caches E s p :
  fst (scoreBatch E s) = Ok p ->
  exists url, currentSheetUrl s = Some url
              /\ currentRunSheet (mem (snd (scoreBatch E s))) = Some url.
Proof.
  rewrite scoreBatch_run.
  destruct (currentSheetUrl s) as [url|]; [|discriminate].
  intros _. exists url. split; [reflexivity|].
  assert (H : respects cacheKept (scoreOpenBatch E)).
  { unfold scoreOpenBatch.
    frame_with ltac:(first [ rule respects_pure; solve [auto with pure_ops]
                           | apply writeAccountDataToSpreadsheet_cacheKept
                           | apply keeps_cacheKept, batchLoop_keeps; intros; reflexivity ]). }
  apply (H (cached url s)). reflexivity.
Qed.

Lemma allAccountsProcessed_run s :
  allAccountsProcessed s = (Ok (allMarked (disk s)), s).
Proof. reflexivity. Qed.

Lemma sendEmail_run s url :
  currentRunSheet (mem s) = Some url ->
  fst (sendEmail s) = Ok tt /\
  outbox (disk (snd (sendEmail s))) = outbox (disk s) ++ notification s url /\
  keeps (fun s => (protectedTabs (disk s), historyTab (disk s),
                   accountsTab (disk s), runSheets (disk s))) s (snd (sendEmail s)).
Proof.
  intros H. unfold sendEmail, notification, bind, keeps. rewrite getSetting_run.
  destruct (findSetting "RecipientEmail" (settings (mem s))) as [r|].
  - destruct (truthy r).
    + rewrite getCurrentRunSheet_run. unfold currentSheetUrl. rewrite H.
      cbn. repeat split.
    + cbn. rewrite app_nil_r. repeat split.
  - cbn. rewrite app_nil_r. repeat split.
Qed.

Lemma bind_Ok {A B : Type} (m : M A) (k : A -> M B) s a s' :
  m s = (Ok a, s') -> bind m k s = k a s'.
Proof. intros H. unfold bind. now rewrite H. Qed.

Lemma bind_Throw {A B : Type} (m : M A) (k : A -> M B) s message s' :
  m s = (Throw message, s') -> bind m k s = (Throw message, s').
Proof. intros H. unfold bind. now rewrite H. Qed.

Lemma finishRun_run E p s url :
  currentRunSheet (mem s) = Some url ->
  fst (finishRun E p s) = Ok p /\
  accountsTab (disk (snd (finishRun E p s))) = accountsTab (disk s) /\
  runSheets (disk (snd (finishRun E p s))) = runSheets (disk s) /\
  if (0 <? p)%nat && allMarked (disk s)
  then finalized E url s (snd (finishRun E p s))
  else notFinalized s (snd (finishRun E p s)).
Proof.
  intros H. unfold finishRun.
  assert (C : (if (0 <? p)%nat then allAccountsProcessed else ret false) s
              = (Ok ((0 <? p)%nat && allMarked (disk s)), s)).
  { destruct (0 <? p)%nat; [apply allAccountsProcessed_run | reflexivity]. }
  erewrite bind_Ok by exact C. destruct ((0 <? p)%nat && allMarked (disk s)).
  - assert (Hc : (removeProtection ;;; markRunAsProcessed E ;;; sendEmail) s
                 = sendEmail (closedState E s)) by reflexivity.
    destruct (@sendEmail_run (closedState E s) url H) as (Hr & Ho & Hk).
    destruct (sendEmail (closedState E s)) as [[[]|?] s3] eqn:Hs; [|discriminate].
    erewrite bind_Ok by exact Hc.
    unfold keeps in Hk. cbn in Hk, Ho. injection Hk as Hp Hh Ha Hsh.
    unfold finalized. cbn. now rewrite Hp, Hh, Ha, Hsh, Ho.
  - cbn. unfold notFinalized. repeat split.
Qed.


(** ** Starting a run, and the run history *)

Lemma scoreBatch_keeps_sheets E :
  respects (keeps (fun s => map fst (runSheets (disk s)))) (scoreBatch E).
Proof. unfold scoreBatch. batch_frame. Qed.

(** The rows of the history keep their start and their report; only the end
    of the last one may be set. *)
Lemma continue_history E s :
  historyTab (disk (snd (continueUnfinishedReport E s))) = historyTab (disk s) \/
  historyTab (disk (snd (continueUnfinishedReport E s)))
  = setLastEnd (historyTab (disk s)) (VNum (getTimestamp E)).
Proof.
  rewrite continueUnfinishedReport_split. unfold bind.
  pose proof (scoreBatch_keeps_history E s) as Kh.
  pose proof (@scoreBatch_caches E s) as Kc. unfold keeps in Kh.
  destruct (scoreBatch E s) as [[p|message] s1]; cbn [fst snd] in *; [|now left].
  destruct (Kc p eq_refl) as (url & _ & Hc).
  destruct (@finishRun_run E p s1 url Hc) as (_ & _ & _ & Hf).
  destruct ((0 <? p)%nat && allMarked (disk s1)).
  - right. destruct Hf as (_ & Hh & _). now rewrite Hh, Kh.
  - left. destruct Hf as (_ & Hh & _). now rewrite Hh, Kh.
Qed.

Lemma continue_cids E s :
  map fst (accountsTab (disk (snd (continueUnfinishedReport E s))))
  = map fst (accountsTab (disk s)).
Proof.
  rewrite continueUnfinishedReport_split. unfold bind.
  pose proof (scoreBatch_keeps_cids E s) as K.
  pose proof (@scoreBatch_caches E s) as Kc. unfold keeps in K.
  destruct (scoreBatch E s) as [[p|message] s1]; cbn [fst snd] in *; [|exact K].
  destruct (Kc p eq_refl) as (url & _ & Hc).
  destruct (@finishRun_run E p s1 url Hc) as (_ & Ha & _). now rewrite Ha.
Qed.

Lemma continue_sheets E s :
  map fst (runSheets (disk (snd (continueUnfinishedReport E s))))
  = map fst (runSheets (disk s)).
Proof.
  rewrite continueUnfinishedReport_split. unfold bind.
  pose proof (scoreBatch_keeps_sheets E s) as K.
  pose proof (@scoreBatch_caches E s) as Kc. unfold keeps in K.
  destruct (scoreBatch E s) as [[p|message] s1]; cbn [fst snd] in *; [|exact K].
  destruct (Kc p eq_refl) as (url & _ & Hc).
  destruct (@finishRun_run E p s1 url Hc) as (_ & _ & Hs & _). now rewrite Hs.
Qed.

Lemma startNewReport_split E s :
  startNewReport E s = bind (enumerateAccounts E) (fun _ => addRun E ;;; ret tt) s.
Proof.
  unfold startNewReport, enumerateAccounts, bind.
  destruct (setProtection s) as [[?|?] s1]; [|reflexivity].
  destruct (clearAllAccountInfo s1) as [[?|?] s2]; [|reflexivity].
  destruct (getSetting "AccountLabel" false s2) as [[label|?] s3]; [|reflexivity].
  destruct (forEach _ addAccount s3) as [[?|?] s4]; reflexivity.
Qed.

Lemma enumerateAccounts_keeps_history E :
  respects (keeps (fun s => historyTab (disk s))) (enumerateAccounts E).
Proof. unfold enumerateAccounts. frame. Qed.

Lemma startNewReport_history E s :
  historyTab (disk (snd (startNewReport E s))) = historyTab (disk s) \/
  historyTab (disk (snd (startNewReport E s))) = historyTab (disk s) ++ [newRun E].
Proof.
  rewrite startNewReport_split. unfold bind.
  pose proof (enumerateAccounts_keeps_history E s) as K. unfold keeps in K.
  destruct (enumerateAccounts E s) as [[[]|message] s1]; cbn [fst snd] in *;
    [|now left].
  right. cbn. now rewrite K.
Qed.

Lemma setLastEnd_cons row row' history v :
  setLastEnd (row :: row' :: history) v = row :: setLastEnd (row' :: history) v.
Proof. destruct row as [[a b] c]. reflexivity. Qed.

Lemma setLastEnd_nonempty row history v : setLastEnd (row :: history) v <> [].
Proof. destruct row as [[a b] c]. destruct history; discriminate. Qed.

Lemma removelast_cons {A : Type} (x y : A) (l : list A) :
  removelast (x :: y :: l) = x :: removelast (y :: l).
Proof. reflexivity. Qed.

Lemma removelast_setLastEnd history v :
  removelast (setLastEnd history v) = removelast history.
Proof.
  induction history as [|row history IH]; [reflexivity|].
  destruct history as [|row' history].
  - destruct row as [[a b] c]. reflexivity.
  - rewrite setLastEnd_cons, removelast_cons, <- IH.
    pose proof (@setLastEnd_nonempty row' history v) as Hne.
    destruct (setLastEnd (row' :: history) v); [congruence | reflexivity].
Qed.

Lemma hasOpenRun_false_last_closed w :
  hasOpenRun w = false -> closedBeforeLast w ->
  forallb (fun row => negb (isOpen row)) (historyTab w) = true.
Proof.
  unfold hasOpenRun, closedBeforeLast.
  destruct (historyTab w) as [|r l] using rev_ind; [reflexivity|].
  rewrite rev_app_distr, removelast_last. cbn [rev app].
  destruct r as [[a e] u]. intros He Hl.
  rewrite forallb_app, Hl. cbn. unfold isOpen. cbn.
  now rewrite He.
Qed.

Lemma closedBeforeLast_openRuns w : closedBeforeLast w -> (openRuns w <= 1)%nat.
Proof.
  unfold closedBeforeLast, openRuns.
  destruct (historyTab w) as [|r l] using rev_ind; [auto|].
  rewrite removelast_last. intros H.
  rewrite filter_app, length_app.
  assert (Hz : filter isOpen l = []).
  { clear -H. induction l as [|x l IH]; [reflexivity|].
    cbn in *. apply andb_true_iff in H. destruct H as [Hx Hl].
    destruct (isOpen x); [discriminate | auto]. }
  rewrite Hz. cbn. destruct (isOpen r); cbn; lia.
Qed.

Lemma main_open E s :
  hasOpenRun (disk s) = true ->
  main E s = (continueUnfinishedReport E ;;; ret tt) (initState s).
Proof.
  intros H. unfold main. erewrite bind_Ok by apply init_run.
  erewrite bind_Ok by apply hasUnfinishedRun_run.
  change (disk (initState s)) with (disk s). now rewrite H.
Qed.

Lemma getLastReportStartTimestamp_run s :
  getLastReportStartTimestamp s = (Ok (lastStart (disk s)), s).
Proof.
  unfold getLastReportStartTimestamp, lastStart, bind, readDisk.
  now destruct (rev (historyTab (disk s))) as [|[[? ?] ?] ?].
Qed.

Lemma main_closed E s :
  hasOpenRun (disk s) = false ->
  main E s
  = match findSetting "ReportFrequency" (settings (mem (initState s))) with
    | None => (Throw (notSet "ReportFrequency"), initState s)
    | Some reportFrequency =>
        if runDue E (disk s) reportFrequency
        then startNewReport E (initState s)
        else (Ok tt, initState s)
    end.
Proof.
  intros H. unfold main. erewrite bind_Ok by apply init_run.
  erewrite bind_Ok by apply hasUnfinishedRun_run.
  change (disk (initState s)) with (disk s). rewrite H.
  unfold bind at 1. rewrite getSetting_run.
  destruct (findSetting "ReportFrequency" (settings (mem (initState s))));
    [|reflexivity].
  erewrite bind_Ok by apply getLastReportStartTimestamp_run.
  change (disk (initState s)) with (disk s). unfold runDue.
  now destruct (negb (truthy (lastStart (disk s))) || _).
Qed.

Lemma main_history E s :
  let h' := historyTab (disk (snd (main E s))) in
  if hasOpenRun (disk s)
  then h' = historyTab (disk s)
       \/ h' = setLastEnd (historyTab (disk s)) (VNum (getTimestamp E))
  else h' = historyTab (disk s) \/ h' = historyTab (disk s) ++ [newRun E].
Proof.
  cbv zeta. destruct (hasOpenRun (disk s)) eqn:H.
  - rewrite main_open by exact H. unfold bind.
    pose proof (continue_history E (initState s)) as K.
    destruct (continueUnfinishedReport E (initState s)) as [[?|?] s1]; exact K.
  - rewrite main_closed by exact H.
    destruct (findSetting "ReportFrequency" (settings (mem (initState s))))
      as [reportFrequency|]; [|now left].
    destruct (runDue E (disk s) reportFrequency); [|now left].
    apply (startNewReport_history E (initState s)).
Qed.

Lemma invoke_closedBeforeLast E w :
  closedBeforeLast w -> closedBeforeLast (disk (snd (invoke E w))).
Proof.
  intros Hw. unfold invoke.
  pose proof (main_history E {| mem := freshMemory; disk := w |}) as H.
  cbv zeta in H. cbn [disk] in H. unfold closedBeforeLast in *.
  destruct (hasOpenRun w) eqn:Ho.
  - destruct H as [-> | ->]; [exact Hw | now rewrite removelast_setLastEnd].
  - destruct H as [-> | ->]; [exact Hw|].
    rewrite removelast_last. now apply hasOpenRun_false_last_closed.
Qed.

Lemma invocations_closedBeforeLast Es w :
  closedBeforeLast w -> closedBeforeLast (invocations Es w).
Proof.
  revert w. induction Es as [|E Es IH]; intros w Hw; [exact Hw|].
  cbn [invocations]. apply IH. now apply invoke_closedBeforeLast.
Qed.

(** C4. While the history reports an open run, an invocation starts no new
    run: the account rows keep their customer ids, the history keeps its
    records (start and report of each) and no report sheet is added,
    whatever the clock says; and when every record but the last is closed,
    as in an empty history, this stays so across invocations, so that at
    most one record is open at any time. *)
Theorem open_run_blocks_new_run (E : env) (w : world) :
  (hasOpenRun w = true -> noNewRun w (disk (snd (invoke E w)))) /\
  (closedBeforeLast w ->
   closedBeforeLast (disk (snd (invoke E w)))
   /\ (openRuns (disk (snd (invoke E w))) <= 1)%nat) /\
  (forall Es, closedBeforeLast w -> (openRuns (invocations Es w) <= 1)%nat) /\
  (forall Es, historyTab w = [] -> (openRuns (invocations Es w) <= 1)%nat).
Proof.
  split; [|split; [|split]].
  - intros Ho. unfold invoke. rewrite main_open by exact Ho. unfold bind.
    set (s0 := initState {| mem := freshMemory; disk := w |}).
    pose proof (continue_cids E s0) as Hc.
    pose proof (continue_history E s0) as Hh.
    pose proof (continue_sheets E s0) as Hs.
    change (disk s0) with w in *.
    destruct (continueUnfinishedReport E s0) as [[?|?] s1];
      unfold noNewRun, ret; cbn [fst snd] in *;
      (split; [exact Hc | split; [| exact Hs]]);
      (destruct Hh as [-> | ->];
       [reflexivity | apply map_startAndUrl_setLastEnd]).
  - intros Hw. pose proof (invoke_closedBeforeLast E Hw) as H.
    split; [exact H | now apply closedBeforeLast_openRuns].
  - intros Es Hw. apply closedBeforeLast_openRuns.
    now apply invocations_closedBeforeLast.
  - intros Es Hw. apply closedBeforeLast_openRuns.
    apply invocations_closedBeforeLast. unfold closedBeforeLast.
    now rewrite Hw.
Qed.

Lemma open_run_blocks_new_run_witness :
  noNewRun staleOpenWorld (disk (snd (invoke exampleEnv staleOpenWorld))).
Proof.
  apply (proj1 (open_run_blocks_new_run exampleEnv staleOpenWorld)).
  reflexivity.
Defined.

(** ** A batch with nothing to do *)

Lemma currentSheetUrl_started w :
  currentSheetUrl (started w) = option_map fst (openSheet w).
Proof.
  unfold currentSheetUrl, openSheet. cbn.
  destruct (rev (historyTab w)) as [|[[? ?] url] ?]; [reflexivity|].
  now destruct (get (runSheets w) url).
Qed.

Lemma openSheet_get w url sheet :
  openSheet w = Some (url, sheet) -> get (runSheets w) url = Some sheet.
Proof.
  unfold openSheet. destruct (rev (historyTab w)) as [|[[? ?] u] ?]; [discriminate|].
  destruct (get (runSheets w) u) eqn:G; [|discriminate].
  intros H. injection H as <- <-. exact G.
Qed.

Lemma getUnprocessedAccountIterator_idle E s :
  existsb unprocessedRow (accountsTab (disk s)) = false ->
  getUnprocessedAccountIterator E s = (Ok [], s).
Proof.
  intros H. unfold getUnprocessedAccountIterator, getUnprocessedAccounts.
  unfold bind at 1. unfold bind, readDisk. rewrite getUnprocessedAccountsFrom_run.
  destruct (findSetting "NumAccountsProcess" (settings (mem s))).
  - rewrite selectFrom_none by exact H. unfold ret. now rewrite withIds_nil.
  - rewrite H. unfold ret. now rewrite withIds_nil.
Qed.

Lemma findSetting_started key w :
  findSetting key (settings (mem (started w)))
  = findSetting key (map settingOfRow (filter kept (settingsTab w))).
Proof. cbn. now rewrite readSettingsRows_kept. Qed.

Lemma getUnprocessedAccountIterator_unset E s :
  existsb unprocessedRow (accountsTab (disk s)) = true ->
  findSetting "NumAccountsProcess" (settings (mem s)) = None ->
  getUnprocessedAccountIterator E s = (Throw (notSet "NumAccountsProcess"), s).
Proof.
  intros H F. unfold getUnprocessedAccountIterator, getUnprocessedAccounts.
  unfold bind at 1. unfold bind, readDisk. rewrite getUnprocessedAccountsFrom_run.
  now rewrite F, H.
Qed.

Lemma getCurrentRunSheet_cached s url :
  currentRunSheet (mem s) = Some url -> getCurrentRunSheet s = (Ok url, cached url s).
Proof.
  intros H. rewrite getCurrentRunSheet_run. unfold currentSheetUrl. now rewrite H.
Qed.

Lemma writeAccountDataToSpreadsheet_idle s url sheet :
  currentRunSheet (mem s) = Some url ->
  get (runSheets (disk s)) url = Some sheet ->
  accountInfos (mem s) = [] ->
  exists s', writeAccountDataToSpreadsheet s = (Ok tt, s')
             /\ disk s'
                = withRunSheets
                    (set (runSheets (disk s)) url
                         {| headerRow := Some (headerOf (signalDefinitions (mem s)));
                            dataRows := dataRows sheet |}) (disk s).
Proof.
  intros Hc Hg Ha. unfold writeAccountDataToSpreadsheet.
  assert (H1 : getAccountInfos s
               = (Ok [], {| mem := withAccountInfos [] (mem s); disk := disk s |})).
  { unfold getAccountInfos, bind, updMem, readMem. cbn. now rewrite Ha. }
  erewrite bind_Ok by exact H1.
  unfold writeHeaderRow.
  erewrite bind_Ok.
  2:{ erewrite bind_Ok by (apply getCurrentRunSheet_cached; exact Hc).
      erewrite bind_Ok by reflexivity. reflexivity. }
  cbn [forEach]. eexists. split; [reflexivity|].
  cbn. now rewrite Hg.
Qed.

Lemma idle_batch_run E s url sheet :
  currentSheetUrl s = Some url ->
  get (runSheets (disk s)) url = Some sheet ->
  accountInfos (mem s) = [] ->
  existsb unprocessedRow (accountsTab (disk s)) = false ->
  exists s', continueUnfinishedReport E s = (Ok 0%nat, s')
             /\ disk s'
                = withRunSheets
                    (set (runSheets (disk s)) url
                         {| headerRow := Some (headerOf (signalDefinitions (mem s)));
                            dataRows := dataRows sheet |}) (disk s).
Proof.
  intros Hu Hg Ha Hn. unfold continueUnfinishedReport.
  erewrite bind_Ok by (rewrite getCurrentRunSheet_run, Hu; reflexivity).
  erewrite bind_Ok by (apply getUnprocessedAccountIterator_idle; exact Hn).
  cbn [batchLoop]. erewrite bind_Ok by reflexivity.
  destruct (@writeAccountDataToSpreadsheet_idle (cached url s) url sheet)
    as (s' & Hw & Hd); try assumption; try reflexivity.
  erewrite bind_Ok by exact Hw.
  exists s'. split; [reflexivity | exact Hd].
Qed.

Lemma unset_batch_run E s url :
  currentSheetUrl s = Some url ->
  existsb unprocessedRow (accountsTab (disk s)) = true ->
  findSetting "NumAccountsProcess" (settings (mem s)) = None ->
  continueUnfinishedReport E s
  = (Throw (notSet "NumAccountsProcess"), cached url s).
Proof.
  intros Hu Hn Hf. unfold continueUnfinishedReport.
  erewrite bind_Ok by (rewrite getCurrentRunSheet_run, Hu; reflexivity).
  erewrite bind_Throw; [reflexivity|].
  now apply getUnprocessedAccountIterator_unset.
Qed.

Lemma get_set_same {A : Type} (o : object A) k (a a' : A) :
  get o k = Some a' -> get (set o k a) k = Some a.
Proof.
  induction o as [|[k' x] o IH]; [discriminate|].
  cbn. destruct (k' =? k) eqn:K; cbn.
  - now rewrite String.eqb_refl.
  - rewrite K. exact IH.
Qed.

(** C8, as the code has it. A batch that finds no unprocessed account
    returns the count 0, marks no account, leaves the run record, the
    protection and the outbox as they are and appends no data row, but it
    writes the header row of the report sheet; a batch whose size setting is
    0 (hence not stored) while an unprocessed account exists aborts with the
    exception of the missing mandatory setting and changes nothing; and so
    does a batch whose report sheet cannot be opened. *)
Theorem idle_batch_writes_header_only (E : env) (w : world) :
  (forall url sheet,
     openSheet w = Some (url, sheet) ->
     existsb unprocessedRow (accountsTab w) = false ->
     fst (continueUnfinishedReport E (started w)) = Ok 0%nat /\
     disk (snd (continueUnfinishedReport E (started w))) = withHeader w url sheet) /\
  (forall url sheet,
     openSheet w = Some (url, sheet) ->
     existsb unprocessedRow (accountsTab w) = true ->
     batchSizeUnset w ->
     fst (continueUnfinishedReport E (started w))
     = Throw (notSet "NumAccountsProcess") /\
     disk (snd (continueUnfinishedReport E (started w))) = w) /\
  (openSheet w = None ->
   fst (continueUnfinishedReport E (started w)) = Throw "Invalid argument: url" /\
   disk (snd (continueUnfinishedReport E (started w))) = w) /\
  (forall url sheet,
     accountsTab (withHeader w url sheet) = accountsTab w /\
     historyTab (withHeader w url sheet) = historyTab w /\
     protectedTabs (withHeader w url sheet) = protectedTabs w /\
     outbox (withHeader w url sheet) = outbox w /\
     (get (runSheets w) url = Some sheet ->
      option_map dataRows (get (runSheets (withHeader w url sheet)) url)
      = Some (dataRows sheet) /\
      option_map headerRow (get (runSheets (withHeader w url sheet)) url)
      = Some (Some (reportHeader w)))).
Proof.
  split; [|split; [|split]].
  - intros url sheet Ho Hn.
    destruct (@idle_batch_run E (started w) url sheet) as (s' & Hr & Hd);
      try assumption; try reflexivity.
    + rewrite currentSheetUrl_started, Ho. reflexivity.
    + now apply openSheet_get.
    + rewrite Hr. split; [reflexivity | exact Hd].
  - intros url sheet Ho Hn Hz.
    rewrite (@unset_batch_run E (started w) url); try assumption.
    + split; reflexivity.
    + rewrite currentSheetUrl_started, Ho. reflexivity.
    + rewrite findSetting_started. now apply findSetting_all_falsy.
  - intros Ho. unfold continueUnfinishedReport.
    erewrite bind_Throw
      by (rewrite getCurrentRunSheet_run, currentSheetUrl_started, Ho; reflexivity).
    split; reflexivity.
  - intros url sheet. do 4 (split; [reflexivity|]). intros G.
    split; unfold withHeader; cbn; erewrite get_set_same by exact G; reflexivity.
Qed.

Lemma idle_batch_writes_header_only_witness :
  fst (continueUnfinishedReport exampleEnv (started idleWorld)) = Ok 0%nat /\
  disk (snd (continueUnfinishedReport exampleEnv (started idleWorld)))
  = withHeader idleWorld "run-0" {| headerRow := None; dataRows := [] |}.
Proof.
  apply (proj1 (idle_batch_writes_header_only exampleEnv idleWorld));
    reflexivity.
Defined.

(** C8 fails as stated: with every account processed the batch returns 0
    but writes the header row of the report sheet, which had none; and with
    a batch size of 0 and an unprocessed account it returns no count but
    throws. *)
Lemma idle_batch_writes_to_report :
  existsb unprocessedRow (accountsTab idleWorld) = false /\
  option_map headerRow (get (runSheets idleWorld) "run-0") = Some None /\
  fst (continueUnfinishedReport exampleEnv (started idleWorld)) = Ok 0%nat /\
  option_map headerRow
    (get (runSheets (disk (snd (continueUnfinishedReport exampleEnv
                                  (started idleWorld))))) "run-0")
  = Some (Some [VStr EmptyString; VStr "CTR"; VStr "Score"]) /\
  fst (continueUnfinishedReport exampleEnv (started zeroBatchWorld))
  = Throw "Setting 'NumAccountsProcess' is not set!".
Proof. repeat split; vm_compute; reflexivity. Qed.

(** ** Resuming a run *)

Lemma unprocessedRow_falsy row : unprocessedRow row = true -> truthy (snd row) = false.
Proof.
  unfold unprocessedRow. destruct (snd row) as [| |b|n|t]; cbn; try discriminate.
  - destruct b; [|reflexivity]. vm_compute. discriminate.
  - destruct n as [q| | |]; cbn; try discriminate.
    intros H. change (Q2Qc (inject_Z 0)) with (Q2Qc 0) in H. now rewrite H.
  - intros H. now rewrite H.
Qed.

Lemma truthy_now E : now E <> 0%Z -> truthy (VNum (getTimestamp E)) = true.
Proof.
  intros H. unfold getTimestamp, ofZ. cbn.
  destruct (Qc_eqb (Q2Qc (inject_Z (now E))) (Q2Qc 0)) eqn:Q; [|reflexivity].
  apply Qc_eqb_eq in Q. apply Q2Qc_eq_iff in Q.
  exfalso. apply H. unfold Qeq in Q. cbn in Q. lia.
Qed.

Lemma In_markRows E a rows row :
  In row (markRows E a rows) ->
  (fst row = a /\ snd row = VNum (getTimestamp E)) \/ (fst row <> a /\ In row rows).
Proof.
  unfold markRows. intros H. apply in_map_iff in H.
  destruct H as (x & Hx & Hin). destruct (a =? fst x) eqn:A.
  - apply String.eqb_eq in A. subst row. cbn. left. now split.
  - apply String.eqb_neq in A. subst row. right. split; [congruence | exact Hin].
Qed.

Lemma In_markAll E l rows row :
  In row (markAll E l rows) ->
  (In (fst row) l /\ snd row = VNum (getTimestamp E))
  \/ (~ In (fst row) l /\ In row rows).
Proof.
  revert rows. induction l as [|a l IH]; intros rows H; cbn in *.
  - right. auto.
  - apply IH in H. destruct H as [[Hl Hs] | [Hl Hr]].
    + left. auto.
    + apply In_markRows in Hr. destruct Hr as [[Ha Hs] | [Ha Hr']].
      * left. auto.
      * right. split; [|exact Hr']. intros [Heq | Hin]; [congruence | contradiction].
Qed.

Lemma account_processSignals defs sw a raw : account (processSignals defs sw a raw) = a.
Proof.
  unfold processSignals. now destruct (processSignalsFrom defs raw [] (ofZ 0)).
Qed.

Lemma scored_processedState E a period s :
  scored (processedState E a period s) = scored s ++ [a].
Proof.
  unfold scored. cbn. rewrite map_app. cbn. now rewrite account_processSignals.
Qed.

(** The batch loop scores and marks a first part of the iterator. *)
Lemma batchRun_accounts E limit period iterator processed s :
  exists l rest,
    iterator = l ++ rest /\
    accountsTab (disk (snd (batchRun E limit period iterator processed s)))
    = markAll E l (accountsTab (disk s)) /\
    scored (snd (batchRun E limit period iterator processed s)) = scored s ++ l.
Proof.
  revert processed s. induction iterator as [|a iterator IH]; intros processed s.
  - exists [], []. cbn. now rewrite app_nil_r.
  - cbn [batchRun]. destruct (lt (ofNat processed) (toNumber limit)).
    + destruct (IH (S processed) (processedState E a period s))
        as (l & rest & Hi & Ha & Hs).
      exists (a :: l), rest. split; [now rewrite Hi|]. split.
      * exact Ha.
      * rewrite Hs, scored_processedState. now rewrite <- app_assoc.
    + exists [], (a :: iterator). cbn. now rewrite app_nil_r.
Qed.

Lemma batchLoop_accounts E iterator processed s :
  exists l,
    incl l iterator /\
    accountsTab (disk (snd (batchLoop E iterator processed s)))
    = markAll E l (accountsTab (disk s)) /\
    scored (snd (batchLoop E iterator processed s)) = scored s ++ l.
Proof.
  rewrite batchLoop_run.
  assert (Hnone : exists l, incl l iterator
                    /\ accountsTab (disk s) = markAll E l (accountsTab (disk s))
                    /\ scored s = scored s ++ l).
  { exists []. cbn. rewrite app_nil_r. repeat split. intros x []. }
  destruct iterator as [|a iterator]; [exact Hnone|].
  destruct (findSetting "NumAccountsProcess" (settings (mem s))) as [limit|];
    [|exact Hnone].
  destruct (lt (ofNat processed) (toNumber limit)); [|exact Hnone].
  destruct (findSetting "ReportPeriod" (settings (mem s))) as [period|];
    [|exact Hnone].
  destruct (batchRun_accounts E limit period (a :: iterator) processed s)
    as (l & rest & Hi & Ha & Hs).
  exists l. cbn [fst snd]. split; [|split; assumption].
  rewrite Hi. apply incl_appl, incl_refl.
Qed.

Lemma In_insertByScore x a l : In x (insertByScore a l) <-> x = a \/ In x l.
Proof.
  induction l as [|b l IH]; cbn [insertByScore In].
  - split; intros [H | H]; auto.
  - destruct (gt (sub (score b) (score a)) (ofZ 0)); cbn [In].
    + rewrite IH. split; intros [H | [H | H]]; auto.
    + split; intros [H | [H | H]]; auto.
Qed.

Lemma In_sortByScore x l : In x (sortByScore l) <-> In x l.
Proof.
  induction l as [|a l IH]; [reflexivity|].
  change (sortByScore (a :: l)) with (insertByScore a (sortByScore l)).
  rewrite In_insertByScore, IH. cbn [In]. split; intros [H | H]; auto.
Qed.

Lemma writeAccountDataToSpreadsheet_infos s :
  accountInfos (mem (snd (writeAccountDataToSpreadsheet s)))
  = sortByScore (accountInfos (mem s)).
Proof.
  unfold writeAccountDataToSpreadsheet.
  assert (H1 : getAccountInfos s
               = (Ok (sortByScore (accountInfos (mem s))),
                  {| mem := withAccountInfos (sortByScore (accountInfos (mem s))) (mem s);
                     disk := disk s |})) by reflexivity.
  erewrite bind_Ok by exact H1.
  assert (K : respects (keeps (fun s => accountInfos (mem s)))
                (writeHeaderRow ;;;
                 forEach (sortByScore (accountInfos (mem s))) writeDataRow)).
  { frame. }
  now rewrite K.
Qed.

Lemma writeAccountDataToSpreadsheet_keeps_accounts :
  respects (keeps (fun s => accountsTab (disk s))) writeAccountDataToSpreadsheet.
Proof. frame. Qed.

Lemma finishRun_keeps_infos E p :
  respects (keeps (fun s => accountInfos (mem s))) (finishRun E p).
Proof. unfold finishRun. frame. Qed.

Lemma finishRun_keeps_accounts E p :
  respects (keeps (fun s => accountsTab (disk s))) (finishRun E p).
Proof. unfold finishRun. frame. Qed.

Lemma getUnprocessedAccounts_run s :
  getUnprocessedAccounts s
  = match findSetting "NumAccountsProcess" (settings (mem s)) with
    | Some limit =>
        (Ok (selectFrom (toNumber limit) (accountsTab (disk s)) []), s)
    | None =>
        if existsb unprocessedRow (accountsTab (disk s))
        then (Throw (notSet "NumAccountsProcess"), s)
        else (Ok [], s)
    end.
Proof.
  unfold getUnprocessedAccounts. erewrite bind_Ok by reflexivity.
  apply getUnprocessedAccountsFrom_run.
Qed.

Lemma getUnprocessedAccounts_pure : respects unchanged getUnprocessedAccounts.
Proof.
  unfold getUnprocessedAccounts.
  frame_with ltac:(apply getUnprocessedAccountsFrom_pure).
Qed.

Lemma scoreOpenBatch_run E s :
  scoreOpenBatch E s
  = match fst (getUnprocessedAccounts s) with
    | Ok ids => scoreSelected E ids s
    | Throw message => (Throw message, s)
    end.
Proof.
  pose proof (getUnprocessedAccounts_pure s) as P. unfold unchanged in P.
  unfold scoreOpenBatch, scoreSelected, getUnprocessedAccountIterator, bind.
  destruct (getUnprocessedAccounts s) as [[ids|message] s1]; cbn [fst snd] in *;
    subst s1; reflexivity.
Qed.

Lemma scoreSelected_accounts E ids s :
  exists l,
    incl l ids /\
    accountsTab (disk (snd (scoreSelected E ids s))) = markAll E l (accountsTab (disk s)) /\
    (forall c, In c (scored (snd (scoreSelected E ids s))) <-> In c (scored s ++ l)).
Proof.
  destruct (batchLoop_accounts E (withIds E ids) 0 s) as (l & Hi & Ha & Hs).
  exists l. split.
  { intros x Hx. apply Hi in Hx. now apply withIds_In in Hx. }
  unfold scoreSelected, bind.
  destruct (batchLoop E (withIds E ids) 0 s) as [[p|?] s1]; cbn [fst snd] in *.
  - pose proof (writeAccountDataToSpreadsheet_infos s1) as Wi.
    pose proof (writeAccountDataToSpreadsheet_keeps_accounts s1) as Wa.
    unfold keeps in Wa.
    assert (Hsc : forall c, In c (scored (snd (writeAccountDataToSpreadsheet s1)))
                            <-> In c (scored s ++ l)).
    { intros c. unfold scored at 1. rewrite Wi, <- Hs. unfold scored.
      rewrite !in_map_iff. split; intros (x & Hx & Hin); exists x;
        (split; [exact Hx|]); now apply In_sortByScore. }
    destruct (writeAccountDataToSpreadsheet s1) as [[[]|?] s2];
      unfold ret; cbn [fst snd] in *;
      (split; [now rewrite Wa | exact Hsc]).
  - split; [exact Ha|]. intros c. now rewrite Hs.
Qed.

(** The accounts that a batch scores, [l], are selected ones; their rows are
    marked and no other row changes. *)
Lemma scoreOpenBatch_accounts E s :
  exists l,
    incl l (selection s) /\
    accountsTab (disk (snd (scoreOpenBatch E s))) = markAll E l (accountsTab (disk s)) /\
    (forall c, In c (scored (snd (scoreOpenBatch E s))) <-> In c (scored s ++ l)).
Proof.
  rewrite scoreOpenBatch_run. unfold selection.
  destruct (fst (getUnprocessedAccounts s)) as [ids|message].
  - apply scoreSelected_accounts.
  - exists []. cbn. rewrite app_nil_r. repeat split; auto. intros x [].
Qed.

Lemma selection_cached url s : selection (cached url s) = selection s.
Proof.
  unfold selection.
  rewrite (getUnprocessedAccounts_run s), (getUnprocessedAccounts_run (cached url s)).
  change (settings (mem (cached url s))) with (settings (mem s)).
  change (disk (cached url s)) with (disk s).
  now destruct (findSetting "NumAccountsProcess" (settings (mem s))),
               (existsb unprocessedRow (accountsTab (disk s))).
Qed.

Lemma continue_accounts E s :
  exists l,
    incl l (selection s) /\
    accountsTab (disk (snd (continueUnfinishedReport E s)))
    = markAll E l (accountsTab (disk s)) /\
    (forall c, In c (scored (snd (continueUnfinishedReport E s)))
               <-> In c (scored s ++ l)).
Proof.
  rewrite continueUnfinishedReport_split. unfold bind. rewrite scoreBatch_run.
  destruct (currentSheetUrl s) as [url|].
  - destruct (scoreOpenBatch_accounts E (cached url s)) as (l & Hi & Ha & Hs).
    rewrite selection_cached in Hi. exists l. split; [exact Hi|].
    destruct (scoreOpenBatch E (cached url s)) as [[p|?] s1]; cbn [fst snd] in *;
      [|split; assumption].
    pose proof (finishRun_keeps_infos E p s1) as Ki.
    pose proof (finishRun_keeps_accounts E p s1) as Ka.
    unfold keeps in *. split; [now rewrite Ka|].
    intros c. unfold scored at 1. rewrite Ki. apply Hs.
  - exists []. cbn. rewrite app_nil_r. repeat split; auto. intros x [].
Qed.

Lemma selection_prefix s ids :
  fst (getUnprocessedAccounts s) = Ok ids ->
  exists k, ids = firstn k (map fst (filter unprocessedRow (accountsTab (disk s)))).
Proof.
  rewrite getUnprocessedAccounts_run.
  destruct (findSetting "NumAccountsProcess" (settings (mem s))) as [limit|].
  - cbn. intros H. injection H as <-.
    destruct (selectFrom_prefix (toNumber limit) (accountsTab (disk s)) [])
      as [k Hk].
    exists k. exact Hk.
  - destruct (existsb unprocessedRow (accountsTab (disk s))); [discriminate|].
    cbn. intros H. injection H as <-. now exists 0%nat.
Qed.

Lemma In_firstn {A : Type} (k : nat) (l : list A) (x : A) :
  In x (firstn k l) -> In x l.
Proof.
  intros H. rewrite <- (firstn_skipn k l). apply in_or_app. now left.
Qed.

Lemma selection_unprocessed s c :
  In c (selection s) ->
  exists row, In row (accountsTab (disk s)) /\ fst row = c
              /\ unprocessedRow row = true.
Proof.
  unfold selection. destruct (fst (getUnprocessedAccounts s)) as [ids|] eqn:G;
    [|intros []].
  destruct (selection_prefix s G) as [k ->]. intros H.
  apply In_firstn, in_map_iff in H. destruct H as (row & Hc & Hin).
  apply filter_In in Hin. destruct Hin as [Hin Hu]. now exists row.
Qed.

Lemma marked_not_selected s c : marked c (disk s) -> ~ In c (selection s).
Proof.
  intros Hm Hin. apply selection_unprocessed in Hin.
  destruct Hin as (row & Hin & Hc & Hu).
  apply unprocessedRow_falsy in Hu. rewrite (Hm row Hin Hc) in Hu. discriminate.
Qed.

(** An account whose rows are all marked is neither selected nor scored by
    a batch, and its rows stay as they are. *)
Lemma marked_skipped E w c :
  marked c w ->
  ~ In c (selection (started w)) /\
  ~ In c (scored (snd (continueUnfinishedReport E (started w)))) /\
  marked c (disk (snd (continueUnfinishedReport E (started w)))).
Proof.
  intros Hm.
  assert (Hns : ~ In c (selection (started w))) by now apply marked_not_selected.
  destruct (continue_accounts E (started w)) as (l & Hi & Ha & Hs).
  assert (Hnl : ~ In c l) by (intros Hin; apply Hns, Hi, Hin).
  split; [exact Hns|]. split.
  - intros Hin. apply Hs in Hin. exact (Hnl Hin).
  - intros row Hin Hc. rewrite Ha in Hin. apply In_markAll in Hin.
    destruct Hin as [[Hl _] | [_ Hr]].
    + rewrite Hc in Hl. contradiction.
    + exact (Hm row Hr Hc).
Qed.

Lemma markedNow_markedState E a s : markedNow E a (disk (markedState E a s)).
Proof.
  intros row Hin Hc. cbn in Hin. apply In_markRows in Hin.
  destruct Hin as [[_ Hs] | [Hne _]]; [exact Hs | contradiction].
Qed.

(** C3. A batch selects only accounts whose timestamp cell is empty, as a
    first part of those rows in the order of the Accounts tab; every account
    is marked in the step in which it is scored, so that whatever comes
    after, the accounts scored by a batch are marked; and an account whose
    rows are marked is not selected and not scored by this batch nor by any
    later batch of the run. *)
Theorem resumption_skips_marked_accounts (E : env) (w : world) :
  now E <> 0%Z ->
  (forall ids, fst (getUnprocessedAccounts (started w)) = Ok ids ->
     exists k, ids = firstn k (map fst (filter unprocessedRow (accountsTab w)))) /\
  (forall a s period,
     findSetting "ReportPeriod" (settings (mem s)) = Some period ->
     processAccount E a s = (Ok tt, markedState E a (scoredState E a period s)) /\
     markedNow E a (disk (markedState E a (scoredState E a period s)))) /\
  (forall c, In c (scored (snd (continueUnfinishedReport E (started w)))) ->
     In c (selection (started w)) /\
     (exists row, In row (accountsTab w) /\ fst row = c
                  /\ unprocessedRow row = true) /\
     markedNow E c (disk (snd (continueUnfinishedReport E (started w)))) /\
     marked c (disk (snd (continueUnfinishedReport E (started w))))) /\
  (forall c, marked c w ->
     ~ In c (selection (started w)) /\
     ~ In c (scored (snd (continueUnfinishedReport E (started w)))) /\
     marked c (disk (snd (continueUnfinishedReport E (started w))))) /\
  (forall Es c, marked c w -> ~ In c (laterScored Es w)).
Proof.
  intros Hnow. split; [|split; [|split; [|split]]].
  - intros ids. apply selection_prefix.
  - intros a s period Hp. rewrite processAccount_run, Hp.
    split; [reflexivity | apply markedNow_markedState].
  - intros c Hin.
    destruct (continue_accounts E (started w)) as (l & Hi & Ha & Hs).
    apply Hs in Hin. change (scored (started w)) with (@nil string) in Hin.
    cbn [app] in Hin.
    assert (Hnow' : markedNow E c (disk (snd (continueUnfinishedReport E (started w))))).
    { intros row Hr Hc. rewrite Ha in Hr. apply In_markAll in Hr.
      destruct Hr as [[_ Hsn] | [Hl _]]; [exact Hsn|].
      rewrite Hc in Hl. contradiction. }
    split; [apply Hi, Hin|]. split.
    { apply (@selection_unprocessed (started w) c), Hi, Hin. }
    split; [exact Hnow'|].
    intros row Hr Hc. rewrite (Hnow' row Hr Hc). now apply truthy_now.
  - intros c. apply marked_skipped.
  - intros Es. revert w. induction Es as [|E' Es IH]; intros w' c Hm; [intros []|].
    cbn [laterScored]. destruct (marked_skipped E' Hm) as (_ & Hns & Hm').
    intros Hin. apply in_app_or in Hin. destruct Hin as [Hin | Hin].
    + exact (Hns Hin).
    + exact (IH _ c Hm' Hin).
Qed.

Lemma resumption_skips_marked_accounts_witness :
  ~ In "1" (scored (snd (continueUnfinishedReport exampleEnv (started resumedWorld)))).
Proof.
  assert (Hnow : now exampleEnv <> 0%Z) by discriminate.
  destruct (@resumption_skips_marked_accounts exampleEnv resumedWorld Hnow)
    as (_ & _ & _ & H & _).
  apply (H "1").
  intros row [<- | [<- | [<- | []]]]; try discriminate. reflexivity.
Defined.

(** *** A positive count means that an account was scored *)

Lemma batchLoop_nil E processed s : batchLoop E [] processed s = (Ok processed, s).
Proof. reflexivity. Qed.






(** * Further properties of the code *)

(** ** Normalisation: direction Low, and ranges that are not proper *)

(** Goals on canonical rationals, as goals on rationals. *)
Ltac qc_to_q :=
  repeat match goal with
         | H : (_ <= _)%Qc |- _ => unfold Qcle in H
         | H : (_ < _)%Qc |- _ => unfold Qclt in H
         | H : @eq Qc _ _ |- _ => apply (f_equal this) in H
         end;
  try apply Qc_is_canon;
  unfold Qcle, Qclt, Qcminus, Qcplus, Qcmult, Qcopp, Q2Qc in *; cbn [this] in *;
  rewrite ?Qred_correct in *; unfold inject_Z in *.


Section NormalizeLow.

Local Open Scope Qc_scope.

Variable d : signalDefinition.
Hypothesis direction_Low : direction d = "Low".
Hypothesis range : min d < max d.



End NormalizeLow.



Section AnyRange.

Local Open Scope Qc_scope.

Variable d : signalDefinition.
Hypothesis is_directed : directed d.

(** With max <= min the division is never reached. *)
Lemma ramp_improper (q : Qc) :
  max d <= min d -> ramp d q = if Qc_leb (max d) q then 1 else 0.
Proof.
  intros H. unfold ramp. destruct (Qc_leb (max d) q) eqn:Ehi; [reflexivity|].
  apply Qc_leb_gt in Ehi.
  assert (Hlo : q <= min d).
  { apply Qclt_le_weak. eapply Qclt_le_trans; eauto. }
  apply Qc_leb_le in Hlo. now rewrite Hlo.
Qed.

Lemma ramp_in_unit_interval (q : Qc) : 0 <= ramp d q <= 1.
Proof.
  destruct (Qclt_le_dec (min d) (max d)) as [H | H].
  - now apply ramp_unit_interval.
  - rewrite (ramp_improper q H). destruct (Qc_leb (max d) q); split; discriminate.
Qed.

Lemma normalize_clamp (v : val) (q : Qc) :
  toNumber v = Fin q -> normalize d v = VNum (Fin (clamp d q)).
Proof.
  intros Hv. unfold normalize, clamp, ramp. rewrite Hv.
  assert (Hlow : (direction d =? "High") = false -> (direction d =? "Low") = true).
  { destruct is_directed as [-> | ->]; [discriminate | reflexivity]. }
  destruct (direction d =? "High").
  - destruct (Qc_leb (max d) q) eqn:Ehi.
    + apply Qc_leb_le, ge_Fin in Ehi. now rewrite Ehi.
    + apply Qc_leb_gt in Ehi. pose proof Ehi as Hge. apply ge_Fin_false in Hge.
      rewrite Hge. destruct (Qc_leb q (min d)) eqn:Elo.
      * apply Qc_leb_le, le_Fin in Elo. now rewrite Elo.
      * apply Qc_leb_gt in Elo. pose proof Elo as Hle.
        apply le_Fin_false in Hle. rewrite Hle.
        rewrite !sub_Fin, div_Fin; [reflexivity|].
        apply pos_neq_0, lt_minus_pos. eapply Qclt_trans; eauto.
  - rewrite (Hlow eq_refl).
    destruct (Qc_leb (max d) q) eqn:Ehi.
    + apply Qc_leb_le, ge_Fin in Ehi. rewrite Ehi.
      apply (f_equal VNum), (f_equal Fin), Qc_is_canon. reflexivity.
    + apply Qc_leb_gt in Ehi. pose proof Ehi as Hge. apply ge_Fin_false in Hge.
      rewrite Hge. destruct (Qc_leb q (min d)) eqn:Elo.
      * apply Qc_leb_le, le_Fin in Elo. rewrite Elo.
        apply (f_equal VNum), (f_equal Fin), Qc_is_canon. reflexivity.
      * apply Qc_leb_gt in Elo. pose proof Elo as Hle.
        apply le_Fin_false in Hle. rewrite Hle.
        rewrite !sub_Fin, div_Fin; [reflexivity|].
        apply pos_neq_0, lt_minus_pos. eapply Qclt_trans; eauto.
Qed.

Lemma clamp_unit_interval (q : Qc) : 0 <= clamp d q <= 1.
Proof.
  unfold clamp. destruct (ramp_in_unit_interval q) as [H0 H1].
  destruct (direction d =? "High"); [now split|].
  qc_to_q. split; lra.
Qed.

(** X2. For a signal with direction High or Low, [normalize] maps every
    finite number to a finite number of [0,1], whatever min and max are: no
    comparison with the range lets a value through to a division by zero.
    With max <= min the result is 0 or 1, switching at max. *)
Theorem normalize_never_divides_by_zero (v : val) (q : Qc) :
  toNumber v = Fin q ->
  (exists r, normalize d v = VNum (Fin r) /\ 0 <= r <= 1) /\
  (max d <= min d -> direction d = "High" ->
   normalize d v = VNum (Fin (if Qc_leb (max d) q then 1 else 0))) /\
  (max d <= min d -> direction d = "Low" ->
   normalize d v = VNum (Fin (if Qc_leb (max d) q then 0 else 1))).
Proof.
  intros Hv. split; [|split].
  - exists (clamp d q). split; [now apply normalize_clamp | apply clamp_unit_interval].
  - intros H Hd. rewrite (normalize_clamp _ Hv). unfold clamp.
    now rewrite Hd, (ramp_improper q H).
  - intros H Hd. rewrite (normalize_clamp _ Hv). unfold clamp.
    rewrite Hd, (ramp_improper q H). simpl (_ =? _)%string. cbv iota.
    destruct (Qc_leb (max d) q);
      apply (f_equal VNum), (f_equal Fin), Qc_is_canon; reflexivity.
Qed.

(** A value that is not a number is normalised to [NaN]. *)
Lemma normalize_NaN (v : val) : toNumber v = NaN -> normalize d v = VNum NaN.
Proof.
  intros Hv. unfold normalize. rewrite Hv.
  destruct is_directed as [-> | ->]; reflexivity.
Qed.

End AnyRange.

Lemma normalize_never_divides_by_zero_witness :
  normalize pointDefinition (VStr "10") = VNum (Fin 1%Qc).
Proof.
  assert (Hd : directed pointDefinition) by (left; reflexivity).
  assert (Hv : toNumber (VStr "10") = Fin (qc 10 1)).
  { apply (f_equal Fin), Qc_is_canon. reflexivity. }
  destruct (@normalize_never_divides_by_zero pointDefinition Hd _ _ Hv)
    as (_ & H & _).
  apply H; [discriminate | reflexivity].
Defined.

(** ** The score of an account *)

Lemma add_NaN_r (x : num) : add x NaN = NaN.
Proof. now destruct x. Qed.

Lemma sumList_NaN (l1 l2 : list num) : sumList (l1 ++ NaN :: l2) = NaN.
Proof. rewrite sumList_insert. apply add_NaN_r. Qed.

Lemma contribution_NaN (raw : object val) (d : signalDefinition) :
  included d = true -> directed d -> toNumber (getOr raw (name d)) = NaN ->
  contribution raw d = NaN.
Proof.
  intros Hi Hd Hv. unfold contribution. rewrite Hi.
  now rewrite (normalize_NaN Hd _ Hv).
Qed.

(** X3. One value that is not a number spoils the score: when an included
    Number signal with direction High or Low has a raw value that converts
    to [NaN], the sum of the signal scores and the score of the account are
    [NaN], whatever the other signals, the weights and their sum are.  Such
    values are a number with a thousands separator, the placeholder of an
    empty report cell, and the value of a signal that the report did not
    deliver. *)
Theorem non_numeric_value_makes_score_NaN :
  (forall defs sw a raw d,
     In d defs -> included d = true -> directed d ->
     toNumber (getOr raw (name d)) = NaN ->
     scoreSum (processSignals defs sw a raw) = NaN /\
     score (processSignals defs sw a raw) = NaN) /\
  toNumber (rawSignalOf "1,234") = NaN /\
  toNumber (rawSignalOf " --") = NaN /\
  (forall k, toNumber (getOr [] k) = NaN).
Proof.
  split; [|repeat split].
  intros defs sw a raw d Hin Hi Hd Hv.
  assert (Hs : scoreSum (processSignals defs sw a raw) = NaN).
  { rewrite scoreSum_processSignals.
    destruct (in_split _ _ Hin) as (l1 & l2 & ->).
    rewrite map_app. cbn [map]. rewrite (contribution_NaN raw Hi Hd Hv).
    apply sumList_NaN. }
  split; [exact Hs|].
  destruct (score_processSignals defs sw a raw) as [-> _]. now rewrite Hs.
Qed.

Lemma non_numeric_value_makes_score_NaN_witness :
  score (processSignals [ctrDefinition; costDefinition] (ofZ 3) "1"
           [("Ctr", VNum (Fin (qc 5 100))); ("Cost", VStr "1,234")]) = NaN.
Proof.
  destruct non_numeric_value_makes_score_NaN as (H & _).
  apply (H [ctrDefinition; costDefinition] (ofZ 3) "1" _ costDefinition).
  - right. left. reflexivity.
  - reflexivity.
  - right. reflexivity.
  - reflexivity.
Defined.

Section ScoreRange.

Local Open Scope Qc_scope.

Variable raw : object val.

Lemma contribution_bounded (d : signalDefinition) :
  (included d = true ->
   directed d /\ 0 <= weight d /\ exists q, toNumber (getOr raw (name d)) = Fin q) ->
  exists c t, contribution raw d = Fin c /\ weightShare d = Fin t /\ 0 <= c <= t.
Proof.
  intros H. unfold contribution, weightShare.
  destruct (included d).
  - destruct (H eq_refl) as (Hd & Hw & q & Hq).
    rewrite (normalize_clamp Hd _ Hq). cbn [toNumber mul].
    exists (clamp d q * weight d), (weight d). repeat split.
    + destruct (clamp_unit_interval d q) as [H0 H1]. qc_to_q. nra.
    + destruct (clamp_unit_interval d q) as [H0 H1]. qc_to_q. nra.
  - exists 0, 0. repeat split; apply Qcle_refl.
Qed.

Lemma sums_bounded (defs : list signalDefinition) :
  wellScored raw defs ->
  exists c t, sumList (map (contribution raw) defs) = Fin c
              /\ sumList (map weightShare defs) = Fin t /\ 0 <= c <= t.
Proof.
  induction defs as [|d defs IH]; intros H.
  - exists 0, 0. repeat split; apply Qcle_refl.
  - destruct IH as (c & t & Hc & Ht & H0 & H1).
    { intros d' Hin. apply H. now right. }
    destruct (contribution_bounded (H d (or_introl eq_refl)))
      as (c1 & t1 & Hc1 & Ht1 & H2 & H3).
    cbn [map]. rewrite !sumList_cons, Hc, Ht, Hc1, Ht1. cbn [add].
    exists (c1 + c), (t1 + t). repeat split; qc_to_q; lra.
Qed.

(** X4. When every included Number signal has direction High or Low, a
    weight that is not negative and a raw value that is a finite number, and
    the weights sum to a positive number, the sum of the signal scores lies
    between 0 and the sum of the weights, and the score of the account is a
    finite number of [0,1]. *)
Theorem score_within_unit_interval (defs : list signalDefinition)
  (a : string) (t : Qc) :
  wellScored raw defs ->
  calculateSumWeightsFrom defs (ofZ 0) = Fin t -> 0 < t ->
  exists c r,
    scoreSum (processSignals defs (Fin t) a raw) = Fin c /\ 0 <= c <= t /\
    score (processSignals defs (Fin t) a raw) = Fin r /\ 0 <= r <= 1.
Proof.
  intros Hw Ht Hpos.
  destruct (sums_bounded Hw) as (c & t' & Hc & Ht' & H0 & H1).
  rewrite calculateSumWeightsFrom_sum in Ht. fold (sumList (map weightShare defs)) in Ht.
  rewrite Ht in Ht'. injection Ht' as <-.
  exists c, (c / t). rewrite scoreSum_processSignals, Hc.
  split; [reflexivity|]. split; [now split|].
  destruct (score_processSignals defs (Fin t) a raw) as [-> _].
  rewrite scoreSum_processSignals, Hc.
  split; [apply div_Fin; now apply pos_neq_0|].
  now apply Qcdiv_unit_interval.
Qed.

End ScoreRange.

Lemma score_within_unit_interval_witness :
  exists c r,
    scoreSum (processSignals [ctrDefinition; costDefinition] (Fin (qc 3 1)) "1"
                [("Ctr", VNum (Fin (qc 5 100))); ("Cost", VStr "25")]) = Fin c
    /\ (0 <= c <= qc 3 1)%Qc /\
    score (processSignals [ctrDefinition; costDefinition] (Fin (qc 3 1)) "1"
             [("Ctr", VNum (Fin (qc 5 100))); ("Cost", VStr "25")]) = Fin r
    /\ (0 <= r <= 1)%Qc.
Proof.
  apply score_within_unit_interval.
  - intros d [<- | [<- | []]] _.
    + split; [left; reflexivity|]. split; [discriminate|].
      exists (qc 5 100). reflexivity.
    + split; [right; reflexivity|]. split; [discriminate|].
      exists (qc 25 1). apply (f_equal Fin), Qc_is_canon. reflexivity.
  - apply (f_equal Fin), Qc_is_canon. reflexivity.
  - reflexivity.
Defined.

(** ** The rows of the report *)

Lemma get_set_eq {A : Type} (o : object A) (k : string) (a : A) :
  get (set o k a) k = Some a.
Proof.
  induction o as [|[k' x] o IH]; cbn.
  - now rewrite String.eqb_refl.
  - destruct (k' =? k) eqn:K; cbn.
    + now rewrite String.eqb_refl.
    + now rewrite K.
Qed.

Lemma get_set_neq {A : Type} (o : object A) (k k' : string) (a : A) :
  k <> k' -> get (set o k a) k' = get o k'.
Proof.
  intros H. apply String.eqb_neq in H.
  induction o as [|[k0 x] o IH]; cbn.
  - now rewrite H.
  - destruct (k0 =? k) eqn:K; cbn.
    + apply String.eqb_eq in K. subst k0. now rewrite H.
    + now rewrite IH.
Qed.

Lemma holdsRaw_set raw signals d sig :
  holdsRaw raw signals ->
  Signal.value sig = getOr raw (name d) ->
  Signal.displayValue sig = getOr raw (name d) ->
  holdsRaw raw (set signals (name d) sig).
Proof.
  intros H Hv Hd k signal Hg.
  destruct (String.eqb_spec (name d) k) as [<- | Hne].
  - rewrite get_set_eq in Hg. injection Hg as <-. now split.
  - rewrite get_set_neq in Hg by exact Hne. now apply H.
Qed.

Lemma processSignalsFrom_holdsRaw defs raw signals sum :
  holdsRaw raw signals ->
  holdsRaw raw (fst (processSignalsFrom defs raw signals sum)).
Proof.
  revert signals sum. induction defs as [|d defs IH]; intros signals sum H;
    [exact H|].
  cbn [processSignalsFrom]. destruct (includeInReport d =? "Yes"); [|now apply IH].
  destruct (type d =? "Number"); apply IH; now apply holdsRaw_set.
Qed.

Lemma processSignalsFrom_keeps defs raw signals sum k :
  get signals k <> None ->
  get (fst (processSignalsFrom defs raw signals sum)) k <> None.
Proof.
  revert signals sum. induction defs as [|d defs IH]; intros signals sum H;
    [exact H|].
  assert (Hset : forall sig, get (set signals (name d) sig) k <> None).
  { intros sig. destruct (String.eqb_spec (name d) k) as [<- | Hne].
    - now rewrite get_set_eq.
    - now rewrite get_set_neq. }
  cbn [processSignalsFrom]. destruct (includeInReport d =? "Yes"); [|now apply IH].
  destruct (type d =? "Number"); apply IH, Hset.
Qed.

Lemma processSignalsFrom_defined defs raw signals sum d :
  In d defs -> shown d = true ->
  get (fst (processSignalsFrom defs raw signals sum)) (name d) <> None.
Proof.
  revert signals sum. induction defs as [|d' defs IH]; intros signals sum Hin Hs;
    [destruct Hin|].
  cbn [processSignalsFrom]. destruct Hin as [-> | Hin].
  - unfold shown in Hs. rewrite Hs.
    destruct (type d =? "Number"); apply processSignalsFrom_keeps;
      now rewrite get_set_eq.
  - destruct (includeInReport d' =? "Yes"); [|now apply IH].
    destruct (type d' =? "Number"); now apply IH.
Qed.

(** The signals of a scored account: one for every shown definition, each
    with the raw value of its name. *)
Lemma signals_processSignals defs sw a raw d :
  In d defs -> shown d = true ->
  exists signal, get (signals (processSignals defs sw a raw)) (name d) = Some signal
                 /\ Signal.value signal = getOr raw (name d)
                 /\ Signal.displayValue signal = getOr raw (name d).
Proof.
  intros Hin Hs. unfold processSignals.
  pose proof (@processSignalsFrom_defined defs raw [] (ofZ 0) d Hin Hs) as Hd.
  pose proof (@processSignalsFrom_holdsRaw defs raw [] (ofZ 0)) as Hr.
  destruct (processSignalsFrom defs raw [] (ofZ 0)) as [sg sum]. cbn [fst signals] in *.
  destruct (get sg (name d)) as [signal|] eqn:G; [|congruence].
  exists signal. split; [reflexivity|]. apply Hr; [|exact G].
  intros k s' H. discriminate.
Qed.

Lemma displayValues_scored defs sw a raw defs' s :
  incl defs' defs ->
  displayValues defs' (processSignals defs sw a raw) s
  = (Ok (map (fun d => getOr raw (name d)) (filter shown defs')), s).
Proof.
  induction defs' as [|d defs' IH]; intros Hi; [reflexivity|].
  cbn [displayValues filter]. fold (shown d). destruct (shown d) eqn:Hs.
  - destruct (@signals_processSignals defs sw a raw d) as (signal & -> & _ & Hd);
      [apply Hi; now left | exact Hs |].
    unfold bind. rewrite IH by (intros x Hx; apply Hi; now right).
    cbn [map]. unfold ret. now rewrite Hd.
  - apply IH. intros x Hx. apply Hi. now right.
Qed.

Lemma score_of_processSignals defs sw a raw :
  score (processSignals defs sw a raw)
  = div (sumList (map (contribution raw) defs)) sw.
Proof.
  destruct (score_processSignals defs sw a raw) as [-> _].
  now rewrite scoreSum_processSignals.
Qed.

Lemma length_dataRow defs raw sc :
  List.length (dataRow defs raw sc) = List.length (headerOf defs).
Proof.
  unfold dataRow, headerOf. fold shown.
  rewrite !length_app, !length_map. reflexivity.
Qed.

(** X5. For an account scored against the catalogue in use, [writeDataRow]
    does not throw: every shown signal is found in the account.  It appends
    one row to the report and changes no other row: an empty first cell, the
    raw value of every shown signal in the order of the catalogue, and the
    score last; the row has as many cells as the header row. *)
Theorem data_row_lists_raw_values_and_score (defs : list signalDefinition)
  (sw : num) (a : string) (raw : object val) (s : state) (url : string)
  (sheet : reportSheet) :
  signalDefinitions (mem s) = defs ->
  currentSheetUrl s = Some url ->
  get (runSheets (disk s)) url = Some sheet ->
  fst (writeDataRow (processSignals defs sw a raw) s) = Ok tt /\
  get (runSheets (disk (snd (writeDataRow (processSignals defs sw a raw) s)))) url
  = Some {| headerRow := headerRow sheet;
            dataRows := dataRows sheet
                        ++ [dataRow defs raw (score (processSignals defs sw a raw))] |} /\
  List.length (dataRow defs raw (score (processSignals defs sw a raw)))
  = List.length (headerOf defs).
Proof.
  intros Hdefs Hu Hg. unfold writeDataRow.
  erewrite bind_Ok by (rewrite getCurrentRunSheet_run, Hu; reflexivity).
  erewrite bind_Ok by reflexivity.
  change (signalDefinitions (mem (cached url s))) with (signalDefinitions (mem s)).
  rewrite Hdefs.
  erewrite bind_Ok by (apply displayValues_scored, incl_refl).
  unfold updateSheet, updDisk. cbn [fst snd disk cached].
  rewrite Hg. cbn [runSheets withRunSheets]. rewrite get_set_eq.
  repeat split. apply length_dataRow.
Qed.

Lemma data_row_lists_raw_values_and_score_witness :
  fst (writeDataRow ctrInfo (started staleOpenWorld)) = Ok tt.
Proof.
  apply (@data_row_lists_raw_values_and_score
           [ctrDefinition] (Fin (qc 2 1)) "1"
           (readRow [ctrDefinition] (fun _ => "5%") [])
           (started staleOpenWorld) "run-0"
           {| headerRow := None; dataRows := [] |});
    reflexivity.
Defined.

(** ** The order of the accounts *)

Section SortByScore.

Local Open Scope Qc_scope.



Lemma insertByScore_Permutation (a : accountInfo) (l : list accountInfo) :
  Permutation (insertByScore a l) (a :: l).
Proof.
  induction l as [|b l IH]; cbn [insertByScore]; [reflexivity|].
  destruct (gt (sub (score b) (score a)) (ofZ 0)); [|reflexivity].
  rewrite IH. apply perm_swap.
Qed.

Lemma sortByScore_Permutation (l : list accountInfo) :
  Permutation (sortByScore l) l.
Proof.
  induction l as [|a l IH]; [reflexivity|].
  change (sortByScore (a :: l)) with (insertByScore a (sortByScore l)).
  rewrite insertByScore_Permutation. now apply perm_skip.
Qed.







End SortByScore.


(** ** The raw signals of an account *)

Lemma get_readRow defs row rawSignals k :
  get (readRow defs row rawSignals) k
  = if named defs k then Some (rawSignalOf (row k)) else get rawSignals k.
Proof.
  revert rawSignals. induction defs as [|d defs IH]; intros rawSignals;
    [reflexivity|].
  cbn [readRow]. rewrite IH. unfold named. cbn [map existsb].
  fold (named defs k). destruct (named defs k); [now rewrite orb_true_r|].
  rewrite orb_false_r. destruct (String.eqb_spec k (name d)) as [-> | Hne].
  - now rewrite get_set_eq.
  - apply get_set_neq. congruence.
Qed.

Lemma named_In defs k : named defs k = true <-> In k (map name defs).
Proof.
  unfold named. rewrite existsb_exists. split.
  - intros (x & Hx & E). apply String.eqb_eq in E. now subst.
  - intros H. exists k. split; [exact H | apply String.eqb_refl].
Qed.

Lemma get_readRows defs rows k :
  get (fold_left (fun rawSignals row => readRow defs row rawSignals) rows []) k
  = match rev rows with
    | [] => None
    | row :: _ => if named defs k then Some (rawSignalOf (row k)) else None
    end.
Proof.
  induction rows as [|row rows IH] using rev_ind; [reflexivity|].
  rewrite fold_left_app, rev_app_distr. cbn [fold_left rev app].
  rewrite get_readRow. destruct (named defs k); [reflexivity|].
  rewrite IH. now destruct (rev rows).
Qed.

Lemma calculateRawSignals_run E a s :
  calculateRawSignals E a s
  = match findSetting "ReportPeriod" (settings (mem s)) with
    | Some period => (Ok (rawSignalsOf E a period s), s)
    | None => (Throw (notSet "ReportPeriod"), s)
    end.
Proof.
  unfold calculateRawSignals, getSignalDefinitions, bind, readMem.
  cbn [fst snd]. rewrite getSetting_run.
  now destruct (findSetting "ReportPeriod" (settings (mem s))).
Qed.

(** X7. [calculateRawSignals] asks for the report of the account over the
    period of the setting ReportPeriod, with the names of the catalogue as
    its fields, and throws when the setting is missing.  With no report row
    it returns no signal at all; otherwise every signal of the catalogue gets
    the value that the last row has for it, with a percentage divided by
    100, and no other name gets a value.  The state is left as it is. *)
Theorem raw_signals_come_from_last_row (E : env) (a : string) (s : state) :
  (findSetting "ReportPeriod" (settings (mem s)) = None ->
   calculateRawSignals E a s = (Throw (notSet "ReportPeriod"), s)) /\
  (forall period,
     findSetting "ReportPeriod" (settings (mem s)) = Some period ->
     exists raw,
       calculateRawSignals E a s = (Ok raw, s) /\
       (accountReport E a (map name (signalDefinitions (mem s))) period = [] ->
        raw = []) /\
       (forall rows row d,
          accountReport E a (map name (signalDefinitions (mem s))) period
          = rows ++ [row] ->
          In d (signalDefinitions (mem s)) ->
          get raw (name d) = Some (rawSignalOf (row (name d)))) /\
       (forall k, get raw k <> None ->
          accountReport E a (map name (signalDefinitions (mem s))) period <> []
          /\ In k (map name (signalDefinitions (mem s))))).
Proof.
  split.
  - intros H. now rewrite calculateRawSignals_run, H.
  - intros period H. exists (rawSignalsOf E a period s).
    rewrite calculateRawSignals_run, H. split; [reflexivity|].
    unfold rawSignalsOf.
    set (defs := signalDefinitions (mem s)).
    set (rows := accountReport E a (map name defs) period).
    split; [|split].
    + intros Hr. now rewrite Hr.
    + intros rows' row d Hr Hin. rewrite get_readRows, Hr, rev_app_distr.
      cbn [rev app].
      assert (Hn : named defs (name d) = true).
      { apply named_In. now apply in_map. }
      now rewrite Hn.
    + intros k Hk. rewrite get_readRows in Hk.
      destruct rows as [|r rows'] using rev_ind; [now elim Hk|].
      split; [now destruct rows'|].
      rewrite rev_app_distr in Hk. cbn [rev app] in Hk.
      apply named_In. now destruct (named defs k).
Qed.

Lemma raw_signals_come_from_last_row_witness :
  exists raw,
    calculateRawSignals exampleEnv "1" (started staleOpenWorld)
    = (Ok raw, started staleOpenWorld) /\
    get raw "Ctr" = Some (rawSignalOf "5%").
Proof.
  destruct (raw_signals_come_from_last_row exampleEnv "1" (started staleOpenWorld))
    as (_ & H).
  destruct (H (VStr "LAST_WEEK") eq_refl) as (raw & Hr & _ & Hlast & _).
  exists raw. split; [exact Hr|].
  apply (Hlast [] (fun _ => "5%") ctrDefinition); [reflexivity | now left].
Defined.

(** ** The colours and formats of a data row *)

Lemma getSetting_optional key s : getSetting key false s = (Ok (optional key s), s).
Proof.
  rewrite getSetting_run. unfold optional.
  now destruct (findSetting key (settings (mem s))).
Qed.

Lemma getColors_run fg bg s : getColors fg bg s = (Ok (colors fg bg s), s).
Proof.
  unfold getColors. erewrite bind_Ok by apply getSetting_optional.
  erewrite bind_Ok by apply getSetting_optional. reflexivity.
Qed.

Lemma getNumberColors_run numericValue s :
  getNumberColors numericValue s = (Ok (numberColors s numericValue), s).
Proof.
  unfold getNumberColors.
  do 5 (erewrite bind_Ok by apply getSetting_optional).
  unfold numberColors. fold (reaches numericValue "Level5MinValue" s).
  fold (reaches numericValue "Level4MinValue" s).
  fold (reaches numericValue "Level3MinValue" s).
  fold (reaches numericValue "Level2MinValue" s).
  fold (reaches numericValue "Level1MinValue" s).
  repeat match goal with
         | |- context [if reaches ?v ?k ?s then _ else _] =>
             destruct (reaches v k s); [apply getColors_run|]
         end.
  reflexivity.
Qed.

Lemma findSetting_truthy key l v : findSetting key l = Some v -> truthy v = true.
Proof.
  induction l as [|st l IH]; [discriminate|].
  cbn [findSetting]. destruct (Setting.key st =? key); cbn [andb]; [|exact IH].
  destruct (truthy (Setting.value st)) eqn:T; [|exact IH].
  intros H. injection H as <-. exact T.
Qed.

Lemma reaches_unset v key s :
  findSetting key (settings (mem s)) = None -> reaches v key s = false.
Proof. intros H. unfold reaches, optional. now rewrite H. Qed.

Lemma reaches_NaN key s : reaches (VNum NaN) key s = false.
Proof.
  unfold reaches. apply andb_false_iff. right.
  unfold gtValue, JS.gt. cbn [toNumber]. now destruct (toNumber (optional key s)).
Qed.

Lemma reaches_undefined key s : reaches VUndef key s = false.
Proof.
  unfold reaches. apply andb_false_iff. right.
  unfold gtValue, JS.gt. cbn [toNumber]. now destruct (toNumber (optional key s)).
Qed.

Lemma reaches_number key s (l q : Qc) v :
  findSetting key (settings (mem s)) = Some (VNum (Fin l)) ->
  toNumber v = Fin q -> reaches v key s = Qc_ltb l q.
Proof.
  intros H Hv. unfold reaches, optional. rewrite H.
  rewrite (findSetting_truthy _ _ H). cbn [andb].
  unfold gtValue, JS.gt. destruct v; cbn [toNumber] in *; now rewrite ?Hv.
Qed.

(** X8. A cell gets no colours, [null] for the font and for the background,
    when none of the five thresholds is set, whatever its value is; and
    whatever the thresholds are when the value is [NaN], as the score of an
    account is when the weights sum to zero, or [undefined]. *)
Theorem no_colours_without_threshold_or_number :
  (forall s v, noThreshold s -> getNumberColors v s = (Ok (VNull, VNull), s)) /\
  (forall s, getNumberColors (VNum NaN) s = (Ok (VNull, VNull), s)) /\
  (forall s, getNumberColors VUndef s = (Ok (VNull, VNull), s)).
Proof.
  split; [|split].
  - intros s v (H1 & H2 & H3 & H4 & H5). rewrite getNumberColors_run.
    unfold numberColors. now rewrite !reaches_unset.
  - intros s. rewrite getNumberColors_run. unfold numberColors.
    now rewrite !reaches_NaN.
  - intros s. rewrite getNumberColors_run. unfold numberColors.
    now rewrite !reaches_undefined.
Qed.

Lemma no_colours_without_threshold_or_number_witness :
  getNumberColors (VNum (Fin (qc 1 2))) (started idleWorld)
  = (Ok (VNull, VNull), started idleWorld).
Proof.
  apply (proj1 no_colours_without_threshold_or_number).
  repeat split.
Defined.

Section HeatMap.

Local Open Scope Qc_scope.

Variable s : state.
Variables l1 l2 l3 l4 l5 : Qc.
Hypothesis levels : thresholds s l1 l2 l3 l4 l5.
Hypothesis ascending : l1 <= l2 /\ l2 <= l3 /\ l3 <= l4 /\ l4 <= l5.

(** X9. With the five thresholds set to numbers in ascending order, a
    numeric value gets the colours of the highest level whose threshold it
    exceeds: those of level 5 above the fifth threshold, those of level k
    above the k-th threshold up to the next one, and none up to the first
    threshold.  A value equal to a threshold has not reached its level. *)
Theorem colours_of_the_highest_level_exceeded (q : Qc) :
  (l5 < q ->
   getNumberColors (VNum (Fin q)) s = (Ok (colors "Level5FgColor" "Level5BgColor" s), s)) /\
  (l4 < q <= l5 ->
   getNumberColors (VNum (Fin q)) s = (Ok (colors "Level4FgColor" "Level4BgColor" s), s)) /\
  (l3 < q <= l4 ->
   getNumberColors (VNum (Fin q)) s = (Ok (colors "Level3FgColor" "Level3BgColor" s), s)) /\
  (l2 < q <= l3 ->
   getNumberColors (VNum (Fin q)) s = (Ok (colors "Level2FgColor" "Level2BgColor" s), s)) /\
  (l1 < q <= l2 ->
   getNumberColors (VNum (Fin q)) s = (Ok (colors "Level1FgColor" "Level1BgColor" s), s)) /\
  (q <= l1 ->
   getNumberColors (VNum (Fin q)) s = (Ok (VNull, VNull), s)).
Proof.
  destruct levels as (H1 & H2 & H3 & H4 & H5).
  destruct ascending as (A1 & A2 & A3 & A4).
  assert (Hq : toNumber (VNum (Fin q)) = Fin q) by reflexivity.
  rewrite getNumberColors_run. unfold numberColors.
  rewrite (@reaches_number _ _ _ _ _ H1 Hq), (@reaches_number _ _ _ _ _ H2 Hq),
    (@reaches_number _ _ _ _ _ H3 Hq), (@reaches_number _ _ _ _ _ H4 Hq),
    (@reaches_number _ _ _ _ _ H5 Hq).
  assert (Hyes : forall l, l < q -> Qc_ltb l q = true) by (intros; now apply Qc_ltb_lt).
  assert (Hno : forall l, q <= l -> Qc_ltb l q = false).
  { intros l Hl. destruct (Qc_ltb l q) eqn:E; [|reflexivity].
    apply Qc_ltb_lt in E. now apply Qclt_not_le in E. }
  repeat split; intros H;
    try match type of H with _ /\ _ => destruct H as [Ha Hb] end;
    repeat match goal with
           | |- context [Qc_ltb ?l q] =>
               first [ rewrite (Hyes l) by (qc_to_q; lra)
                     | rewrite (Hno l) by (qc_to_q; lra) ]
           end;
    reflexivity.
Qed.

End HeatMap.

Lemma colours_of_the_highest_level_exceeded_witness :
  getNumberColors (VNum (Fin (qc 1 2))) heatState
  = (Ok (VStr "#000000", VStr "#ffcc00"), heatState).
Proof.
  assert (L : thresholds heatState (qc 2 10) (qc 4 10) (qc 6 10) (qc 8 10) (qc 9 10)).
  { repeat split. }
  assert (A : (qc 2 10 <= qc 4 10 /\ qc 4 10 <= qc 6 10 /\ qc 6 10 <= qc 8 10
               /\ qc 8 10 <= qc 9 10)%Qc).
  { repeat split; discriminate. }
  destruct (colours_of_the_highest_level_exceeded L A (qc 1 2))
    as (_ & _ & _ & H & _).
  apply H. split; [reflexivity | discriminate].
Defined.

Lemma pad_length {A : Type} (a : array A) (n : nat) :
  (List.length a <= n)%nat -> List.length (pad a n) = n.
Proof. intros H. unfold pad. rewrite length_app, repeat_length. lia. Qed.

Lemma pad_succ {A : Type} (a : array A) (n : nat) :
  (List.length a <= n)%nat -> pad a (S n) = pad a n ++ [None].
Proof.
  intros H. unfold pad. replace (S n - List.length a)%nat with (S (n - List.length a)) by lia.
  rewrite <- app_assoc. f_equal. cbn [repeat]. apply repeat_cons.
Qed.

Lemma pad_full {A : Type} (a : array A) : pad a (List.length a) = a.
Proof. unfold pad. rewrite Nat.sub_diag. apply app_nil_r. Qed.

(** An assignment behind the end of an array leaves holes up to its index;
    at the end of the array it appends. *)
Lemma assign_pad {A : Type} (a : array A) (i : nat) (x : A) :
  (List.length a <= i)%nat -> assign a i x = pad a i ++ [Some x].
Proof.
  revert a. induction i as [|i IH]; intros a H.
  - destruct a; [reflexivity | cbn in H; lia].
  - destruct a as [|y a].
    + cbn [assign]. rewrite (IH []) by (cbn; lia).
      unfold pad. cbn [List.length app]. now rewrite !Nat.sub_0_r.
    + cbn [assign]. cbn in H. rewrite IH by lia. reflexivity.
Qed.

Lemma assign_end {A : Type} (a : array A) (x : A) :
  assign a (List.length a) x = a ++ [Some x].
Proof. rewrite assign_pad by lia. now rewrite pad_full. Qed.

Lemma assign_length {A : Type} (a : array A) (i : nat) (x : A) :
  (List.length a <= i)%nat -> List.length (assign a i x) = S i.
Proof.
  intros H. rewrite assign_pad by exact H.
  rewrite length_app, pad_length by exact H. cbn. lia.
Qed.

Lemma getStringColors_run v s :
  getStringColors v s = (Ok (colors "StringFgColor" "StringBgColor" s), s).
Proof. apply getColors_run. Qed.

Lemma displayValues_state defs info s :
  displayValues defs info s = (fst (displayValues defs info s), s).
Proof.
  pose proof (displayValues_pure defs info s) as H. unfold unchanged in H.
  destruct (displayValues defs info s) as [r s']. cbn in *. now subst.
Qed.

Lemma displayValues_shown d defs info s values :
  shown d = true ->
  fst (displayValues (d :: defs) info s) = Ok values ->
  exists signal values',
    get (signals info) (name d) = Some signal /\
    fst (displayValues defs info s) = Ok values' /\
    values = Signal.displayValue signal :: values'.
Proof.
  intros Hs. cbn [displayValues]. unfold shown in Hs. rewrite Hs.
  destruct (get (signals info) (name d)) as [signal|]; [|discriminate].
  unfold bind. rewrite displayValues_state.
  destruct (fst (displayValues defs info s)) as [values'|]; [|discriminate].
  cbn. intros H. injection H as <-. now exists signal, values'.
Qed.

Lemma assign_at_length {A : Type} (a : array A) (i : nat) (x : A) :
  List.length a = i -> assign a i x = a ++ [Some x].
Proof. intros <-. apply assign_end. Qed.

Lemma formatCells_run defs info s :
  forall colIndex formats values,
    fst (displayValues defs info s) = Ok values ->
    (List.length (numberFormats formats) <= colIndex)%nat ->
    List.length (fontColors formats) = colIndex ->
    List.length (backgroundColors formats) = colIndex ->
    exists formats',
      formatCells defs info colIndex formats s
      = (Ok ((colIndex + List.length values)%nat, formats'), s) /\
      (List.length (numberFormats formats') <= colIndex + List.length values)%nat /\
      pad (numberFormats formats') (colIndex + List.length values)
      = pad (numberFormats formats) colIndex ++ map cellFormat (filter shown defs) /\
      fontColors formats'
      = fontColors formats
        ++ map (fun d => Some (fst (cellColors s info d))) (filter shown defs) /\
      backgroundColors formats'
      = backgroundColors formats
        ++ map (fun d => Some (snd (cellColors s info d))) (filter shown defs).
Proof.
  induction defs as [|d defs IH]; intros colIndex formats values Hv Hn Hf Hb.
  - cbn in Hv. injection Hv as <-. exists formats. cbn [List.length filter map].
    rewrite Nat.add_0_r, !app_nil_r. repeat split. exact Hn.
  - cbn [formatCells filter]. fold (shown d). destruct (shown d) eqn:Hs.
    + destruct (@displayValues_shown d defs info s values Hs Hv)
        as (signal & values' & Hg & Hv' & ->).
      rewrite Hg.
      set (colors := cellColors s info d).
      assert (Hc : (if type d =? "Number"
                    then getNumberColors
                           match Signal.normalizedValue signal with
                           | Some v => v
                           | None => VUndef
                           end
                    else if type d =? "String"
                         then getStringColors (Signal.value signal)
                         else ret (VNum (ofZ 2), VUndef)) s = (Ok colors, s)).
      { unfold colors, cellColors. rewrite Hg. destruct (type d =? "Number").
        - apply getNumberColors_run.
        - destruct (type d =? "String"); [apply getStringColors_run | reflexivity]. }
      erewrite bind_Ok by exact Hc.
      rewrite (assign_at_length _ _ Hf), (assign_at_length _ _ Hb).
      set (formats1 :=
             {| numberFormats :=
                  if type d =? "Number"
                  then assign (numberFormats formats) colIndex (format d)
                  else numberFormats formats;
                fontColors := fontColors formats ++ [Some (fst colors)];
                backgroundColors := backgroundColors formats ++ [Some (snd colors)] |}).
      assert (Hn1 : (List.length (numberFormats formats1) <= S colIndex)%nat).
      { cbn [formats1 numberFormats]. destruct (type d =? "Number"); [|lia].
        rewrite assign_length by exact Hn. lia. }
      assert (Hp1 : pad (numberFormats formats1) (S colIndex)
                    = pad (numberFormats formats) colIndex ++ [cellFormat d]).
      { cbn [formats1 numberFormats]. unfold cellFormat.
        destruct (type d =? "Number").
        - rewrite <- (assign_pad _ _ Hn).
          rewrite <- (assign_length (numberFormats formats) (format d) Hn).
          apply pad_full.
        - now apply pad_succ. }
      destruct (IH (S colIndex) formats1 values' Hv' Hn1)
        as (formats' & Hr & Hn' & Hp & Hfc & Hbc).
      { cbn [formats1 fontColors]. rewrite length_app. cbn. lia. }
      { cbn [formats1 backgroundColors]. rewrite length_app. cbn. lia. }
      exists formats'. cbn [List.length].
      replace (colIndex + S (List.length values'))%nat
        with (S colIndex + List.length values')%nat by lia.
      split; [exact Hr|]. split; [exact Hn'|].
      rewrite Hp, Hp1, Hfc, Hbc. cbn [formats1 fontColors backgroundColors map].
      now rewrite <- !app_assoc.
    + cbn [displayValues] in Hv. unfold shown in Hs. rewrite Hs in Hv.
      now apply IH.
Qed.

(** X10. Once the values of a row are found, the formatting part of
    [writeDataRow] does not throw.  The three rows of formats that it hands
    to the data range have one entry for every shown signal, in the order of
    the catalogue, and one for the score: as many as the data range has
    cells.  The number formats are those of the Number signals, with a hole
    for every other signal, and 0.00% for the score; the colours are those
    of [getNumberColors] for a Number signal and for the score, those of the
    string settings for a String signal, and no colour is left out. *)
Theorem formats_fill_the_data_range (info : accountInfo) (s : state)
  (values : list val) :
  fst (displayValues (signalDefinitions (mem s)) info s) = Ok values ->
  exists formats,
    formatDataRow info s = (Ok formats, s) /\
    pad (numberFormats formats) (S (List.length values))
    = map cellFormat (filter shown (signalDefinitions (mem s))) ++ [Some "0.00%"] /\
    fontColors formats
    = map (fun d => Some (fst (cellColors s info d)))
          (filter shown (signalDefinitions (mem s)))
      ++ [Some (fst (numberColors s (VNum (score info))))] /\
    backgroundColors formats
    = map (fun d => Some (snd (cellColors s info d)))
          (filter shown (signalDefinitions (mem s)))
      ++ [Some (snd (numberColors s (VNum (score info))))] /\
    List.length (numberFormats formats) = S (List.length values) /\
    List.length (fontColors formats) = S (List.length values) /\
    List.length (backgroundColors formats) = S (List.length values).
Proof.
  intros Hv. unfold formatDataRow. erewrite bind_Ok by reflexivity.
  destruct (@formatCells_run (signalDefinitions (mem s)) info s 0
              {| numberFormats := []; fontColors := []; backgroundColors := [] |}
              values Hv) as (formats & Hr & Hn & Hp & Hf & Hb);
    [cbn; lia | reflexivity | reflexivity |].
  cbn [Nat.add numberFormats fontColors backgroundColors pad List.length
       Nat.sub repeat app] in Hr, Hn, Hp, Hf, Hb.
  erewrite bind_Ok by exact Hr. cbv beta iota.
  erewrite bind_Ok by apply getNumberColors_run.
  assert (Hl : List.length (filter shown (signalDefinitions (mem s)))
               = List.length values).
  { pose proof (f_equal (@List.length _) Hp) as Hl.
    now rewrite pad_length, length_map in Hl by exact Hn. }
  assert (Hlf : List.length (fontColors formats) = List.length values)
    by (now rewrite Hf, length_map).
  assert (Hlb : List.length (backgroundColors formats) = List.length values)
    by (now rewrite Hb, length_map).
  eexists. split; [reflexivity|].
  cbn [numberFormats fontColors backgroundColors].
  rewrite (assign_pad _ _ Hn), (assign_at_length _ _ Hlf),
    (assign_at_length _ _ Hlb), Hp, Hf, Hb.
  repeat split.
  - unfold pad. rewrite length_app, length_map, Hl. cbn [List.length].
    replace (S (List.length values) - (List.length values + 1))%nat with 0%nat by lia.
    apply app_nil_r.
  - rewrite length_app, length_map, Hl. cbn. lia.
  - rewrite length_app, length_map, Hl. cbn. lia.
  - rewrite length_app, length_map, Hl. cbn. lia.
Qed.

Lemma formats_fill_the_data_range_witness :
  exists formats,
    formatDataRow ctrInfo (started staleOpenWorld)
    = (Ok formats, started staleOpenWorld) /\
    List.length (fontColors formats) = 2%nat.
Proof.
  destruct (@formats_fill_the_data_range ctrInfo (started staleOpenWorld)
              [rawSignalOf "5%"])
    as (formats & Hr & _ & _ & _ & _ & Hl & _); [reflexivity|].
  now exists formats.
Defined.

(** ** The days between two runs *)

Lemma truncate_floor (q : Q) : (0 <= Qnum q)%Z -> truncate q = Qfloor q.
Proof.
  intros H. destruct q as [n d]. unfold truncate, Qfloor. cbn [Qnum Qden] in *.
  apply Z.quot_div_nonneg; lia.
Qed.

Lemma truncate_ceiling (q : Q) : (Qnum q <= 0)%Z -> truncate q = Qceiling q.
Proof.
  intros H. destruct q as [n d]. unfold truncate, Qceiling, Qfloor, Qopp.
  cbn [Qnum Qden] in *.
  rewrite <- (Z.opp_involutive n) at 1. rewrite Z.quot_opp_l by lia.
  f_equal. apply Z.quot_div_nonneg; lia.
Qed.

Lemma truncate_comp (q1 q2 : Q) : (q1 == q2)%Q -> truncate q1 = truncate q2.
Proof.
  intros H. destruct (Z.le_ge_cases 0 (Qnum q1)) as [H1 | H1].
  - assert (H2 : (0 <= Qnum q2)%Z).
    { unfold Qeq in H. destruct q1 as [n1 d1], q2 as [n2 d2]. cbn in *. nia. }
    rewrite !truncate_floor by assumption. now apply Qfloor_comp.
  - assert (H2 : (Qnum q2 <= 0)%Z).
    { unfold Qeq in H. destruct q1 as [n1 d1], q2 as [n2 d2]. cbn in *. nia. }
    rewrite !truncate_ceiling by assumption. now apply Qceiling_comp.
Qed.

Lemma parseInt_Fin (q : Qc) : parseInt (Fin q) = ofZ (truncate q).
Proof. reflexivity. Qed.

Lemma dayDifference_integers (t1 t2 : Z) :
  dayDifference (VNum (ofZ t1)) (VNum (ofZ t2)) = ofZ (Z.quot (t2 - t1) msPerDay).
Proof.
  unfold dayDifference. cbn [toNumber]. unfold ofZ at 1 2 3. rewrite sub_Fin.
  rewrite div_Fin.
  - rewrite parseInt_Fin. f_equal.
    change (Z.quot (t2 - t1) msPerDay) with (truncate ((t2 - t1) # 86400000)).
    apply truncate_comp.
    unfold Qcdiv, Qcmult, Qcinv, Qcminus, Qcplus, Qcopp, Q2Qc. cbn [this].
    rewrite !Qred_correct. unfold Qeq, inject_Z. cbn. lia.
  - intros H. apply (f_equal this) in H. discriminate H.
Qed.

Lemma ge_ofZ (x y : Z) : ge (ofZ x) (ofZ y) = true <-> (y <= x)%Z.
Proof.
  unfold ofZ. rewrite ge_Fin. unfold Qcle, Q2Qc. cbn [this].
  rewrite !Qred_correct. now rewrite <- Zle_Qle.
Qed.

(** X11. [dayDifference] counts the full days from its first argument to
    its second: for two time values, the quotient of their difference by
    the milliseconds of a day with the fraction cut off, towards zero when
    the second one is the earlier.  So it is 0 for less than a day in either
    direction, and exchanging the arguments changes the sign. *)
Theorem dayDifference_counts_full_days (t1 t2 : Z) :
  timeValue t1 -> timeValue t2 -> plainQuotient t1 t2 ->
  dayDifference (VNum (ofZ t1)) (VNum (ofZ t2)) = ofZ (Z.quot (t2 - t1) msPerDay) /\
  (forall n, (0 <= n)%Z ->
     (n * msPerDay <= t2 - t1 < (n + 1) * msPerDay)%Z ->
     dayDifference (VNum (ofZ t1)) (VNum (ofZ t2)) = ofZ n) /\
  ((Z.abs (t2 - t1) < msPerDay)%Z ->
   dayDifference (VNum (ofZ t1)) (VNum (ofZ t2)) = ofZ 0) /\
  dayDifference (VNum (ofZ t2)) (VNum (ofZ t1))
  = neg (dayDifference (VNum (ofZ t1)) (VNum (ofZ t2))).
Proof.
  intros _ _ _. rewrite !dayDifference_integers. split; [reflexivity|].
  assert (Hd : (0 < msPerDay)%Z) by reflexivity.
  split; [|split].
  - intros n Hn [Hlo Hhi]. f_equal. symmetry.
    apply Z.quot_unique with (r := (t2 - t1 - n * msPerDay)%Z); lia.
  - intros H. f_equal. destruct (Z.le_ge_cases 0 (t2 - t1)) as [H0 | H0].
    + apply Z.quot_small. lia.
    + rewrite <- (Z.opp_involutive (t2 - t1)), Z.quot_opp_l by lia.
      rewrite Z.quot_small by lia. reflexivity.
  - replace (t1 - t2)%Z with (- (t2 - t1))%Z by lia.
    rewrite Z.quot_opp_l by lia. unfold ofZ, neg.
    apply (f_equal Fin), Qc_is_canon. cbn [this Q2Qc Qcopp].
    rewrite !Qred_correct. unfold Qeq, inject_Z. cbn. lia.
Qed.

Lemma dayDifference_counts_full_days_witness :
  dayDifference (VNum (ofZ 1600000000000)) (VNum (ofZ 1700000000000)) = ofZ 1157.
Proof.
  destruct (@dayDifference_counts_full_days 1600000000000 1700000000000)
    as (_ & H & _).
  - unfold timeValue, maxTime. lia.
  - unfold timeValue, maxTime. lia.
  - right. lia.
  - apply H; unfold msPerDay; lia.
Defined.

(** ** Starting a run *)





Lemma forEach_addAccount (accounts : list string) (s : state) :
  forEach accounts addAccount s
  = (Ok tt,
     {| mem := mem s;
        disk := withAccountsTab
                  (accountsTab (disk s)
                   ++ map (fun cid => (cid, VStr EmptyString)) accounts) (disk s) |}).
Proof.
  revert s. induction accounts as [|cid accounts IH]; intros s.
  - cbn. rewrite app_nil_r. now destruct s as [m []].
  - cbn [forEach]. unfold bind. cbn [addAccount updDisk]. rewrite IH.
    cbn. now rewrite <- app_assoc.
Qed.

(** X13. [startNewReport] does not throw.  It drops the rows of the
    Accounts tab and lists the accounts of the manager account, those with
    the label of the setting AccountLabel when one is set, every one as not
    processed; it appends to the history an open record with the time of the
    invocation and the address of a new, empty report; it protects the three
    tabs and sends nothing.  After it the last run is open, its report can
    be opened, and no account was scored. *)
Theorem new_run_lists_every_account_unprocessed (E : env) (s : state) :
  startNewReport E s
  = (Ok tt, {| mem := mem s;
               disk := newRunWorld E (disk s) (listedAccounts E s) |}) /\
  map fst (accountsTab (newRunWorld E (disk s) (listedAccounts E s)))
  = listedAccounts E s /\
  (forall row, In row (accountsTab (newRunWorld E (disk s) (listedAccounts E s))) ->
     unprocessedRow row = true) /\
  hasOpenRun (newRunWorld E (disk s) (listedAccounts E s)) = true /\
  lastStart (newRunWorld E (disk s) (listedAccounts E s)) = VNum (getTimestamp E) /\
  openSheet (newRunWorld E (disk s) (listedAccounts E s))
  = Some (copyUrl E, {| headerRow := None; dataRows := [] |}) /\
  removelast (historyTab (newRunWorld E (disk s) (listedAccounts E s)))
  = historyTab (disk s).
Proof.
  split; [|split; [|split; [|split; [|split; [|split]]]]].
  - rewrite startNewReport_split.
    assert (He : enumerateAccounts E s
                 = (Ok tt,
                    {| mem := mem s;
                       disk := withAccountsTab
                                 (map (fun cid => (cid, VStr EmptyString))
                                      (listedAccounts E s))
                                 (withProtectedTabs
                                    ("Template" :: "Settings" :: "Signals"
                                     :: protectedTabs (disk s)) (disk s)) |})).
    { unfold enumerateAccounts. erewrite bind_Ok by reflexivity.
      erewrite bind_Ok by reflexivity.
      erewrite bind_Ok by apply getSetting_optional.
      rewrite forEach_addAccount. reflexivity. }
    erewrite bind_Ok by exact He. reflexivity.
  - cbn [newRunWorld accountsTab]. rewrite map_map. cbn [fst]. apply map_id.
  - intros row Hin. cbn [newRunWorld accountsTab] in Hin. apply in_map_iff in Hin.
    now destruct Hin as (cid & <- & _).
  - unfold hasOpenRun. cbn [newRunWorld historyTab]. now rewrite rev_app_distr.
  - unfold lastStart. cbn [newRunWorld historyTab]. now rewrite rev_app_distr.
  - unfold openSheet. cbn [newRunWorld historyTab runSheets].
    rewrite rev_app_distr. cbn. now rewrite String.eqb_refl.
  - cbn [newRunWorld historyTab]. apply removelast_last.
Qed.

(** ** A batch without accounts *)

Lemma writeAccountDataToSpreadsheet_keeps_ledger :
  respects (keeps (fun s => ledger (disk s))) writeAccountDataToSpreadsheet.
Proof. frame. Qed.

Lemma finishRun_nothing E s : finishRun E 0 s = (Ok 0%nat, s).
Proof. reflexivity. Qed.

Lemma empty_batch_ledger E s :
  withIds E (selection s) = [] ->
  ledger (disk (snd (continueUnfinishedReport E s))) = ledger (disk s) /\
  fst (continueUnfinishedReport E s) <> Ok 1%nat /\
  (forall p, fst (continueUnfinishedReport E s) = Ok p -> p = 0%nat).
Proof.
  intros H. rewrite continueUnfinishedReport_split. unfold bind.
  rewrite scoreBatch_run. destruct (currentSheetUrl s) as [url|].
  2:{ repeat split; [discriminate | discriminate]. }
  rewrite scoreOpenBatch_run. rewrite <- (selection_cached url) in H.
  unfold selection in H.
  destruct (fst (getUnprocessedAccounts (cached url s))) as [ids|message].
  2:{ repeat split; [discriminate | discriminate]. }
  unfold scoreSelected. rewrite H.
  erewrite bind_Ok by apply batchLoop_nil. unfold bind.
  pose proof (writeAccountDataToSpreadsheet_keeps_ledger (cached url s)) as K.
  unfold keeps in K. cbn [disk cached] in K.
  destruct (writeAccountDataToSpreadsheet (cached url s)) as [[[]|message] s2];
    cbn [fst snd] in *.
  - unfold ret. rewrite finishRun_nothing. cbn [fst snd].
    repeat split; [exact K | discriminate | congruence].
  - repeat split; [exact K | discriminate | discriminate].
Qed.

Lemma invoke_empty_batch E w :
  hasOpenRun w = true -> withIds E (selection (started w)) = [] ->
  ledger (disk (snd (invoke E w))) = ledger w.
Proof.
  intros Ho H. unfold invoke.
  rewrite (@main_open E {| mem := freshMemory; disk := w |} Ho).
  fold (started w). unfold bind.
  destruct (empty_batch_ledger E (started w) H) as (K & _).
  destruct (continueUnfinishedReport E (started w)) as [[p|message] s1];
    exact K.
Qed.

Lemma selection_started_ledger w w' :
  ledger w' = ledger w -> selection (started w') = selection (started w).
Proof.
  intros H. injection H as _ Hs Ha _ _ _.
  unfold selection. rewrite !getUnprocessedAccounts_run, !findSetting_started.
  change (disk (started w')) with w'. change (disk (started w)) with w.
  rewrite Hs, Ha.
  destruct (findSetting "NumAccountsProcess"
              (map settingOfRow (filter kept (settingsTab w)))); [reflexivity|].
  now destruct (existsb unprocessedRow (accountsTab w)).
Qed.

Lemma hasOpenRun_ledger w w' : ledger w' = ledger w -> hasOpenRun w' = hasOpenRun w.
Proof. intros H. injection H as _ _ _ Hh _ _. unfold hasOpenRun. now rewrite Hh. Qed.

Lemma invocations_empty_batches Es w :
  hasOpenRun w = true ->
  (forall E, In E Es -> withIds E (selection (started w)) = []) ->
  ledger (invocations Es w) = ledger w.
Proof.
  revert w. induction Es as [|E Es IH]; intros w Ho H; [reflexivity|].
  cbn [invocations].
  assert (K : ledger (disk (snd (invoke E w))) = ledger w).
  { apply invoke_empty_batch; [exact Ho | apply H; now left]. }
  rewrite IH; [exact K | |].
  - now rewrite (hasOpenRun_ledger K).
  - intros E' Hin. rewrite (selection_started_ledger K). apply H. now right.
Qed.

Lemma selection_none s :
  existsb unprocessedRow (accountsTab (disk s)) = false -> selection s = [].
Proof.
  intros H. unfold selection. rewrite getUnprocessedAccounts_run.
  destruct (findSetting "NumAccountsProcess" (settings (mem s))).
  - cbn. now apply selectFrom_none.
  - now rewrite H.
Qed.

Lemma withIds_unlisted E ids :
  (forall c, In c ids -> ~ In c (mccAccounts E)) -> withIds E ids = [].
Proof.
  intros H. unfold withIds.
  induction (mccAccounts E) as [|a l IH]; [reflexivity|].
  cbn [filter]. destruct (existsb (String.eqb a) ids) eqn:X.
  - apply existsb_exists in X. destruct X as (c & Hc & Heq).
    apply String.eqb_eq in Heq. subst c. exfalso. apply (H a Hc). now left.
  - apply IH. intros c Hc Hin. apply (H c Hc). now right.
Qed.

(** X14. A batch whose iterator is empty scores and marks no account,
    returns no positive count and leaves everything but the report as it is:
    the run stays open.  The iterator is empty when every account row is
    marked, as it is when the run was started without accounts, and when the
    manager account lists none of the selected accounts.  As long as it is
    empty, no invocation closes the run or starts a new one. *)
Theorem run_without_next_account_stays_open (w : world) :
  (forall E, withIds E (selection (started w)) = [] ->
     ledger (disk (snd (continueUnfinishedReport E (started w)))) = ledger w /\
     (forall p, fst (continueUnfinishedReport E (started w)) = Ok p -> p = 0%nat)) /\
  (forall Es,
     hasOpenRun w = true ->
     (forall E, In E Es -> withIds E (selection (started w)) = []) ->
     ledger (invocations Es w) = ledger w /\
     hasOpenRun (invocations Es w) = true) /\
  (existsb unprocessedRow (accountsTab w) = false ->
   forall E, withIds E (selection (started w)) = []) /\
  (accountsTab w = [] -> forall E, withIds E (selection (started w)) = []) /\
  (forall E,
     (forall c, In c (selection (started w)) -> ~ In c (mccAccounts E)) ->
     withIds E (selection (started w)) = []).
Proof.
  split; [|split; [|split; [|split]]].
  - intros E H. destruct (empty_batch_ledger E (started w) H) as (K & _ & Hp).
    split; [exact K | exact Hp].
  - intros Es Ho H.
    pose proof (@invocations_empty_batches Es w Ho H) as K.
    split; [exact K | now rewrite (hasOpenRun_ledger K)].
  - intros H E. rewrite (@selection_none (started w) H). apply withIds_nil.
  - intros H E. rewrite (selection_none (started w)); [apply withIds_nil|].
    change (disk (started w)) with w. now rewrite H.
  - intros E H. now apply withIds_unlisted.
Qed.

Lemma run_without_next_account_stays_open_witness :
  ledger (invocations [exampleEnv; exampleEnv; exampleEnv] idleWorld)
  = ledger idleWorld /\
  hasOpenRun (invocations [exampleEnv; exampleEnv; exampleEnv] idleWorld) = true.
Proof.
  destruct (run_without_next_account_stays_open idleWorld) as (_ & H & Hm & _).
  apply H; [reflexivity|].
  intros E _. apply Hm. reflexivity.
Defined.

(** ** Writing the report *)

Lemma getCurrentRunSheet_hit s url :
  currentRunSheet (mem s) = Some url -> getCurrentRunSheet s = (Ok url, s).
Proof. intros H. unfold getCurrentRunSheet, bind, readMem. now rewrite H. Qed.

Lemma rawSignals_processSignals defs sw a raw :
  rawSignals (processSignals defs sw a raw) = raw.
Proof.
  unfold processSignals. now destruct (processSignalsFrom defs raw [] (ofZ 0)).
Qed.

Lemma ledger_withRunSheets x w : ledger (withRunSheets x w) = ledger w.
Proof. reflexivity. Qed.

(** One write to the report of the run: nothing else changes. *)
Lemma updateSheet_run url f s sheet :
  reportAt url s = Some sheet ->
  exists s', updateSheet url f s = (Ok tt, s') /\
             mem s' = mem s /\ ledger (disk s') = ledger (disk s) /\
             reportAt url s' = Some (f sheet).
Proof.
  intros H. unfold reportAt in H. eexists. unfold updateSheet, updDisk.
  rewrite H. split; [reflexivity|]. cbn [mem disk].
  split; [reflexivity|]. split; [reflexivity|].
  unfold reportAt. cbn [disk runSheets withRunSheets]. apply get_set_eq.
Qed.

Lemma writeDataRow_run defs info s url sheet :
  signalDefinitions (mem s) = defs -> scoredWith defs info ->
  currentRunSheet (mem s) = Some url -> reportAt url s = Some sheet ->
  exists s', writeDataRow info s = (Ok tt, s') /\
             mem s' = mem s /\ ledger (disk s') = ledger (disk s) /\
             reportAt url s'
             = Some {| headerRow := headerRow sheet;
                       dataRows := dataRows sheet ++ [rowOf defs info] |}.
Proof.
  intros Hdefs (sw & a & raw & ->) Hc Hg. unfold writeDataRow.
  erewrite bind_Ok by (apply getCurrentRunSheet_hit; exact Hc).
  erewrite bind_Ok by reflexivity. rewrite Hdefs.
  erewrite bind_Ok by (apply displayValues_scored, incl_refl).
  unfold rowOf. rewrite rawSignals_processSignals.
  apply (@updateSheet_run url
           (fun r => {| headerRow := headerRow r;
                        dataRows := dataRows r
                                    ++ [dataRow defs raw
                                          (score (processSignals defs sw a raw))] |})
           s sheet Hg).
Qed.

Lemma forEach_writeDataRow defs url infos :
  Forall (scoredWith defs) infos ->
  forall s sheet,
    signalDefinitions (mem s) = defs ->
    currentRunSheet (mem s) = Some url -> reportAt url s = Some sheet ->
    exists s', forEach infos writeDataRow s = (Ok tt, s') /\
               mem s' = mem s /\ ledger (disk s') = ledger (disk s) /\
               reportAt url s'
               = Some {| headerRow := headerRow sheet;
                         dataRows := dataRows sheet ++ map (rowOf defs) infos |}.
Proof.
  induction 1 as [|info infos Hi Hs IH]; intros s sheet Hdefs Hc Hg.
  - exists s. cbn [forEach map]. rewrite app_nil_r.
    repeat split. rewrite Hg. now destruct sheet.
  - cbn [forEach].
    destruct (@writeDataRow_run defs info s url sheet Hdefs Hi Hc Hg)
      as (s1 & Hr & Hm & Hl & Hg1).
    erewrite bind_Ok by exact Hr.
    edestruct (IH s1) as (s2 & Hr2 & Hm2 & Hl2 & Hg2);
      [now rewrite Hm | now rewrite Hm | exact Hg1 |].
    exists s2. split; [exact Hr2|]. split; [congruence|]. split; [congruence|].
    rewrite Hg2. cbn [headerRow dataRows map]. now rewrite <- app_assoc.
Qed.

Lemma writeHeaderRow_run s url sheet :
  currentRunSheet (mem s) = Some url -> reportAt url s = Some sheet ->
  exists s', writeHeaderRow s = (Ok tt, s') /\
             mem s' = mem s /\ ledger (disk s') = ledger (disk s) /\
             reportAt url s'
             = Some {| headerRow := Some (headerOf (signalDefinitions (mem s)));
                       dataRows := dataRows sheet |}.
Proof.
  intros Hc Hg. unfold writeHeaderRow.
  erewrite bind_Ok by (apply getCurrentRunSheet_hit; exact Hc).
  erewrite bind_Ok by reflexivity.
  apply (@updateSheet_run url
           (fun r => {| headerRow := Some (headerOf (signalDefinitions (mem s)));
                        dataRows := dataRows r |})
           s sheet Hg).
Qed.

Lemma Forall_sortByScore (P : accountInfo -> Prop) (l : list accountInfo) :
  Forall P l -> Forall P (sortByScore l).
Proof.
  rewrite !Forall_forall. intros H x Hx. apply H. now apply In_sortByScore.
Qed.

Lemma writeAccountDataToSpreadsheet_run s url sheet :
  Forall (scoredWith (signalDefinitions (mem s))) (accountInfos (mem s)) ->
  currentRunSheet (mem s) = Some url -> reportAt url s = Some sheet ->
  exists s',
    writeAccountDataToSpreadsheet s = (Ok tt, s') /\
    mem s' = withAccountInfos (sortByScore (accountInfos (mem s))) (mem s) /\
    ledger (disk s') = ledger (disk s) /\
    reportAt url s'
    = Some {| headerRow := Some (headerOf (signalDefinitions (mem s)));
              dataRows := dataRows sheet
                          ++ map (rowOf (signalDefinitions (mem s)))
                                 (sortByScore (accountInfos (mem s))) |}.
Proof.
  intros Hi Hc Hg. unfold writeAccountDataToSpreadsheet.
  set (s0 := {| mem := withAccountInfos (sortByScore (accountInfos (mem s))) (mem s);
                disk := disk s |}).
  assert (H0 : getAccountInfos s = (Ok (sortByScore (accountInfos (mem s))), s0))
    by reflexivity.
  erewrite bind_Ok by exact H0.
  destruct (@writeHeaderRow_run s0 url sheet Hc Hg) as (s1 & Hr1 & Hm1 & Hl1 & Hg1).
  erewrite bind_Ok by exact Hr1.
  edestruct (@forEach_writeDataRow (signalDefinitions (mem s)) url
               (sortByScore (accountInfos (mem s)))
               (Forall_sortByScore Hi) s1) as (s2 & Hr2 & Hm2 & Hl2 & Hg2);
    [now rewrite Hm1 | now rewrite Hm1 | exact Hg1 |].
  exists s2. split; [exact Hr2|].
  split; [now rewrite Hm2, Hm1|]. split; [now rewrite Hl2, Hl1|].
  exact Hg2.
Qed.

(** X15. With the report of the run open, [writeAccountDataToSpreadsheet]
    does not throw for accounts scored against the catalogue in use.  It
    writes the header row and appends, below the rows that the report has,
    one row for every account scored in this invocation, in the order of
    [getAccountInfos]; it changes nothing else on the spreadsheet and keeps
    the accounts in that order. *)
Theorem report_gets_header_and_one_row_per_account (s : state) (url : string)
  (sheet : reportSheet) :
  Forall (scoredWith (signalDefinitions (mem s))) (accountInfos (mem s)) ->
  currentRunSheet (mem s) = Some url -> reportAt url s = Some sheet ->
  exists s',
    writeAccountDataToSpreadsheet s = (Ok tt, s') /\
    accountInfos (mem s') = sortByScore (accountInfos (mem s)) /\
    ledger (disk s') = ledger (disk s) /\
    reportAt url s'
    = Some {| headerRow := Some (headerOf (signalDefinitions (mem s)));
              dataRows := dataRows sheet
                          ++ map (rowOf (signalDefinitions (mem s)))
                                 (sortByScore (accountInfos (mem s))) |} /\
    (forall row, In row (map (rowOf (signalDefinitions (mem s)))
                             (sortByScore (accountInfos (mem s)))) ->
       List.length row = List.length (headerOf (signalDefinitions (mem s)))).
Proof.
  intros Hi Hc Hg.
  destruct (@writeAccountDataToSpreadsheet_run s url sheet Hi Hc Hg)
    as (s' & Hr & Hm & Hl & Hg').
  exists s'. split; [exact Hr|]. split; [now rewrite Hm|].
  split; [exact Hl|]. split; [exact Hg'|].
  intros row Hin. apply in_map_iff in Hin. destruct Hin as (info & <- & _).
  apply length_dataRow.
Qed.

Lemma report_gets_header_and_one_row_per_account_witness :
  exists s',
    writeAccountDataToSpreadsheet scoredOnce = (Ok tt, s') /\
    option_map (fun sheet => List.length (dataRows sheet)) (reportAt "run-0" s')
    = Some 1%nat.
Proof.
  destruct (@report_gets_header_and_one_row_per_account scoredOnce "run-0"
              {| headerRow := None; dataRows := [] |})
    as (s' & Hr & _ & _ & Hg & _).
  - constructor; [|constructor]. do 3 eexists. reflexivity.
  - reflexivity.
  - reflexivity.
  - exists s'. split; [exact Hr|]. now rewrite Hg.
Defined.

(** ** The accounts of a batch *)

Lemma ge_false_lt (n : nat) (limit : num) :
  limit <> NaN -> ge (ofNat n) limit = false -> lt (ofNat n) limit = true.
Proof.
  intros Hn. unfold ge, le, ofNat, ofZ.
  destruct limit as [q| | |]; try congruence; cbn [lt JS.eqb]; try discriminate;
    [|reflexivity].
  intros H. apply orb_false_iff in H. destruct H as [H1 H2].
  apply Qc_ltb_lt. apply Qcnot_le_lt. intros Hle.
  apply Qcle_lt_or_eq in Hle. destruct Hle as [Hlt | Heq].
  - apply Qc_ltb_lt in Hlt. congruence.
  - apply Qc_eqb_eq in Heq. congruence.
Qed.

Lemma selectFrom_within (limit : num) (rows : list (string * val)) :
  limit <> NaN ->
  forall accounts,
    (forall i, (i < List.length accounts)%nat -> lt (ofNat i) limit = true) ->
    forall i, (i < List.length (selectFrom limit rows accounts))%nat ->
              lt (ofNat i) limit = true.
Proof.
  intros Hn. induction rows as [|row rows IH]; intros accounts H; [exact H|].
  cbn [selectFrom]. destruct (negb (unprocessedRow row)); [now apply IH|].
  destruct (ge (ofNat (List.length accounts)) limit) eqn:G; [now apply IH|].
  apply IH. intros i Hi. rewrite length_app in Hi. cbn in Hi.
  destruct (Nat.eq_dec i (List.length accounts)) as [-> | Hne].
  - now apply ge_false_lt.
  - apply H. lia.
Qed.

Lemma length_withIds (E : env) (ids : list string) :
  NoDup (mccAccounts E) -> (List.length (withIds E ids) <= List.length ids)%nat.
Proof.
  intros H. apply NoDup_incl_length.
  - unfold withIds. now apply NoDup_filter.
  - intros a. apply withIds_In.
Qed.

Lemma batchRun_all E limit period iterator :
  forall processed s,
    (forall i, (i < List.length iterator)%nat ->
               lt (ofNat (processed + i)) (toNumber limit) = true) ->
    batchRun E limit period iterator processed s
    = ((processed + List.length iterator)%nat, processAll E period iterator s).
Proof.
  induction iterator as [|a iterator IH]; intros processed s H.
  - cbn. now rewrite Nat.add_0_r.
  - cbn [batchRun]. pose proof (H 0%nat) as H0. rewrite Nat.add_0_r in H0.
    rewrite H0 by (cbn; lia). rewrite IH.
    + change (processAll E period (a :: iterator) s)
        with (processAll E period iterator (processedState E a period s)).
      cbn [List.length]. f_equal. lia.
    + intros i Hi. replace (S processed + i)%nat with (processed + S i)%nat by lia.
      apply H. cbn. lia.
Qed.

Lemma batchLoop_all E limit period iterator s :
  findSetting "NumAccountsProcess" (settings (mem s)) = Some limit ->
  findSetting "ReportPeriod" (settings (mem s)) = Some period ->
  (forall i, (i < List.length iterator)%nat -> lt (ofNat i) (toNumber limit) = true) ->
  batchLoop E iterator 0 s
  = (Ok (List.length iterator), processAll E period iterator s).
Proof.
  intros HL HP H. rewrite batchLoop_run. destruct iterator as [|a iterator];
    [reflexivity|].
  rewrite HL, HP, (H 0%nat) by (cbn; lia).
  now rewrite (@batchRun_all E limit period (a :: iterator) 0 s H).
Qed.

(** What processing the accounts of an iterator does to the state. *)
Lemma processAll_state E period iterator :
  forall s,
    signalDefinitions (mem (processAll E period iterator s)) = signalDefinitions (mem s) /\
    sumWeights (mem (processAll E period iterator s)) = sumWeights (mem s) /\
    settings (mem (processAll E period iterator s)) = settings (mem s) /\
    currentRunSheet (mem (processAll E period iterator s)) = currentRunSheet (mem s) /\
    accountInfos (mem (processAll E period iterator s))
    = accountInfos (mem s) ++ map (infoOf E period s) iterator /\
    disk (processAll E period iterator s)
    = withAccountsTab (markAll E iterator (accountsTab (disk s))) (disk s).
Proof.
  induction iterator as [|a iterator IH]; intros s.
  - cbn. rewrite app_nil_r. repeat split. now destruct (disk s).
  - change (processAll E period (a :: iterator) s)
      with (processAll E period iterator (processedState E a period s)).
    destruct (IH (processedState E a period s)) as (H1 & H2 & H3 & H4 & H5 & H6).
    rewrite H1, H2, H3, H4, H5, H6. repeat split.
    change (accountInfos (mem (processedState E a period s)))
      with (accountInfos (mem s) ++ [infoOf E period s a]).
    now rewrite <- app_assoc.
Qed.

Lemma scoredWith_infoOf E period s a :
  scoredWith (signalDefinitions (mem s)) (infoOf E period s a).
Proof. unfold scoredWith, infoOf. eauto. Qed.

Lemma account_infoOf E period s a : account (infoOf E period s a) = a.
Proof. apply account_processSignals. Qed.

Section Batch.

Variable E : env.
Variable s : state.
Variables (url : string) (sheet : reportSheet) (limit period : val).

Hypothesis open_url : currentSheetUrl s = Some url.
Hypothesis open_sheet : reportAt url s = Some sheet.
Hypothesis batch_size :
  findSetting "NumAccountsProcess" (settings (mem s)) = Some limit.
Hypothesis numeric_size : toNumber limit <> NaN.
Hypothesis report_period :
  findSetting "ReportPeriod" (settings (mem s)) = Some period.
Hypothesis distinct_accounts : NoDup (mccAccounts E).
Hypothesis scored_before :
  Forall (scoredWith (signalDefinitions (mem s))) (accountInfos (mem s)).

Lemma selection_limit :
  selection s = selectFrom (toNumber limit) (accountsTab (disk s)) [].
Proof. unfold selection. now rewrite getUnprocessedAccounts_run, batch_size. Qed.

Lemma batch_within (i : nat) :
  (i < List.length (batchOf E s))%nat -> lt (ofNat i) (toNumber limit) = true.
Proof.
  intros Hi. pose proof (@length_withIds E (selection s) distinct_accounts) as Hl.
  fold (batchOf E s) in Hl. rewrite selection_limit in Hl.
  apply (@selectFrom_within (toNumber limit) (accountsTab (disk s)) numeric_size []).
  - intros j Hj. cbn in Hj. lia.
  - lia.
Qed.

(** The batch up to the last write to the report. *)
Lemma scoreBatch_all :
  exists s3,
    scoreBatch E s = (Ok (List.length (batchOf E s)), s3) /\
    currentRunSheet (mem s3) = Some url /\
    settings (mem s3) = settings (mem s) /\
    accountInfos (mem s3)
    = sortByScore (accountInfos (mem s) ++ map (infoOf E period s) (batchOf E s)) /\
    disk s3 = withRunSheets (runSheets (disk s3))
                (withAccountsTab (markAll E (batchOf E s) (accountsTab (disk s)))
                                 (disk s)) /\
    reportAt url s3
    = Some {| headerRow := Some (headerOf (signalDefinitions (mem s)));
              dataRows :=
                dataRows sheet
                ++ map (rowOf (signalDefinitions (mem s)))
                       (sortByScore (accountInfos (mem s)
                                     ++ map (infoOf E period s) (batchOf E s))) |}.
Proof.
  rewrite scoreBatch_run, open_url, scoreOpenBatch_run.
  assert (Hsel : fst (getUnprocessedAccounts (cached url s)) = Ok (selection s)).
  { rewrite getUnprocessedAccounts_run.
    change (settings (mem (cached url s))) with (settings (mem s)).
    rewrite batch_size. cbn [fst]. now rewrite selection_limit. }
  rewrite Hsel. unfold scoreSelected. fold (batchOf E s).
  erewrite bind_Ok by (apply (@batchLoop_all E limit period);
                       [exact batch_size | exact report_period | exact batch_within]).
  set (s2 := processAll E period (batchOf E s) (cached url s)).
  destruct (processAll_state E period (batchOf E s) (cached url s))
    as (Hd & _ & Hst & Hc & Hi & Hk). fold s2 in Hd, Hst, Hc, Hi, Hk.
  cbn [cached mem disk signalDefinitions settings currentRunSheet accountInfos
       withCurrentRunSheet] in Hd, Hst, Hc, Hi, Hk.
  change (infoOf E period (cached url s)) with (infoOf E period s) in Hi.
  assert (Hsc : Forall (scoredWith (signalDefinitions (mem s2))) (accountInfos (mem s2))).
  { rewrite Hd, Hi. apply Forall_app. split; [exact scored_before|].
    apply Forall_forall. intros info Hin. apply in_map_iff in Hin.
    destruct Hin as (a & <- & _). apply scoredWith_infoOf. }
  assert (Hg : reportAt url s2 = Some sheet).
  { unfold reportAt. rewrite Hk. exact open_sheet. }
  destruct (@writeAccountDataToSpreadsheet_run s2 url sheet Hsc Hc Hg)
    as (s3 & Hr & Hm & Hl & Hg3).
  erewrite bind_Ok by exact Hr. exists s3. split; [reflexivity|].
  rewrite Hm. cbn [mem currentRunSheet settings accountInfos withAccountInfos].
  split; [exact Hc|]. split; [exact Hst|]. split; [now rewrite Hi|].
  split.
  - unfold ledger in Hl. injection Hl as H1 H2 H3 H4 H5 H6.
    rewrite Hk in H1, H2, H3, H4, H5, H6.
    cbn [withAccountsTab signalsTab settingsTab accountsTab historyTab
         protectedTabs outbox] in H1, H2, H3, H4, H5, H6.
    destruct (disk s3) as [sg st ac hi pr rs ob]. cbn in *. now subst.
  - rewrite Hg3, Hd, Hi. reflexivity.
Qed.

Lemma continue_all :
  exists s',
    continueUnfinishedReport E s = (Ok (List.length (batchOf E s)), s') /\
    accountsTab (disk s') = markAll E (batchOf E s) (accountsTab (disk s)) /\
    accountInfos (mem s')
    = sortByScore (accountInfos (mem s) ++ map (infoOf E period s) (batchOf E s)) /\
    reportAt url s'
    = Some {| headerRow := Some (headerOf (signalDefinitions (mem s)));
              dataRows :=
                dataRows sheet
                ++ map (rowOf (signalDefinitions (mem s)))
                       (sortByScore (accountInfos (mem s)
                                     ++ map (infoOf E period s) (batchOf E s))) |} /\
    if (0 <? List.length (batchOf E s))%nat && allMarked (disk s')
    then finalized E url s s'
    else notFinalized s s'.
Proof.
  destruct scoreBatch_all as (s3 & Hr & Hc & Hst & Hi & Hk & Hg).
  rewrite continueUnfinishedReport_split. erewrite bind_Ok by exact Hr.
  destruct (@finishRun_run E (List.length (batchOf E s)) s3 url Hc)
    as (Hf & Ha & Hrs & Hfin).
  pose proof (finishRun_keeps_infos E (List.length (batchOf E s)) s3) as Ki.
  unfold keeps in Ki.
  destruct (finishRun E (List.length (batchOf E s)) s3) as [r s4].
  cbn [fst snd] in *. subst r. exists s4. split; [reflexivity|].
  assert (Hacc : accountsTab (disk s3)
                 = markAll E (batchOf E s) (accountsTab (disk s)))
    by (now rewrite Hk).
  assert (Hp : protectedTabs (disk s3) = protectedTabs (disk s)) by (now rewrite Hk).
  assert (Hh : historyTab (disk s3) = historyTab (disk s)) by (now rewrite Hk).
  assert (Ho : outbox (disk s3) = outbox (disk s)) by (now rewrite Hk).
  split; [now rewrite Ha|]. split; [now rewrite Ki|].
  split; [unfold reportAt in *; now rewrite Hrs|].
  assert (Hm : allMarked (disk s4) = allMarked (disk s3))
    by (unfold allMarked; now rewrite Ha).
  rewrite Hm.
  destruct ((0 <? List.length (batchOf E s))%nat && allMarked (disk s3)).
  - unfold finalized in *. rewrite <- Hp, <- Hh, <- Ho.
    assert (Hn : notification s3 url = notification s url)
      by (unfold notification; now rewrite Hst).
    now rewrite <- Hn.
  - unfold notFinalized in *. now rewrite <- Hp, <- Hh, <- Ho.
Qed.



End Batch.


(** ** The selection of a batch, and the last batch of a run *)

Lemma In_withIds E ids a :
  In a (withIds E ids) <-> In a (mccAccounts E) /\ In a ids.
Proof.
  unfold withIds. rewrite filter_In, existsb_exists. split.
  - intros (Hm & x & Hx & Heq). apply String.eqb_eq in Heq. now subst.
  - intros (Hm & Hi). split; [exact Hm|]. exists a. split; [exact Hi|].
    apply String.eqb_refl.
Qed.

Lemma ge_ofNat (n k : nat) : ge (ofNat n) (ofNat k) = true <-> (k <= n)%nat.
Proof. unfold ofNat. rewrite ge_ofZ. lia. Qed.

Lemma selectFrom_exact (k : nat) (rows : list (string * val)) :
  forall accounts,
    selectFrom (ofNat k) rows accounts
    = accounts ++ firstn (k - List.length accounts)
                         (map fst (filter unprocessedRow rows)).
Proof.
  induction rows as [|row rows IH]; intros accounts.
  - cbn. now rewrite firstn_nil, app_nil_r.
  - cbn [selectFrom filter]. destruct (unprocessedRow row); cbn [negb]; [|apply IH].
    destruct (ge (ofNat (List.length accounts)) (ofNat k)) eqn:G.
    + apply ge_ofNat in G. rewrite IH.
      replace (k - List.length accounts)%nat with 0%nat by lia. reflexivity.
    + assert (Hlt : (List.length accounts < k)%nat).
      { destruct (Nat.lt_ge_cases (List.length accounts) k) as [H | H]; [exact H|].
        apply ge_ofNat in H. congruence. }
      rewrite IH, length_app. cbn [List.length map].
      replace (k - List.length accounts)%nat
        with (S (k - (List.length accounts + 1)))%nat by lia.
      cbn [firstn]. now rewrite <- app_assoc.
Qed.

Lemma selectFrom_all (limit : num) (rows : list (string * val)) :
  (forall n, ge (ofNat n) limit = false) ->
  forall accounts,
    selectFrom limit rows accounts
    = accounts ++ map fst (filter unprocessedRow rows).
Proof.
  intros H. induction rows as [|row rows IH]; intros accounts.
  - cbn. now rewrite app_nil_r.
  - cbn [selectFrom filter]. destruct (unprocessedRow row); cbn [negb]; [|apply IH].
    rewrite H, IH. cbn [map]. now rewrite <- app_assoc.
Qed.

(** X17. [getUnprocessedAccounts] with the batch size k returns the first k
    accounts whose timestamp cell is empty, in the order of the Accounts
    tab, all of them when there are no more than k; the limit may be given
    as a number or as its text.  It selects all of them, too, when the
    batch size is not a number. *)
Theorem selection_is_the_first_unprocessed_accounts (s : state) (limit : val) :
  findSetting "NumAccountsProcess" (settings (mem s)) = Some limit ->
  (forall k, toNumber limit = ofNat k ->
     getUnprocessedAccounts s
     = (Ok (firstn k (map fst (filter unprocessedRow (accountsTab (disk s))))), s) /\
     (List.length (selection s) <= k)%nat /\
     ((List.length (filter unprocessedRow (accountsTab (disk s))) <= k)%nat ->
      selection s = map fst (filter unprocessedRow (accountsTab (disk s))))) /\
  (toNumber limit = NaN ->
   getUnprocessedAccounts s
   = (Ok (map fst (filter unprocessedRow (accountsTab (disk s)))), s)).
Proof.
  intros HL. split.
  - intros k Hk.
    assert (Hr : getUnprocessedAccounts s
                 = (Ok (firstn k (map fst (filter unprocessedRow
                                             (accountsTab (disk s))))), s)).
    { rewrite getUnprocessedAccounts_run, HL, Hk, selectFrom_exact.
      cbn [List.length app]. now rewrite Nat.sub_0_r. }
    split; [exact Hr|]. unfold selection. rewrite Hr. cbn [fst]. split.
    + rewrite length_firstn. lia.
    + intros H. apply firstn_all2. now rewrite length_map.
  - intros Hn. rewrite getUnprocessedAccounts_run, HL, Hn.
    now rewrite selectFrom_all.
Qed.

Lemma selection_is_the_first_unprocessed_accounts_witness :
  getUnprocessedAccounts (started staleOpenWorld)
  = (Ok ["1"; "2"], started staleOpenWorld).
Proof.
  destruct (@selection_is_the_first_unprocessed_accounts
              (started staleOpenWorld) (VNum (ofZ 2)) eq_refl) as (H & _).
  destruct (H 2%nat eq_refl) as (Hr & _). exact Hr.
Defined.

Lemma batchOf_unprocessed E s a :
  In a (batchOf E s) ->
  exists row, In row (accountsTab (disk s)) /\ fst row = a
              /\ unprocessedRow row = true.
Proof.
  intros H. apply In_withIds in H. destruct H as [_ H].
  now apply selection_unprocessed.
Qed.

Lemma allMarked_false w row :
  In row (accountsTab w) -> unprocessedRow row = true -> allMarked w = false.
Proof.
  intros Hin Hu. unfold allMarked.
  destruct (forallb (fun r => truthy (snd r)) (accountsTab w)) eqn:F; [|reflexivity].
  rewrite forallb_forall in F. specialize (F row Hin).
  apply unprocessedRow_falsy in Hu. congruence.
Qed.

(** X18. With a batch size that is not a number, such as a word, and an
    account to process, a batch takes every unprocessed account into the
    iterator, but its loop ends at the first comparison with the batch size:
    it scores and marks no account, writes the header row of the report and
    nothing else, and reports one processed account. *)
Theorem batch_size_that_is_no_number_processes_nothing (E : env) (w : world)
  (url : string) (sheet : reportSheet) (limit : val) :
  openSheet w = Some (url, sheet) ->
  findSetting "NumAccountsProcess" (settings (mem (started w))) = Some limit ->
  toNumber limit = NaN ->
  batchOf E (started w) <> [] ->
  selection (started w) = map fst (filter unprocessedRow (accountsTab w)) /\
  fst (continueUnfinishedReport E (started w)) = Ok 1%nat /\
  disk (snd (continueUnfinishedReport E (started w))) = withHeader w url sheet.
Proof.
  intros Ho HL Hn Hb.
  assert (Hu : currentSheetUrl (started w) = Some url)
    by (now rewrite currentSheetUrl_started, Ho).
  assert (Hsel : getUnprocessedAccounts (cached url (started w))
                 = (Ok (map fst (filter unprocessedRow (accountsTab w))),
                    cached url (started w))).
  { rewrite getUnprocessedAccounts_run.
    change (settings (mem (cached url (started w))))
      with (settings (mem (started w))).
    rewrite HL, Hn. now rewrite selectFrom_all. }
  assert (Hs : selection (started w) = map fst (filter unprocessedRow (accountsTab w))).
  { rewrite <- (selection_cached url). unfold selection. now rewrite Hsel. }
  split; [exact Hs|].
  unfold continueUnfinishedReport.
  erewrite bind_Ok by (rewrite getCurrentRunSheet_run, Hu; reflexivity).
  unfold getUnprocessedAccountIterator.
  erewrite bind_Ok by (erewrite bind_Ok by exact Hsel; reflexivity).
  rewrite <- Hs. fold (batchOf E (started w)).
  assert (Hl : batchLoop E (batchOf E (started w)) 0 (cached url (started w))
               = (Ok 1%nat, cached url (started w))).
  { rewrite batchLoop_run. destruct (batchOf E (started w)); [congruence|].
    change (settings (mem (cached url (started w))))
      with (settings (mem (started w))).
    now rewrite HL, Hn. }
  erewrite bind_Ok by exact Hl.
  destruct (@writeAccountDataToSpreadsheet_idle (cached url (started w)) url sheet)
    as (s' & Hw & Hd); [reflexivity | now apply openSheet_get | reflexivity |].
  erewrite bind_Ok by exact Hw.
  assert (Hm : allMarked (disk s') = false).
  { destruct (batchOf E (started w)) as [|a l] eqn:B; [congruence|].
    destruct (@batchOf_unprocessed E (started w) a) as (row & Hin & _ & Hrow);
      [rewrite B; now left|].
    apply (@allMarked_false (disk s') row); [|exact Hrow].
    rewrite Hd. exact Hin. }
  assert (Hf : (if (0 <? 1)%nat then allAccountsProcessed else ret false) s'
               = (Ok false, s')).
  { change (allAccountsProcessed s' = (Ok false, s')).
    rewrite allAccountsProcessed_run. now rewrite Hm. }
  erewrite bind_Ok by exact Hf.
  split; [reflexivity | exact Hd].
Qed.

Lemma batch_size_that_is_no_number_processes_nothing_witness :
  fst (continueUnfinishedReport exampleEnv (started wordBatchWorld)) = Ok 1%nat /\
  accountsTab (disk (snd (continueUnfinishedReport exampleEnv (started wordBatchWorld))))
  = [("1", VStr EmptyString)].
Proof.
  destruct (@batch_size_that_is_no_number_processes_nothing
              exampleEnv wordBatchWorld "run-0"
              {| headerRow := None; dataRows := [] |} (VStr "ten"))
    as (_ & Hr & Hd); try reflexivity.
  - discriminate.
  - split; [exact Hr | now rewrite Hd].
Defined.

Lemma setLastEnd_last history start lastRunEndDate url v :
  setLastEnd (history ++ [(start, lastRunEndDate, url)]) v
  = history ++ [(start, v, url)].
Proof.
  induction history as [|row history IH]; [reflexivity|].
  cbn [app]. destruct history as [|row' history].
  - cbn [app]. rewrite setLastEnd_cons. reflexivity.
  - cbn [app] in *. rewrite setLastEnd_cons. now rewrite IH.
Qed.

Lemma hasOpenRun_closed w history v :
  truthy v = true -> historyTab w = setLastEnd history v -> hasOpenRun w = false.
Proof.
  intros Hv Hh. unfold hasOpenRun. rewrite Hh.
  destruct history as [|row history] using rev_ind; [reflexivity|].
  destruct row as [[start e] url]. rewrite setLastEnd_last, rev_app_distr.
  cbn. now rewrite Hv.
Qed.


Section LastBatch.

Variable E : env.
Variable s : state.
Variables (url : string) (sheet : reportSheet) (limit period : val) (k : nat).

Hypothesis open_url : currentSheetUrl s = Some url.
Hypothesis open_sheet : reportAt url s = Some sheet.
Hypothesis batch_size :
  findSetting "NumAccountsProcess" (settings (mem s)) = Some limit.
Hypothesis size_k : toNumber limit = ofNat k.
Hypothesis report_period :
  findSetting "ReportPeriod" (settings (mem s)) = Some period.
Hypothesis distinct_accounts : NoDup (mccAccounts E).
Hypothesis scored_before :
  Forall (scoredWith (signalDefinitions (mem s))) (accountInfos (mem s)).
Hypothesis clock : now E <> 0%Z.

(** The timestamp cells of the Accounts tab hold a text or a number. *)
Hypothesis clean_rows :
  forall row, In row (accountsTab (disk s)) -> unprocessedRow row = false ->
              truthy (snd row) = true.

(** There are accounts left, no more than a batch takes, and the manager
    account lists them. *)
Hypothesis some_left : existsb unprocessedRow (accountsTab (disk s)) = true.
Hypothesis few_left :
  (List.length (filter unprocessedRow (accountsTab (disk s))) <= k)%nat.
Hypothesis listed :
  forall row, In row (accountsTab (disk s)) -> unprocessedRow row = true ->
              In (fst row) (mccAccounts E).




End LastBatch.


(** ** Marking a run and an account *)










(** ** Settings that are colours, and signals that do not count *)

Lemma findSetting_skip key l1 l2 :
  (forall st, In st l1 -> Setting.key st <> key) ->
  findSetting key (l1 ++ l2) = findSetting key l2.
Proof.
  intros H. induction l1 as [|st l1 IH]; [reflexivity|].
  cbn [app findSetting].
  destruct (String.eqb_spec (Setting.key st) key) as [Heq | Hne].
  - exfalso. apply (H st); [now left | exact Heq].
  - cbn [andb]. apply IH. intros st' Hin. apply H. now right.
Qed.

(** X22. For a row of the Settings tab with the type Color, [readSettings]
    stores the background colour of the value cell in place of its content,
    so the row counts as set when it has a key and a background, whatever
    the cell contains; when no earlier row has the same key, [getSetting]
    then returns the background, as a mandatory and as an optional
    setting. *)
Theorem colour_setting_is_the_cell_background (w : world)
  (rows1 rows2 : list settingsRow) (r : settingsRow) :
  settingsTab w = rows1 ++ r :: rows2 ->
  typeCell r = "Color" -> keyCell r <> EmptyString -> background r <> EmptyString ->
  (forall r', In r' rows1 -> keyCell r' <> keyCell r) ->
  Setting.value (settingOfRow r) = VStr (background r) /\
  kept r = true /\
  In (settingOfRow r) (settings (mem (started w))) /\
  forall mandatory,
    getSetting (keyCell r) mandatory (started w)
    = (Ok (VStr (background r)), started w).
Proof.
  intros Hw Ht Hk Hb Hfirst.
  assert (Hv : Setting.value (settingOfRow r) = VStr (background r)).
  { unfold settingOfRow. cbn [Setting.value]. now rewrite Ht. }
  assert (Hkept : kept r = true).
  { unfold kept. rewrite Hv. cbn [truthy].
    apply String.eqb_neq in Hk, Hb. now rewrite Hk, Hb. }
  assert (Hs : settings (mem (started w))
               = map settingOfRow (filter kept rows1)
                 ++ settingOfRow r :: map settingOfRow (filter kept rows2)).
  { cbn. rewrite readSettingsRows_kept, Hw, filter_app. cbn [filter app].
    rewrite Hkept, map_app. reflexivity. }
  split; [exact Hv|]. split; [exact Hkept|]. split.
  - rewrite Hs. apply in_or_app. right. now left.
  - intros mandatory. rewrite getSetting_run, Hs, findSetting_skip.
    + cbn [findSetting settingOfRow Setting.key Setting.value].
      rewrite String.eqb_refl, Ht. cbn [String.eqb Ascii.eqb Bool.eqb andb truthy].
      apply String.eqb_neq in Hb. now rewrite Hb.
    + intros st Hin. apply in_map_iff in Hin. destruct Hin as (r' & <- & Hin).
      apply filter_In in Hin. apply Hfirst, Hin.
Qed.

Lemma colour_setting_is_the_cell_background_witness :
  getSetting "Level1BgColor" false
    (started
       (openRunWorld [ctrDefinition]
          [settingRow "ReportPeriod" (VStr "LAST_WEEK"); colourRow "Level1BgColor" "#ff0000"]
          []))
  = (Ok (VStr "#ff0000"),
     started
       (openRunWorld [ctrDefinition]
          [settingRow "ReportPeriod" (VStr "LAST_WEEK"); colourRow "Level1BgColor" "#ff0000"]
          [])).
Proof.
  destruct (@colour_setting_is_the_cell_background
              (openRunWorld [ctrDefinition]
                 [settingRow "ReportPeriod" (VStr "LAST_WEEK");
                  colourRow "Level1BgColor" "#ff0000"] [])
              [settingRow "ReportPeriod" (VStr "LAST_WEEK")] []
              (colourRow "Level1BgColor" "#ff0000"))
    as (_ & _ & _ & H).
  - reflexivity.
  - reflexivity.
  - discriminate.
  - discriminate.
  - intros r' [<- | []]. discriminate.
  - apply H.
Defined.

Lemma headerOf_app ds1 ds2 d :
  shown d = false -> headerOf (ds1 ++ d :: ds2) = headerOf (ds1 ++ ds2).
Proof.
  intros H. unfold headerOf. fold shown. rewrite !filter_app. cbn [filter].
  now rewrite H.
Qed.

(** X23. A signal that is not of the type Number, or not included in the
    report, does not count for the score: with it or without it in the
    catalogue, the sum of the signal scores, the sum of the weights and the
    score of an account are the same, whatever its weight, direction and
    value are.  A signal that is not included in the report is not in the
    header row and not in the data rows either. *)
Theorem only_included_Number_signals_count (d : signalDefinition)
  (ds1 ds2 : list signalDefinition) :
  (included d = false ->
   (forall sw a raw,
      scoreSum (processSignals (ds1 ++ d :: ds2) sw a raw)
      = scoreSum (processSignals (ds1 ++ ds2) sw a raw) /\
      score (processSignals (ds1 ++ d :: ds2) sw a raw)
      = score (processSignals (ds1 ++ ds2) sw a raw)) /\
   calculateSumWeightsFrom (ds1 ++ d :: ds2) (ofZ 0)
   = calculateSumWeightsFrom (ds1 ++ ds2) (ofZ 0)) /\
  (shown d = false ->
   headerOf (ds1 ++ d :: ds2) = headerOf (ds1 ++ ds2) /\
   forall raw sc, dataRow (ds1 ++ d :: ds2) raw sc = dataRow (ds1 ++ ds2) raw sc) /\
  (includeInReport d <> "Yes" -> shown d = false /\ included d = false) /\
  (type d <> "Number" -> included d = false).
Proof.
  split; [|split; [|split]].
  - intros Hi.
    assert (Hs : forall raw,
               sumList (map (contribution raw) (ds1 ++ d :: ds2))
               = sumList (map (contribution raw) (ds1 ++ ds2))).
    { intros raw. rewrite !map_app. cbn [map]. rewrite sumList_insert.
      unfold contribution at 3. rewrite Hi. apply add_0_r. }
    split.
    + intros sw a raw. rewrite !score_of_processSignals, !scoreSum_processSignals.
      now rewrite Hs.
    + rewrite !calculateSumWeightsFrom_sum, !map_app. cbn [map].
      fold (sumList (map weightShare ds1 ++ weightShare d :: map weightShare ds2)).
      fold (sumList (map weightShare ds1 ++ map weightShare ds2)).
      rewrite sumList_insert. unfold weightShare at 3. rewrite Hi. apply add_0_r.
  - intros Hs. split; [now apply headerOf_app|].
    intros raw sc. unfold dataRow. rewrite !filter_app. cbn [filter].
    now rewrite Hs.
  - intros H. apply String.eqb_neq in H. unfold shown, included. now rewrite H.
  - intros H. apply String.eqb_neq in H. unfold included. rewrite H.
    apply andb_false_r.
Qed.

Lemma only_included_Number_signals_count_witness :
  scoreSum (processSignals [ctrDefinition; nameDefinition] (ofZ 2) "1"
              [("Ctr", VNum (Fin (qc 5 100))); ("AccountDescriptiveName", VStr "Shop")])
  = scoreSum (processSignals [ctrDefinition] (ofZ 2) "1"
                [("Ctr", VNum (Fin (qc 5 100))); ("AccountDescriptiveName", VStr "Shop")]).
Proof.
  destruct (only_included_Number_signals_count nameDefinition [ctrDefinition] [])
    as (H & _).
  destruct (H eq_refl) as (Hs & _).
  apply Hs.
Defined.

(** ** A whole run *)

Lemma map_fst_markAll E l rows : map fst (markAll E l rows) = map fst rows.
Proof.
  revert rows. induction l as [|a l IH]; intros rows; [reflexivity|].
  cbn [markAll fold_left]. fold (markAll E l (markRows E a rows)).
  now rewrite IH, map_fst_markRows.
Qed.

Lemma unprocessedRow_now E c : now E <> 0%Z -> unprocessedRow (c, VNum (getTimestamp E)) = false.
Proof.
  intros H. destruct (unprocessedRow (c, VNum (getTimestamp E))) eqn:U; [|reflexivity].
  apply unprocessedRow_falsy in U. cbn [snd] in U.
  rewrite (@truthy_now E H) in U. discriminate.
Qed.

Lemma outside_cons a l c : outside (a :: l) c = negb (c =? a) && outside l c.
Proof. unfold outside. cbn [existsb]. apply negb_orb. Qed.

Lemma outside_one a c : outside [a] c = negb (c =? a).
Proof. unfold outside. cbn [existsb]. now rewrite orb_false_r. Qed.

Lemma remaining_markRows E a rows :
  now E <> 0%Z ->
  map fst (filter unprocessedRow (markRows E a rows))
  = filter (outside [a]) (map fst (filter unprocessedRow rows)).
Proof.
  intros Hnow. unfold markRows. induction rows as [|row rows IH]; [reflexivity|].
  cbn [map filter]. destruct (a =? fst row) eqn:Ha.
  - rewrite (@unprocessedRow_now E (fst row) Hnow), IH.
    destruct (unprocessedRow row); [|reflexivity].
    cbn [map filter]. rewrite outside_one, String.eqb_sym, Ha. reflexivity.
  - destruct (unprocessedRow row); [|exact IH].
    cbn [map filter]. rewrite outside_one, String.eqb_sym, Ha. cbn [negb].
    now rewrite IH.
Qed.

Lemma filter_outside_cons a l (X : list string) :
  filter (outside l) (filter (outside [a]) X) = filter (outside (a :: l)) X.
Proof.
  induction X as [|c X IH]; [reflexivity|].
  cbn [filter]. rewrite outside_one, outside_cons.
  destruct (c =? a); cbn [negb andb filter]; [exact IH|].
  destruct (outside l c); now rewrite IH.
Qed.

Lemma remaining_markAll E l rows :
  now E <> 0%Z ->
  map fst (filter unprocessedRow (markAll E l rows))
  = filter (outside l) (map fst (filter unprocessedRow rows)).
Proof.
  intros Hnow. revert rows. induction l as [|a l IH]; intros rows.
  - cbn [markAll fold_left]. induction (map fst (filter unprocessedRow rows)) as [|c X IHX];
      [reflexivity|]. cbn. now rewrite <- IHX.
  - cbn [markAll fold_left]. fold (markAll E l (markRows E a rows)).
    now rewrite IH, (@remaining_markRows E a rows Hnow), filter_outside_cons.
Qed.

Lemma outside_firstn (k : nat) (X : list string) :
  NoDup X -> filter (outside (firstn k X)) X = skipn k X.
Proof.
  revert X. induction k as [|k IH]; intros X HX.
  - cbn. induction X as [|c X IHX]; [reflexivity|]. cbn. f_equal. apply IHX.
    now inversion HX.
  - destruct X as [|x X]; [reflexivity|]. inversion HX as [|? ? Hx HX']; subst.
    cbn [firstn skipn filter]. rewrite outside_cons, String.eqb_refl.
    cbn [negb andb]. rewrite <- (IH X HX').
    apply filter_ext_in. intros c Hc. rewrite outside_cons.
    destruct (String.eqb_spec c x) as [-> | Hne]; [contradiction | reflexivity].
Qed.

Lemma outside_ext l1 l2 (X : list string) :
  (forall c, In c X -> (In c l1 <-> In c l2)) ->
  filter (outside l1) X = filter (outside l2) X.
Proof.
  intros H. apply filter_ext_in. intros c Hc. unfold outside. f_equal.
  destruct (existsb (String.eqb c) l1) eqn:E1, (existsb (String.eqb c) l2) eqn:E2;
    try reflexivity.
  - apply existsb_exists in E1. destruct E1 as (x & Hx & Heq).
    apply String.eqb_eq in Heq. subst x. apply (H c Hc) in Hx.
    assert (E : existsb (String.eqb c) l2 = true).
    { apply existsb_exists. exists c. split; [exact Hx | apply String.eqb_refl]. }
    congruence.
  - apply existsb_exists in E2. destruct E2 as (x & Hx & Heq).
    apply String.eqb_eq in Heq. subst x. apply (H c Hc) in Hx.
    assert (E : existsb (String.eqb c) l1 = true).
    { apply existsb_exists. exists c. split; [exact Hx | apply String.eqb_refl]. }
    congruence.
Qed.

Lemma NoDup_remaining w : NoDup (map fst (accountsTab w)) -> NoDup (remaining w).
Proof.
  unfold remaining. induction (accountsTab w) as [|row rows IH]; intros H;
    [constructor|].
  cbn [map] in H. inversion H as [|? ? Hx Hr]; subst. cbn [filter].
  destruct (unprocessedRow row); [|now apply IH].
  cbn [map]. constructor; [|now apply IH].
  intros Hin. apply Hx. apply in_map_iff in Hin. destruct Hin as (r & Hf & Hin).
  apply filter_In in Hin. apply in_map_iff. exists r. now split.
Qed.

Lemma continue_keeps_tabs E :
  respects (keeps (fun s => (signalsTab (disk s), settingsTab (disk s))))
           (continueUnfinishedReport E).
Proof. unfold continueUnfinishedReport. batch_frame. Qed.

Lemma openSheet_url w url sheet :
  openSheet w = Some (url, sheet) ->
  exists start lastRunEndDate history,
    rev (historyTab w) = (start, lastRunEndDate, url) :: history.
Proof.
  unfold openSheet. destruct (rev (historyTab w)) as [|[[start e] u] history];
    [discriminate|].
  destruct (get (runSheets w) u); [|discriminate].
  intros H. injection H as <- _. now exists start, e, history.
Qed.

Lemma openSheet_same_history w w' url sheet sheet' :
  openSheet w = Some (url, sheet) -> historyTab w' = historyTab w ->
  get (runSheets w') url = Some sheet' -> openSheet w' = Some (url, sheet').
Proof.
  intros Ho Hh Hg. destruct (@openSheet_url w url sheet Ho) as (start & e & history & Hr).
  unfold openSheet. now rewrite Hh, Hr, Hg.
Qed.

Lemma notification_started w w' url :
  settingsTab w' = settingsTab w ->
  notification (started w') url = notification (started w) url.
Proof.
  intros H. unfold notification. now rewrite !findSetting_started, H.
Qed.

Lemma allMarked_none_left w :
  (forall row, In row (accountsTab w) -> unprocessedRow row = false ->
               truthy (snd row) = true) ->
  allMarked w = match remaining w with [] => true | _ :: _ => false end.
Proof.
  intros Hclean. unfold remaining.
  destruct (filter unprocessedRow (accountsTab w)) as [|row l] eqn:F.
  - apply forallb_forall. intros row Hin. apply Hclean; [exact Hin|].
    destruct (unprocessedRow row) eqn:U; [|reflexivity].
    assert (Hf : In row (filter unprocessedRow (accountsTab w)))
      by (apply filter_In; now split).
    rewrite F in Hf. destruct Hf.
  - assert (Hf : In row (filter unprocessedRow (accountsTab w)))
      by (rewrite F; now left).
    apply filter_In in Hf. destruct Hf as [Hin Hu].
    apply (@allMarked_false w row Hin Hu).
Qed.

Lemma NoDup_firstn {A : Type} (k : nat) (l : list A) : NoDup l -> NoDup (firstn k l).
Proof.
  intros H. rewrite <- (firstn_skipn k l) in H. now apply NoDup_app_remove_r in H.
Qed.

Section WholeRun.

Variables (limit period : val) (url : string) (k : nat).

Hypothesis size_k : toNumber limit = ofNat k.
Hypothesis positive_k : (0 < k)%nat.

Lemma selection_ready w :
  ready limit period url w -> selection (started w) = firstn k (remaining w).
Proof.
  intros (_ & _ & HL & _). unfold selection.
  rewrite getUnprocessedAccounts_run, HL, size_k. cbn [fst].
  rewrite selectFrom_exact. cbn [List.length app]. now rewrite Nat.sub_0_r.
Qed.

Lemma batchOf_ready E w c :
  ready limit period url w -> fit (remaining w) E ->
  In c (batchOf E (started w)) <-> In c (firstn k (remaining w)).
Proof.
  intros Hr (_ & _ & Hl). unfold batchOf. rewrite In_withIds, (selection_ready Hr).
  split; [now intros [_ H]|]. intros H. split; [|exact H].
  apply Hl. now apply In_firstn in H.
Qed.

(** One batch of the run. *)
Lemma batch_step E w :
  ready limit period url w -> fit (remaining w) E ->
  remaining (disk (snd (invoke E w))) = skipn k (remaining w) /\
  Permutation (scored (snd (invoke E w))) (firstn k (remaining w)) /\
  map fst (accountsTab (disk (snd (invoke E w)))) = map fst (accountsTab w) /\
  settingsTab (disk (snd (invoke E w))) = settingsTab w /\
  (forall row, In row (accountsTab (disk (snd (invoke E w)))) ->
     unprocessedRow row = false -> truthy (snd row) = true) /\
  (exists sheet', get (runSheets (disk (snd (invoke E w)))) url = Some sheet') /\
  if (0 <? List.length (firstn k (remaining w)))%nat
     && (List.length (remaining w) <=? k)%nat
  then hasOpenRun (disk (snd (invoke E w))) = false /\
       allMarked (disk (snd (invoke E w))) = true /\
       protectedTabs (disk (snd (invoke E w))) = unprotected (protectedTabs w) /\
       outbox (disk (snd (invoke E w))) = outbox w ++ notification (started w) url
  else historyTab (disk (snd (invoke E w))) = historyTab w /\
       protectedTabs (disk (snd (invoke E w))) = protectedTabs w /\
       outbox (disk (snd (invoke E w))) = outbox w.
Proof.
  intros Hready Hfit. pose proof Hready as (Ho & [sheet Hs] & HL & HP & Hnd & Hclean).
  pose proof Hfit as (Hmcc & Hnow & Hlisted).
  assert (Hnum : toNumber limit <> NaN) by (rewrite size_k; discriminate).
  assert (Hu : currentSheetUrl (started w) = Some url)
    by (now rewrite currentSheetUrl_started, Hs).
  assert (Hrep : reportAt url (started w) = Some sheet)
    by (now apply openSheet_get).
  destruct (@continue_all E (started w) url sheet limit period Hu Hrep HL Hnum HP
              Hmcc (Forall_nil _))
    as (s' & Hr & Ha & Hi & Hg & Hfin).
  assert (Hinv : invoke E w = (Ok tt, s')).
  { unfold invoke. rewrite (@main_open E {| mem := freshMemory; disk := w |} Ho).
    fold (started w). erewrite bind_Ok by exact Hr. reflexivity. }
  rewrite Hinv. cbn [snd].
  change (accountsTab (disk (started w))) with (accountsTab w) in Ha.
  change (accountInfos (mem (started w))) with (@nil accountInfo) in Hi.
  cbn [app] in Hi.
  set (batch := batchOf E (started w)) in *.
  assert (Hin : forall c, In c batch <-> In c (firstn k (remaining w)))
    by (intros c; now apply batchOf_ready).
  assert (HX : NoDup (remaining w)) by (now apply NoDup_remaining).
  assert (Hrem : remaining (disk s') = skipn k (remaining w)).
  { unfold remaining at 1. rewrite Ha, (@remaining_markAll E batch (accountsTab w) Hnow).
    fold (remaining w). rewrite <- (outside_firstn k HX).
    apply outside_ext. intros c _. apply Hin. }
  assert (Hperm : Permutation batch (firstn k (remaining w))).
  { apply NoDup_Permutation; [| now apply NoDup_firstn | exact Hin].
    unfold batch, batchOf, withIds. now apply NoDup_filter. }
  assert (Hsc : Permutation (scored s') (firstn k (remaining w))).
  { unfold scored. rewrite Hi.
    rewrite (Permutation_map account (sortByScore_Permutation _)), map_map.
    rewrite (map_ext _ (fun a => a) (account_infoOf E period (started w))), map_id.
    exact Hperm. }
  assert (Hcl : forall row, In row (accountsTab (disk s')) ->
                            unprocessedRow row = false -> truthy (snd row) = true).
  { intros row Hrow Hun. rewrite Ha in Hrow. apply In_markAll in Hrow.
    destruct Hrow as [[_ Hsn] | [_ Hrow]].
    - rewrite Hsn. now apply truthy_now.
    - now apply Hclean. }
  pose proof (continue_keeps_tabs E (started w)) as Kt. unfold keeps in Kt.
  rewrite Hr in Kt. cbn [snd] in Kt. injection Kt as _ Kst.
  change (settingsTab (disk (started w))) with (settingsTab w) in Kst.
  split; [exact Hrem|]. split; [exact Hsc|].
  split; [now rewrite Ha, map_fst_markAll|]. split; [exact Kst|].
  split; [exact Hcl|]. split; [unfold reportAt in Hg; eauto|].
  rewrite (Permutation_length Hperm) in Hfin.
  rewrite (allMarked_none_left (disk s') Hcl), Hrem in Hfin.
  assert (Hlen : (List.length (remaining w) <=? k)%nat
                 = match skipn k (remaining w) with [] => true | _ :: _ => false end).
  { pose proof (length_skipn k (remaining w)) as Hl.
    destruct (skipn k (remaining w)) as [|c l]; cbn [List.length] in Hl.
    - apply Nat.leb_le. lia.
    - apply Nat.leb_gt. lia. }
  rewrite Hlen.
  destruct ((0 <? List.length (firstn k (remaining w)))%nat
            && match skipn k (remaining w) with [] => true | _ :: _ => false end)
    eqn:C.
  - destruct Hfin as (Hp & Hh & Hob).
    change (protectedTabs (disk (started w))) with (protectedTabs w) in Hp.
    change (outbox (disk (started w))) with (outbox w) in Hob.
    split.
    { apply (@hasOpenRun_closed (disk s') (historyTab (disk (started w)))
               (VNum (getTimestamp E)) (@truthy_now E Hnow) Hh). }
    split.
    { rewrite (allMarked_none_left (disk s') Hcl), Hrem.
      apply andb_true_iff in C. now destruct C as [_ ->]. }
    split; [exact Hp | exact Hob].
  - destruct Hfin as (Hp & Hh & Hob). now repeat split.
Qed.

Lemma ready_next E w :
  ready limit period url w -> fit (remaining w) E ->
  (k < List.length (remaining w))%nat ->
  ready limit period url (disk (snd (invoke E w))).
Proof.
  intros Hready Hfit Hk.
  destruct (batch_step Hready Hfit) as (_ & _ & Hm & Hst & Hcl & [sheet' Hg] & Hc).
  destruct Hready as (Ho & [sheet Hs] & HL & HP & Hnd & _).
  assert (Hlast : (List.length (remaining w) <=? k)%nat = false)
    by (apply Nat.leb_gt; exact Hk).
  rewrite Hlast, andb_false_r in Hc. destruct Hc as (Hh & _ & _).
  split; [unfold hasOpenRun in *; now rewrite Hh|].
  split; [exists sheet'; now apply (@openSheet_same_history w _ url sheet sheet' Hs Hh Hg)|].
  split; [now rewrite findSetting_started, Hst, <- findSetting_started|].
  split; [now rewrite findSetting_started, Hst, <- findSetting_started|].
  split; [now rewrite Hm | exact Hcl].
Qed.

Lemma run_to_the_end Es :
  forall w,
    ready limit period url w -> (0 < List.length (remaining w))%nat ->
    (forall E, In E Es -> fit (remaining w) E) ->
    ((List.length Es - 1) * k < List.length (remaining w) <= List.length Es * k)%nat ->
    Permutation (runScored Es w) (remaining w) /\
    hasOpenRun (invocations Es w) = false /\
    allMarked (invocations Es w) = true /\
    map fst (accountsTab (invocations Es w)) = map fst (accountsTab w) /\
    outbox (invocations Es w) = outbox w ++ notification (started w) url /\
    (forall Es1 Es2, Es = Es1 ++ Es2 -> Es2 <> [] ->
       hasOpenRun (invocations Es1 w) = true).
Proof.
  induction Es as [|E Es IH]; intros w Hready Hpos Hfit Hlen.
  { cbn in Hlen. lia. }
  assert (HfitE : fit (remaining w) E) by (apply Hfit; now left).
  destruct (batch_step Hready HfitE) as (Hrem & Hsc & Hm & Hst & Hcl & _ & Hc).
  cbn [runScored invocations].
  destruct (Nat.le_gt_cases (List.length (remaining w)) k) as [Hle | Hgt].
  - assert (HEs : Es = []).
    { destruct Es as [|E' Es']; [reflexivity|]. cbn [List.length] in Hlen. nia. }
    subst Es. cbn [runScored invocations]. rewrite app_nil_r.
    assert (Hfirst : (0 <? List.length (firstn k (remaining w)))%nat = true).
    { apply Nat.ltb_lt. rewrite length_firstn. lia. }
    assert (Hlast : (List.length (remaining w) <=? k)%nat = true)
      by (now apply Nat.leb_le).
    rewrite Hfirst, Hlast in Hc. destruct Hc as (Hc1 & Hc2 & _ & Hc3).
    split; [now rewrite Hsc, firstn_all2|]. split; [exact Hc1|].
    split; [exact Hc2|]. split; [exact Hm|]. split; [exact Hc3|].
    intros Es1 Es2 Heq Hne. destruct Es1 as [|E1 Es1]; [exact (proj1 Hready)|].
    cbn [app] in Heq. injection Heq as _ Heq.
    destruct Es1; [|discriminate]. cbn in Heq. congruence.
  - assert (Hnext : ready limit period url (disk (snd (invoke E w))))
      by (now apply ready_next).
    assert (Hlast : (List.length (remaining w) <=? k)%nat = false)
      by (now apply Nat.leb_gt).
    rewrite Hlast, andb_false_r in Hc. destruct Hc as (_ & _ & Hob).
    destruct (IH (disk (snd (invoke E w))) Hnext)
      as (I1 & I2 & I3 & I4 & I5 & I6).
    + rewrite Hrem, length_skipn. lia.
    + intros E' HE'. destruct (Hfit E' (or_intror HE')) as (F1 & F2 & F3).
      split; [exact F1|]. split; [exact F2|]. intros c Hcin. apply F3.
      rewrite Hrem in Hcin. rewrite <- (firstn_skipn k (remaining w)).
      apply in_or_app. now right.
    + rewrite Hrem, length_skipn. cbn [List.length] in Hlen. nia.
    + split.
      { rewrite I1, Hrem, Hsc. now rewrite firstn_skipn. }
      split; [exact I2|]. split; [exact I3|]. split; [now rewrite I4|].
      split; [now rewrite I5, Hob, (@notification_started w _ url Hst)|].
      intros Es1 Es2 Heq Hne. destruct Es1 as [|E1 Es1]; [exact (proj1 Hready)|].
      cbn [app] in Heq. injection Heq as <- Heq. cbn [invocations].
      now apply (I6 Es1 Es2).
Qed.

(** X24. A run comes to its end, and every account that is left is scored
    once on the way.  On a spreadsheet with an open run whose report can be
    opened, with the batch size k and the period set, no account in two
    rows, and platforms that list the accounts that are left, let as many
    invocations follow one another as it takes to cover these accounts k at
    a time.  Then the accounts they score are the accounts that were left,
    each once; before the last of them the run is open, after it the run is
    closed, every account row is marked, the rows are the same accounts as
    before, and the notification was sent once. *)
Theorem run_scores_every_account_once (Es : list env) (w : world) :
  ready limit period url w -> remaining w <> [] ->
  (forall E, In E Es -> fit (remaining w) E) ->
  ((List.length Es - 1) * k < List.length (remaining w) <= List.length Es * k)%nat ->
  Permutation (runScored Es w) (remaining w) /\
  NoDup (runScored Es w) /\
  hasOpenRun (invocations Es w) = false /\
  allMarked (invocations Es w) = true /\
  map fst (accountsTab (invocations Es w)) = map fst (accountsTab w) /\
  outbox (invocations Es w) = outbox w ++ notification (started w) url /\
  (forall Es1 Es2, Es = Es1 ++ Es2 -> Es2 <> [] ->
     hasOpenRun (invocations Es1 w) = true).
Proof.
  intros Hready Hne Hfit Hlen.
  assert (Hpos : (0 < List.length (remaining w))%nat).
  { destruct (remaining w); [congruence | cbn; lia]. }
  destruct (run_to_the_end Es Hready Hpos Hfit Hlen) as (H1 & H2 & H3 & H4 & H5 & H6).
  split; [exact H1|]. split.
  { apply (Permutation_NoDup (Permutation_sym H1)).
    apply NoDup_remaining. apply Hready. }
  repeat split; assumption.
Qed.

End WholeRun.

Lemma run_scores_every_account_once_witness :
  Permutation (runScored [exampleEnv; exampleEnv] staleOpenWorld) ["1"; "2"; "3"] /\
  hasOpenRun (invocations [exampleEnv; exampleEnv] staleOpenWorld) = false.
Proof.
  assert (Hready : ready (VNum (ofZ 2)) (VStr "LAST_WEEK") "run-0" staleOpenWorld).
  { split; [reflexivity|]. split; [eexists; reflexivity|].
    split; [reflexivity|]. split; [reflexivity|]. split.
    - repeat constructor; cbn; intuition discriminate.
    - intros row [<- | [<- | [<- | []]]]; discriminate. }
  assert (Hfit : forall E, In E [exampleEnv; exampleEnv] ->
                           fit (remaining staleOpenWorld) E).
  { intros E [<- | [<- | []]]; (split; [|split; [discriminate|]]).
    - repeat constructor; cbn; intuition discriminate.
    - intros c Hc. exact Hc.
    - repeat constructor; cbn; intuition discriminate.
    - intros c Hc. exact Hc. }
  destruct (@run_scores_every_account_once (VNum (ofZ 2)) (VStr "LAST_WEEK") "run-0"
              2%nat eq_refl (le_n_S _ _ (le_S _ _ (le_n 0)))
              [exampleEnv; exampleEnv] staleOpenWorld Hready)
    as (Hp & _ & Ho & _).
  - discriminate.
  - exact Hfit.
  - cbn. lia.
  - split; [exact Hp | exact Ho].
Defined.
